(** * WAChatBooker: the slot scheduling and conflict resolution engine

    A shallow embedding of [date_utils.py], [models.py] and
    [bot_handler.py], and the properties of the scheduling engine proved
    about it.

    Modelling conventions.
    - Text is a [list char].  The alphabet is Latin-1 (the code points
      0..255) together with the decimal digits of every other script
      (Unicode category Nd), which Python's [\d] matches and [int]
      converts like the digits 0..9.  The character classes of Python's
      [re] and [str] are given on that alphabet as CPython's Unicode
      database has them.
    - A Python exception is a [Raise] of the [py] monad.  A [try]/[except]
      is a match on the result.
    - The wall clock is a parameter: every read of [datetime.now()] is an
      argument of the function that performs it.
    - The [appointments] table is the list of its rows in insertion order;
      the store never fails to commit. *)

From Stdlib Require Import String Ascii.
From Stdlib Require Import List ZArith Lia Bool Arith.
From Stdlib Require Import Permutation Sorted.
Import ListNotations.

Local Open Scope list_scope.

(** ** Python values and exceptions *)

Inductive exn : Type :=
| ValueError
| OverflowError.

Inductive py (A : Type) : Type :=
| Ret (a : A)
| Raise (e : exn).

Arguments Ret {A} a.
Arguments Raise {A} e.

Definition bind {A B : Type} (m : py A) (f : A -> py B) : py B :=
  match m with
  | Ret a => f a
  | Raise e => Raise e
  end.

Notation "x <- m ;; k" := (bind m (fun x => k))
  (at level 61, m at next level, right associativity).
Notation "' pat <- m ;; k" := (bind m (fun x => match x with pat => k end))
  (at level 61, pat pattern, m at next level, right associativity).

(** ** Characters *)

(** The value of a decimal digit. *)
Inductive digit : Type := D0 | D1 | D2 | D3 | D4 | D5 | D6 | D7 | D8 | D9.

Definition value (d : digit) : nat :=
  match d with
  | D0 => 0 | D1 => 1 | D2 => 2 | D3 => 3 | D4 => 4
  | D5 => 5 | D6 => 6 | D7 => 7 | D8 => 8 | D9 => 9
  end.

(** A character of Latin-1, or a decimal digit of another script.  The
    decimal digits of Unicode come in blocks of ten, zero to nine;
    [block] counts the blocks after the ASCII digits in the order of
    their code points: block 0 is ARABIC-INDIC DIGIT ZERO..NINE
    (U+0660..U+0669), block 1 EXTENDED ARABIC-INDIC (U+06F0..U+06F9),
    block 2 NKO (U+07C0..U+07C9), block 3 DEVANAGARI (U+0966..U+096F),
    and so on. *)
Inductive char : Type :=
| Latin (a : ascii)
| Digit (block : N) (d : digit).

Definition arabic_indic : N := 0%N.

Definition char_of_byte (b : Byte.byte) : char := Latin (ascii_of_byte b).

Definition byte_of_char (c : char) : option Byte.byte :=
  match c with
  | Latin a => Some (byte_of_ascii a)
  | Digit _ _ => None
  end.

Declare Scope text_scope.
Bind Scope text_scope with char.
String Notation char char_of_byte byte_of_char : text_scope.
Local Open Scope text_scope.

Definition digit_eqb (x y : digit) : bool := (value x =? value y)%nat.

Definition char_eqb (x y : char) : bool :=
  match x, y with
  | Latin a, Latin b => Ascii.eqb a b
  | Digit s v, Digit s' v' => (s =? s')%N && digit_eqb v v'
  | _, _ => false
  end.

(** Text literals are written as Rocq strings. *)
Definition str (s : string) : list char := map Latin (list_ascii_of_string s).

(** ** [str] methods and builtins used by the program *)

Module PyStr.

(** The place of a character in the alphabet, in the order of the code
    points: for Latin-1 the code point itself, then the digits of the
    other scripts block by block. *)
Definition code (c : char) : nat :=
  match c with
  | Latin a => nat_of_ascii a
  | Digit s v => 256 + 10 * N.to_nat s + value v
  end.

Definition between (lo hi : nat) (c : char) : bool :=
  (lo <=? code c)%nat && (code c <=? hi)%nat.

(** [str.isspace] / the class [\s]: TAB..CR, FS..US, SPACE, NEL, NBSP. *)
Definition is_space (c : char) : bool :=
  between 9 13 c || between 28 32 c
  || (code c =? 133)%nat || (code c =? 160)%nat.

(** [str.isdecimal] / the class [\d]: the digits 0..9 and the decimal
    digits of the other scripts. *)
Definition is_decimal (c : char) : bool :=
  match c with
  | Latin _ => between 48 57 c
  | Digit _ _ => true
  end.

Definition is_upper (c : char) : bool :=
  between 65 90 c
  || (between 192 222 c && negb (code c =? 215)%nat).

(** [str.isalnum] or underscore: the class [\w]. *)
Definition is_word (c : char) : bool :=
  is_decimal c || between 65 90 c || between 97 122 c
  || (code c =? 95)%nat
  || (code c =? 170)%nat || (code c =? 178)%nat || (code c =? 179)%nat
  || (code c =? 181)%nat || (code c =? 185)%nat || (code c =? 186)%nat
  || between 188 190 c
  || (between 192 255 c && negb (code c =? 215)%nat
      && negb (code c =? 247)%nat).

Definition lower_char (c : char) : char :=
  if is_upper c then Latin (ascii_of_nat (code c + 32)) else c.

(** [s.lower()] *)
Definition lower (s : list char) : list char := map lower_char s.

Fixpoint drop_while (p : char -> bool) (s : list char) : list char :=
  match s with
  | c :: s' => if p c then drop_while p s' else s
  | [] => []
  end.

Definition strip_by (p : char -> bool) (s : list char) : list char :=
  rev (drop_while p (rev (drop_while p s))).

(** [s.strip()] *)
Definition strip (s : list char) : list char := strip_by is_space s.

(** The white space [int] skips around a number: [\x1c]..[\x1f] are
    not part of it. *)
Definition is_int_space (c : char) : bool :=
  between 9 13 c || (code c =? 32)%nat
  || (code c =? 133)%nat || (code c =? 160)%nat.

(** [s.split(sep)] for a one-character separator: the pieces between
    the separators, empty pieces included. *)
Fixpoint split (sep : char) (s : list char) : list (list char) :=
  match s with
  | [] => [[]]
  | c :: s' =>
      if char_eqb c sep then [] :: split sep s'
      else match split sep s' with
           | p :: ps => (c :: p) :: ps
           | [] => [[c]]
           end
  end.

(** [s.zfill(width)]: a leading sign stays in front of the padding. *)
Definition zfill (width : nat) (s : list char) : list char :=
  let pad := repeat "0" (width - length s) in
  match s with
  | c :: s' =>
      if char_eqb c "+" || char_eqb c "-" then c :: pad ++ s'
      else pad ++ s
  | [] => pad
  end.

(** [needle in s] *)
Fixpoint starts_with (p s : list char) : bool :=
  match p, s with
  | [], _ => true
  | a :: p', b :: s' => char_eqb a b && starts_with p' s'
  | _ :: _, [] => false
  end.

Fixpoint contains (needle s : list char) : bool :=
  starts_with needle s
  || match s with
     | [] => false
     | _ :: s' => contains needle s'
     end.

(** The number a decimal digit stands for. *)
Definition digit_value (c : char) : Z :=
  match c with
  | Latin _ => Z.of_nat (code c) - 48
  | Digit _ v => Z.of_nat (value v)
  end.

(** The digits of an [int] literal, most significant first; one
    underscore may stand between two digits. *)
Fixpoint digits_value (after_digit : bool) (acc : Z) (s : list char)
  : option Z :=
  match s with
  | [] => if after_digit then Some acc else None
  | c :: s' =>
      if is_decimal c then digits_value true (10 * acc + digit_value c) s'
      else if char_eqb c "_" && after_digit then
        match s' with
        | d :: _ => if is_decimal d then digits_value false acc s' else None
        | [] => None
        end
      else None
  end.

Definition literal_value (s : list char) : option Z :=
  match strip_by is_int_space s with
  | c :: s' =>
      if char_eqb c "-" then option_map Z.opp (digits_value false 0 s')
      else if char_eqb c "+" then digits_value false 0 s'
      else digits_value false 0 (c :: s')
  | [] => None
  end.

(** [int(s)]: surrounding white space is dropped, one sign is allowed;
    anything else raises [ValueError]. *)
Definition int (s : list char) : py Z :=
  match literal_value s with
  | Some n => Ret n
  | None => Raise ValueError
  end.

(** Unpacking [a, b = map(int, parts)] and [a, b, c = map(int, parts)]:
    a wrong number of parts and a part that is no number both raise
    [ValueError]. *)
Definition unpack2_int (parts : list (list char)) : py (Z * Z) :=
  match parts with
  | [a; b] => x <- int a ;; y <- int b ;; Ret (x, y)
  | _ => Raise ValueError
  end.

Definition unpack3_int (parts : list (list char)) : py (Z * Z * Z) :=
  match parts with
  | [a; b; c] => x <- int a ;; y <- int b ;; z <- int c ;; Ret (x, y, z)
  | _ => Raise ValueError
  end.

(** Unpacking [a, b = parts]. *)
Definition unpack2 (parts : list (list char))
  : py (list char * list char) :=
  match parts with
  | [a; b] => Ret (a, b)
  | _ => Raise ValueError
  end.

Definition digit_char (n : Z) : char :=
  Latin (ascii_of_nat (48 + Z.to_nat n)).

(** The conversions [%02d] and [%04d] of a number in range. *)
Definition pad2 (n : Z) : list char :=
  [digit_char (n / 10 mod 10); digit_char (n mod 10)].

Definition pad4 (n : Z) : list char :=
  [digit_char (n / 1000 mod 10); digit_char (n / 100 mod 10);
   digit_char (n / 10 mod 10); digit_char (n mod 10)].

(** Unpacking [a, b, c = parts]. *)
Definition unpack3 (parts : list (list char))
  : py (list char * list char * list char) :=
  match parts with
  | [a; b; c] => Ret (a, b, c)
  | _ => Raise ValueError
  end.

End PyStr.

(** ** The fragment of [re] used by the program

    A backtracking matcher in continuation-passing style: alternatives
    are tried left to right, a greedy repetition tries the longest run
    first and a lazy one the shortest, and a failure of what follows
    makes the matcher fall back to the next choice.  The continuation
    receives the text matched by the expression. *)

Module Re.
Import PyStr.

Inductive regex : Type :=
| Eps
| Cls (p : char -> bool)
| Seq (r1 r2 : regex)
| Alt (r1 r2 : regex)
| Rep (greedy : bool) (lo : nat) (hi : option nat) (p : char -> bool)
| Grp (n : nat) (r : regex)
| Bol
| Eol
| WordB.

Record state : Type := mk_state {
  prev : option char;
  rest : list char;
  groups : list (nat * list char)
}.

Definition set_group (n : nat) (t : list char) (st : state) : state :=
  mk_state (prev st) (rest st) ((n, t) :: groups st).

Definition is_word_opt (o : option char) : bool :=
  match o with
  | Some c => is_word c
  | None => false
  end.

Definition room (hi : option nat) : bool :=
  match hi with
  | Some O => false
  | _ => true
  end.

Definition less (hi : option nat) : option nat := option_map pred hi.

Section Matcher.
Context {A : Type}.

(** [p{lo,hi}] and [p{lo,hi}?] over one character class. *)
Fixpoint rep (greedy : bool) (p : char -> bool) (lo : nat)
    (hi : option nat) (taken : list char) (pv : option char)
    (s : list char)
    (k : list char -> option char -> list char -> option A)
    {struct s} : option A :=
  match s with
  | c :: s' =>
      if greedy then
        match (if p c && room hi
               then rep greedy p (pred lo) (less hi) (c :: taken)
                        (Some c) s' k
               else None) with
        | Some x => Some x
        | None =>
            match lo with
            | O => k (rev taken) pv s
            | S _ => None
            end
        end
      else
        match (match lo with
               | O => k (rev taken) pv s
               | S _ => None
               end) with
        | Some x => Some x
        | None =>
            if p c && room hi
            then rep greedy p (pred lo) (less hi) (c :: taken)
                     (Some c) s' k
            else None
        end
  | [] =>
      match lo with
      | O => k (rev taken) pv s
      | S _ => None
      end
  end.

Fixpoint run (r : regex) (st : state)
    (k : list char -> state -> option A) {struct r} : option A :=
  match r with
  | Eps => k [] st
  | Cls p =>
      match rest st with
      | c :: s' =>
          if p c then k [c] (mk_state (Some c) s' (groups st)) else None
      | [] => None
      end
  | Seq r1 r2 =>
      run r1 st (fun t1 st1 =>
      run r2 st1 (fun t2 st2 => k (t1 ++ t2) st2))
  | Alt r1 r2 =>
      match run r1 st k with
      | Some x => Some x
      | None => run r2 st k
      end
  | Rep g lo hi p =>
      rep g p lo hi [] (prev st) (rest st)
          (fun t pv s => k t (mk_state pv s (groups st)))
  | Grp n r1 => run r1 st (fun t st1 => k t (set_group n t st1))
  | Bol =>
      match prev st with
      | None => k [] st
      | Some _ => None
      end
  | Eol =>
      match rest st with
      | [] => k [] st
      | [c] => if char_eqb c "010" then k [] st else None
      | _ => None
      end
  | WordB =>
      if xorb (is_word_opt (prev st)) (is_word_opt (hd_error (rest st)))
      then k [] st
      else None
  end.
End Matcher.

(** A match object: where it starts, the text of group 0, the captured
    groups and the text after the match. *)
Record match_obj : Type := mk_match {
  m_start : nat;
  m_text : list char;
  m_groups : list (nat * list char);
  m_prev : option char;
  m_after : list char
}.

Definition match_at (r : regex) (off : nat) (pv : option char)
    (s : list char) : option match_obj :=
  run r (mk_state pv s [])
      (fun t st => Some (mk_match off t (groups st) (prev st) (rest st))).

(** [re.match(r, s)] *)
Definition match_ (r : regex) (s : list char) : option match_obj :=
  match_at r 0 None s.

Fixpoint search_from (r : regex) (off : nat) (pv : option char)
    (s : list char) : option match_obj :=
  match match_at r off pv s with
  | Some m => Some m
  | None =>
      match s with
      | [] => None
      | c :: s' => search_from r (S off) (Some c) s'
      end
  end.

(** [re.search(r, s)]: the leftmost match. *)
Definition search (r : regex) (s : list char) : option match_obj :=
  search_from r 0 None s.

(** [m.group(n)] for a group that took part in the match. *)
Fixpoint lookup (n : nat) (gs : list (nat * list char)) : list char :=
  match gs with
  | [] => []
  | (i, t) :: gs' => if (i =? n)%nat then t else lookup n gs'
  end.

Definition group (n : nat) (m : match_obj) : list char :=
  lookup n (m_groups m).

(** [re.sub(r, repl, s)] for an expression that matches no empty text:
    the matches are replaced from left to right, the text between them
    is kept.  Every round consumes a character, so [length s] rounds
    reach the end of [s]. *)
Fixpoint sub_from (fuel : nat) (r : regex) (repl : list char)
    (pv : option char) (s : list char) : list char :=
  match fuel with
  | O => s
  | S fuel' =>
      match match_at r 0 pv s with
      | Some (mk_match _ (_ :: _) _ pv' s') =>
          repl ++ sub_from fuel' r repl pv' s'
      | _ =>
          match s with
          | [] => []
          | c :: s' => c :: sub_from fuel' r repl (Some c) s'
          end
      end
  end.

Definition sub (r : regex) (repl s : list char) : list char :=
  sub_from (length s) r repl None s.

(** *** Building blocks of the patterns *)

Definition chr (c : char) : regex := Cls (char_eqb c).

(** A literal character under [re.IGNORECASE]. *)
Definition chr_i (c : char) : regex :=
  Cls (fun x => char_eqb (lower_char x) (lower_char c)).

Fixpoint lit (s : list char) : regex :=
  match s with
  | [] => Eps
  | [c] => chr c
  | c :: s' => Seq (chr c) (lit s')
  end.

Fixpoint lit_i (s : list char) : regex :=
  match s with
  | [] => Eps
  | [c] => chr_i c
  | c :: s' => Seq (chr_i c) (lit_i s')
  end.

Fixpoint seq (rs : list regex) : regex :=
  match rs with
  | [] => Eps
  | [r] => r
  | r :: rs' => Seq r (seq rs')
  end.

Fixpoint alt (rs : list regex) : regex :=
  match rs with
  | [] => Cls (fun _ => false)
  | [r] => r
  | r :: rs' => Alt r (alt rs')
  end.

(** [\d{n}], [\d{1,2}], [\s+], [.+?], [x?] *)
Definition digits (n : nat) : regex := Rep true n (Some n) is_decimal.
Definition digits_1_2 : regex := Rep true 1 (Some 2) is_decimal.
Definition spaces : regex := Rep true 1 None is_space.
Definition dot (c : char) : bool := negb (char_eqb c "010").
Definition lazy_any : regex := Rep false 1 None dot.
Definition opt (p : char -> bool) : regex := Rep true 0 (Some 1) p.
Definition range (a b : char) (c : char) : bool :=
  between (code a) (code b) c.

(** [\d{2}-\d{2}-\d{4}] and [\d{1,2}:\d{2}] *)
Definition date_token : regex :=
  seq [digits 2; chr "-"; digits 2; chr "-"; digits 4].
Definition time_token : regex :=
  seq [digits_1_2; chr ":"; digits 2].

End Re.

(** ** The fragment of [datetime] used by the program *)

Module Calendar.

Record datetime : Type := mk_datetime {
  year : Z;
  month : Z;
  day : Z;
  hour : Z;
  minute : Z;
  second : Z;
  microsecond : Z
}.

Definition MINYEAR : Z := 1.
Definition MAXYEAR : Z := 9999.

Definition is_leap (y : Z) : bool :=
  (y mod 4 =? 0)%Z && (negb (y mod 100 =? 0)%Z || (y mod 400 =? 0)%Z).

Definition days_in_month (y m : Z) : Z :=
  if (m =? 2)%Z then (if is_leap y then 29 else 28)
  else if (m =? 4)%Z || (m =? 6)%Z || (m =? 9)%Z || (m =? 11)%Z then 30
  else 31.

Definition valid_date (y m d : Z) : bool :=
  (MINYEAR <=? y)%Z && (y <=? MAXYEAR)%Z
  && (1 <=? m)%Z && (m <=? 12)%Z
  && (1 <=? d)%Z && (d <=? days_in_month y m)%Z.

Definition valid_time (h mi : Z) : bool :=
  (0 <=? h)%Z && (h <=? 23)%Z && (0 <=? mi)%Z && (mi <=? 59)%Z.

(** [datetime(year, month, day, hour, minute)].  Numbers too large for a
    C [int] raise [OverflowError] in the library; the program passes
    such numbers only inside the catch-all [try] of [get_next_time_slot],
    where the kind of the exception makes no difference. *)
Definition new (y m d h mi : Z) : py datetime :=
  if valid_date y m d && valid_time h mi
  then Ret (mk_datetime y m d h mi 0 0)
  else Raise ValueError.

(** Comparison of naive datetimes is the comparison of their fields,
    most significant first. *)
Fixpoint lex_ltb (a b : list Z) : bool :=
  match a, b with
  | x :: a', y :: b' => (x <? y)%Z || ((x =? y)%Z && lex_ltb a' b')
  | _, _ => false
  end.

Definition date_fields (t : datetime) : list Z := [year t; month t; day t].

Definition fields (t : datetime) : list Z :=
  [year t; month t; day t; hour t; minute t; second t; microsecond t].

(** [a < b] and [a <= b] *)
Definition ltb (a b : datetime) : bool := lex_ltb (fields a) (fields b).
Definition leb (a b : datetime) : bool := negb (ltb b a).

(** [a.date() < b.date()] *)
Definition date_ltb (a b : datetime) : bool :=
  lex_ltb (date_fields a) (date_fields b).

Definition with_date (t : datetime) (y m d : Z) : datetime :=
  mk_datetime y m d (hour t) (minute t) (second t) (microsecond t).

(** [t.replace(hour=h, minute=mi)] *)
Definition replace (t : datetime) (h mi : Z) : datetime :=
  mk_datetime (year t) (month t) (day t) h mi (second t) (microsecond t).

(** [t + timedelta(days=1)]; past the last day of year 9999 it raises
    [OverflowError]. *)
Definition plus_day (t : datetime) : py datetime :=
  if (day t <? days_in_month (year t) (month t))%Z
  then Ret (with_date t (year t) (month t) (day t + 1))
  else if (month t <? 12)%Z
  then Ret (with_date t (year t) (month t + 1) 1)
  else if (year t <? MAXYEAR)%Z
  then Ret (with_date t (year t + 1) 1 1)
  else Raise OverflowError.

(** [t + timedelta(minutes=n)] for [0 <= n <= 1440], which covers the
    increments of the program: half an hour and one hour. *)
Definition plus_minutes (t : datetime) (n : Z) : py datetime :=
  let total := (hour t * 60 + minute t + n)%Z in
  if (total <? 1440)%Z
  then Ret (replace t (total / 60) (total mod 60))
  else t' <- plus_day t ;;
       Ret (replace t' ((total - 1440) / 60) ((total - 1440) mod 60)).

(** [t.strftime('%d-%m-%Y')] and [t.strftime('%H:%M')], the year on four
    digits as the library documents it.  (For years below 1000 the C
    library of the platform decides whether [%Y] is padded; no date the
    validator accepts is that old.) *)
Definition strftime_date (t : datetime) : list char :=
  PyStr.pad2 (day t) ++ ["-"] ++ PyStr.pad2 (month t) ++ ["-"]
  ++ PyStr.pad4 (year t).

Definition strftime_time (t : datetime) : list char :=
  PyStr.pad2 (hour t) ++ [":"] ++ PyStr.pad2 (minute t).

(** [%B] in the C locale, for a month of a datetime. *)
Definition month_name (m : Z) : list char :=
  match m with
  | 1%Z => str "January"
  | 2%Z => str "February"
  | 3%Z => str "March"
  | 4%Z => str "April"
  | 5%Z => str "May"
  | 6%Z => str "June"
  | 7%Z => str "July"
  | 8%Z => str "August"
  | 9%Z => str "September"
  | 10%Z => str "October"
  | 11%Z => str "November"
  | _ => str "December"
  end.

(** [t.strftime('%d %B %Y')] *)
Definition strftime_long (t : datetime) : list char :=
  PyStr.pad2 (day t) ++ [" "] ++ month_name (month t) ++ [" "]
  ++ PyStr.pad4 (year t).

(** [datetime.strptime(f"{hour}:{minute}", "%H:%M")] for two [int]s: the
    text of the numbers is accepted exactly when the hour is one of 0..23
    and the minute one of 0..59; the date is the first day of 1900. *)
Definition strptime_hour_minute (h mi : Z) : py datetime :=
  if valid_time h mi then Ret (mk_datetime 1900 1 1 h mi 0 0)
  else Raise ValueError.

(** [%I]: the hour on the twelve-hour clock. *)
Definition hour12 (h : Z) : Z := if (h mod 12 =? 0)%Z then 12 else h mod 12.

(** [t.strftime('%I:%M %p')] in the C locale. *)
Definition strftime_12h (t : datetime) : list char :=
  PyStr.pad2 (hour12 (hour t)) ++ [":"] ++ PyStr.pad2 (minute t) ++ [" "]
  ++ (if (hour t <? 12)%Z then str "AM" else str "PM").

End Calendar.

(** ** [date_utils.py] *)

Module DateUtils.
Import PyStr Re.

(** [^(\d{2})-(\d{2})-(\d{4})$] *)
Definition date_format_pattern : regex :=
  seq [Bol; Grp 1 (digits 2); chr "-"; Grp 2 (digits 2); chr "-";
       Grp 3 (digits 4); Eol].

(** [^([01]?[0-9]|2[0-3]):([0-5][0-9])$] *)
Definition time_format_pattern : regex :=
  seq [Bol;
       Grp 1 (Alt (Seq (opt (range "0" "1")) (Cls (range "0" "9")))
                  (Seq (chr "2") (Cls (range "0" "3"))));
       chr ":";
       Grp 2 (Seq (Cls (range "0" "5")) (Cls (range "0" "9")));
       Eol].

(** [today] is the value of [datetime.now()] read by the function. *)
Definition is_valid_date_format (today : Calendar.datetime)
    (date_str : list char) : py bool :=
  match match_ date_format_pattern date_str with
  | None => Ret false
  | Some m =>
      '(day, month, year) <- unpack3_int [group 1 m; group 2 m; group 3 m] ;;
      match Calendar.new year month day 0 0 with
      | Ret date_obj =>
          if Calendar.date_ltb date_obj today then Ret false else Ret true
      | Raise ValueError => Ret false
      | Raise e => Raise e
      end
  end.

Definition is_valid_time_format (time_str : list char) : py bool :=
  match match_ time_format_pattern time_str with
  | None => Ret false
  | Some m =>
      '(hour, minute) <- unpack2_int [group 1 m; group 2 m] ;;
      if (hour <? 9)%Z || (17 <=? hour)%Z then Ret false
      else if negb ((minute =? 0)%Z || (minute =? 30)%Z) then Ret false
      else Ret true
  end.

(** [today] is the clock read by [is_valid_date_format], [now] the one
    read afterwards by this function. *)
Definition is_valid_date_time (today now : Calendar.datetime)
    (date_str time_str : list char) : py bool :=
  date_ok <- is_valid_date_format today date_str ;;
  time_ok <- (if date_ok then is_valid_time_format time_str else Ret true) ;;
  if negb date_ok || negb time_ok then Ret false
  else
    '(day, month, year) <- unpack3_int (split "-" date_str) ;;
    '(hour, minute) <- unpack2_int (split ":" time_str) ;;
    match
      (appointment_datetime <- Calendar.new year month day hour minute ;;
       limit <- Calendar.plus_minutes now 60 ;;
       if Calendar.leb appointment_datetime limit then Ret false
       else Ret true)
    with
    | Raise ValueError => Ret false
    | r => r
    end.

(** The body of the [try] of [get_next_time_slot]. *)
Definition next_time_slot (date_str time_str : list char)
  : py (list char * list char) :=
  '(day, month, year) <- unpack3_int (split "-" date_str) ;;
  '(hour, minute) <- unpack2_int (split ":" time_str) ;;
  current_time <- Calendar.new year month day hour minute ;;
  next_time <- Calendar.plus_minutes current_time 30 ;;
  next_time <- (if (17 <=? Calendar.hour next_time)%Z
                then next_day <- Calendar.plus_day next_time ;;
                     Ret (Calendar.replace next_day 9 0)
                else Ret next_time) ;;
  Ret (Calendar.strftime_date next_time, Calendar.strftime_time next_time).

Definition get_next_time_slot (date_str time_str : list char)
  : list char * list char :=
  match next_time_slot date_str time_str with
  | Ret r => r
  | Raise _ => (date_str, time_str)
  end.

Definition format_date_for_display (date_str : list char) : list char :=
  match
    ('(day, month, year) <- unpack3 (split "-" date_str) ;;
     y <- int year ;;
     m <- int month ;;
     d <- int day ;;
     date_obj <- Calendar.new y m d 0 0 ;;
     Ret (Calendar.strftime_long date_obj))
  with
  | Ret r => r
  | Raise _ => date_str
  end.

Definition format_time_for_display (time_str : list char) : list char :=
  match
    ('(hour, minute) <- unpack2_int (split ":" time_str) ;;
     time_obj <- Calendar.strptime_hour_minute hour minute ;;
     Ret (Calendar.strftime_12h time_obj))
  with
  | Ret r => r
  | Raise _ => time_str
  end.

(** The block [# Ensure time is in HH:MM format], which the program
    repeats after each of its three time patterns. *)
Definition ensure_hh_mm (time_str : list char) : py (list char) :=
  if (length (hd [] (split ":" time_str)) =? 1)%nat
  then '(hour, minute) <- unpack2 (split ":" time_str) ;;
       Ret (zfill 2 hour ++ [":"] ++ minute)
  else Ret time_str.

(** [^cancel\s+] *)
Definition cancel_prefix : regex := seq [Bol; lit (str "cancel"); spaces].

(** [(\d{2}-\d{2}-\d{4})\s+(\d{1,2}:\d{2})] *)
Definition cancel_date_time : regex :=
  seq [Grp 1 date_token; spaces; Grp 2 time_token].

(** [(\d{2}-\d{2}-\d{4})\s+at\s+(\d{1,2}:\d{2})] *)
Definition cancel_date_at_time : regex :=
  seq [Grp 1 date_token; spaces; lit (str "at"); spaces; Grp 2 time_token].

Definition cancel_patterns : list regex :=
  [cancel_date_time; cancel_date_at_time].

Fixpoint first_match (patterns : list regex) (message : list char)
  : py (option (list char) * option (list char)) :=
  match patterns with
  | [] => Ret (None, None)
  | pattern :: patterns' =>
      match search pattern message with
      | Some m =>
          time_str <- ensure_hh_mm (group 2 m) ;;
          Ret (Some (group 1 m), Some time_str)
      | None => first_match patterns' message
      end
  end.

Definition parse_cancel_message (message : list char)
  : py (option (list char) * option (list char)) :=
  let message := sub cancel_prefix [] (strip (lower message)) in
  first_match cancel_patterns message.

End DateUtils.

(** ** [models.py] *)

Module Models.
Import PyStr.

Inductive status_t : Type :=
| confirmed
| cancelled.

Definition status_eqb (a b : status_t) : bool :=
  match a, b with
  | confirmed, confirmed => true
  | cancelled, cancelled => true
  | _, _ => false
  end.

Record Appointment : Type := mk_appointment {
  id : Z;
  name : list char;
  phone_number : list char;
  date : list char;
  time : list char;
  status : status_t;
  created_at : Calendar.datetime
}.

(** The rows of the table [appointments], oldest first. *)
Definition table : Type := list Appointment.

Fixpoint text_eqb (a b : list char) : bool :=
  match a, b with
  | [], [] => true
  | x :: a', y :: b' => char_eqb x y && text_eqb a' b'
  | _, _ => false
  end.

(** The order of a text column: character by character, by code. *)
Fixpoint text_ltb (a b : list char) : bool :=
  match a, b with
  | _, [] => false
  | [], _ :: _ => true
  | x :: a', y :: b' =>
      (code x <? code y)%nat || (char_eqb x y && text_ltb a' b')
  end.

(** [query.first()] *)
Definition first (rows : table) : option Appointment := hd_error rows.

Definition is_slot_available (db : table) (date_ time_ : list char)
    (exclude_id : option Z) : bool :=
  let query :=
    filter (fun a => text_eqb (date a) date_ && text_eqb (time a) time_
                     && status_eqb (status a) confirmed) db in
  let query :=
    match exclude_id with
    | Some i =>
        if (i =? 0)%Z then query
        else filter (fun a => negb (id a =? i)%Z) query
    | None => query
    end in
  match first query with
  | None => true
  | Some _ => false
  end.

(** [ORDER BY date, time]: [a] goes before [b]. *)
Definition order_leb (a b : Appointment) : bool :=
  text_ltb (date a) (date b)
  || (text_eqb (date a) (date b) && negb (text_ltb (time b) (time a))).

Fixpoint insert_sorted (a : Appointment) (rows : table) : table :=
  match rows with
  | [] => [a]
  | b :: rows' =>
      if order_leb a b then a :: rows else b :: insert_sorted a rows'
  end.

(** [query.order_by(Appointment.date, Appointment.time)]; rows with the
    same date and time keep their order in the table. *)
Definition order_by_date_time (rows : table) : table :=
  fold_right insert_sorted [] rows.

Definition get_user_appointments (db : table) (phone : list char) : table :=
  order_by_date_time
    (filter (fun a => text_eqb (phone_number a) phone
                      && status_eqb (status a) confirmed) db).

(** [f"{hour:02d}:00"] *)
Definition check_time (hour : Z) : list char := pad2 hour ++ str ":00".

(** The inner loop [for hour in range(9, 17)] over the hours left. *)
Fixpoint scan_hours (db : table) (current_date : list char)
    (hours : list Z) : option (list char * list char) :=
  match hours with
  | [] => None
  | hour :: hours' =>
      if is_slot_available db current_date (check_time hour) None
      then Some (current_date, check_time hour)
      else scan_hours db current_date hours'
  end.

Definition business_hours : list Z := [9; 10; 11; 12; 13; 14; 15; 16]%Z.

(** The outer loop [for day_offset in range(7)] with [days] rounds left. *)
Fixpoint scan_days (db : table) (current_date : list char) (days : nat)
  : option (list char) * option (list char) :=
  match days with
  | O => (None, None)
  | S days' =>
      match scan_hours db current_date business_hours with
      | Some (d, t) => (Some d, Some t)
      | None =>
          scan_days db
            (fst (DateUtils.get_next_time_slot current_date (str "00:00")))
            days'
      end
  end.

Definition find_next_available_slot (db : table)
    (preferred_date preferred_time : list char)
  : option (list char) * option (list char) :=
  scan_days db preferred_date 7.

End Models.

(** ** [bot_handler.py] *)

Module BotHandler.
Import PyStr Re Models.

(** [book\s+(.+?)\s+(\d{2}-\d{2}-\d{4})\s+(\d{1,2}:\d{2})], ignoring case *)
Definition pattern1 : regex :=
  seq [lit_i (str "book"); spaces; Grp 1 lazy_any; spaces;
       Grp 2 date_token; spaces; Grp 3 time_token].

Definition date_pattern : regex := Grp 1 date_token.
Definition time_pattern : regex := Grp 1 time_token.

Definition booking_words : list string :=
  ["book"; "appointment"; "for"; "my name is"; "i am"; "i'm"; "want to";
   "need"; "on"; "at"]%string.

(** [\b(book|appointment|for|my name is|i am|i\'m|want to|need|on|at)\b],
    ignoring case *)
Definition booking_words_pattern : regex :=
  seq [WordB; Grp 1 (alt (map (fun w => lit_i (str w)) booking_words));
       WordB].

(** Truth value of a text or [None]. *)
Definition truthy (o : option (list char)) : bool :=
  match o with
  | Some (_ :: _) => true
  | _ => false
  end.

Definition details : Type :=
  (option (list char) * option (list char) * option (list char))%type.

Definition extract_booking_details (message : list char) : py details :=
  let message := strip message in
  match search pattern1 message with
  | Some m =>
      let name := strip (group 1 m) in
      let date := group 2 m in
      time <- DateUtils.ensure_hh_mm (group 3 m) ;;
      Ret (Some name, Some date, Some time)
  | None =>
      match search date_pattern message, search time_pattern message with
      | Some date_match, Some time_match =>
          let date := group 1 date_match in
          time <- DateUtils.ensure_hh_mm (group 1 time_match) ;;
          let message_before_date :=
            strip (firstn (m_start date_match) message) in
          let name_text := sub booking_words_pattern [] message_before_date in
          let name := strip (sub spaces [" "] name_text) in
          if (1 <? length name)%nat
          then Ret (Some name, Some date, Some time)
          else Ret (None, None, None)
      | _, _ => Ret (None, None, None)
      end
  end.

(** The values the clock returns to one request, in the order of the
    reads: in [is_valid_date_format], in [is_valid_date_time], and the
    [utcnow] default of [created_at]. *)
Record clock : Type := mk_clock {
  today : Calendar.datetime;
  now : Calendar.datetime;
  utcnow : Calendar.datetime
}.

(** What a reply tells; the wording of the messages is left out. *)
Inductive response : Type :=
| BookingHelp
| InvalidDateTime (name : list char)
| SlotTaken (name date time next_date next_time : list char)
| NoSlotInNext7Days (name date time : list char)
| BookingConfirmed (appointment : Appointment)
| NoAppointments
| AppointmentList (appointments : table)
| CancelHelp
| NoConfirmedAppointment (date time : list char)
| AppointmentCancelled (appointment : Appointment)
| HelpMenu
| Greeting.

Definition text_of (o : option (list char)) : list char :=
  match o with
  | Some t => t
  | None => []
  end.

(** The primary key given to a new row: one more than the largest. *)
Definition next_id (db : table) : Z :=
  fold_right (fun a m => Z.max (id a) m) 0%Z db + 1.

Definition handle_appointment_booking (clk : clock) (db : table)
    (message phone : list char) : py (response * table) :=
  '(name, date, time) <- extract_booking_details message ;;
  if negb (truthy name) || negb (truthy date) || negb (truthy time)
  then Ret (BookingHelp, db)
  else
    let name := text_of name in
    let date := text_of date in
    let time := text_of time in
    valid <- DateUtils.is_valid_date_time (today clk) (now clk) date time ;;
    if negb valid then Ret (InvalidDateTime name, db)
    else if negb (is_slot_available db date time None) then
      let '(next_date, next_time) := find_next_available_slot db date time in
      if truthy next_date && truthy next_time
      then Ret (SlotTaken name date time (text_of next_date)
                          (text_of next_time), db)
      else Ret (NoSlotInNext7Days name date time, db)
    else
      let appointment :=
        mk_appointment (next_id db) name phone date time confirmed
                       (utcnow clk) in
      Ret (BookingConfirmed appointment, db ++ [appointment]).

Definition handle_view_appointments (db : table) (phone : list char)
  : response :=
  match get_user_appointments db phone with
  | [] => NoAppointments
  | appointments => AppointmentList appointments
  end.

Definition set_status (s : status_t) (a : Appointment) : Appointment :=
  mk_appointment (id a) (name a) (phone_number a) (date a) (time a) s
                 (created_at a).

(** [appointment.status = 'cancelled'] and the commit: the row with the
    primary key of [appointment] is updated. *)
Definition mark_cancelled (db : table) (appointment : Appointment) : table :=
  map (fun a => if (id a =? id appointment)%Z then set_status cancelled a
                else a) db.

Definition handle_cancel_appointment (db : table)
    (message phone : list char) : py (response * table) :=
  '(date, time) <- DateUtils.parse_cancel_message message ;;
  if negb (truthy date) || negb (truthy time) then Ret (CancelHelp, db)
  else
    let date := text_of date in
    let time := text_of time in
    match first (filter (fun a => text_eqb (phone_number a) phone
                                  && text_eqb (Models.date a) date
                                  && text_eqb (Models.time a) time
                                  && status_eqb (status a) confirmed) db) with
    | None => Ret (NoConfirmedAppointment date time, db)
    | Some appointment =>
        Ret (AppointmentCancelled (set_status cancelled appointment),
             mark_cancelled db appointment)
    end.

Definition is_in (x : list char) (l : list string) : bool :=
  existsb (fun w => text_eqb x (str w)) l.

Definition handle_whatsapp_message (clk : clock) (db : table)
    (message phone : list char) : py (response * table) :=
  let message := strip message in
  let message_lower := lower message in
  if is_in message_lower
       ["my appointments"; "appointments"; "my bookings";
        "view appointments"]%string
  then Ret (handle_view_appointments db phone, db)
  else if starts_with (str "cancel") message_lower
  then handle_cancel_appointment db message phone
  else if contains (str "book") message_lower
          || existsb (fun keyword => contains (str keyword) message_lower)
               ["appointment"; "schedule"; "meeting"]%string
  then handle_appointment_booking clk db message phone
  else if is_in message_lower ["help"; "menu"; "commands"]%string
  then Ret (HelpMenu, db)
  else Ret (Greeting, db).

End BotHandler.


(** ** The webhook of [app.py] and the three operations *)

Module App.
Import PyStr Models BotHandler.

(** The reply of the webhook: what the handler says, or the apology sent
    when the handler raised. *)
Inductive reply : Type :=
| Reply (r : response)
| Trouble.

(** The [try]/[except Exception] of [webhook].  A handler that raises
    has written nothing. *)
Definition settle (db : table) (r : py (response * table))
  : reply * table :=
  match r with
  | Ret (x, db') => (Reply x, db')
  | Raise _ => (Trouble, db)
  end.

Definition webhook (clk : clock) (db : table)
    (incoming_msg from_number : list char) : reply * table :=
  settle db (handle_whatsapp_message clk db (strip incoming_msg) from_number).

(** A request for one of the three operations. *)
Inductive request : Type :=
| Book (clk : clock) (message phone : list char)
| Cancel (message phone : list char)
| ListAppointments (phone : list char).

Definition process (db : table) (req : request) : reply * table :=
  match req with
  | Book clk message phone =>
      settle db (handle_appointment_booking clk db message phone)
  | Cancel message phone =>
      settle db (handle_cancel_appointment db message phone)
  | ListAppointments phone => (Reply (handle_view_appointments db phone), db)
  end.

(** The table after the requests were processed one after the other. *)
Fixpoint replay (reqs : list request) (db : table) : table :=
  match reqs with
  | [] => db
  | req :: reqs' => replay reqs' (snd (process db req))
  end.

(** A confirmed appointment that holds the slot of a date and time: the
    filter of [is_slot_available]. *)
Definition occupies (date_ time_ : list char) (a : Appointment) : bool :=
  text_eqb (date a) date_ && text_eqb (time a) time_
  && status_eqb (status a) confirmed.

(** Slot exclusivity: no date and time has two confirmed appointments. *)
Definition slot_exclusive (db : table) : Prop :=
  forall date_ time_,
    (length (filter (occupies date_ time_) db) <= 1)%nat.

(** An appointment and a later state of it: every column but the status
    is the same, and the status is the same or went from confirmed to
    cancelled. *)
Definition evolves (a a' : Appointment) : Prop :=
  id a' = id a /\ name a' = name a /\ phone_number a' = phone_number a
  /\ date a' = date a /\ time a' = time a /\ created_at a' = created_at a
  /\ (status a' = status a
      \/ (status a = confirmed /\ status a' = cancelled)).

(** The primary key identifies a row. *)
Definition keyed (db : table) : Prop := NoDup (map id db).

End App.

(** ** Vocabulary of the statements *)

Module Vocabulary.
Import PyStr Re Calendar DateUtils Models BotHandler App.

(** The character before the position reached after the text [t], when
    [pv] was the character before [t]. *)
Definition last_of (t : list char) (pv : option char) : option char :=
  match rev t with
  | c :: _ => Some c
  | [] => pv
  end.

(** [matches r st t st']: from [st] the expression [r] consumes the text
    [t] and leaves the state [st']. *)
Fixpoint matches (r : regex) (st : state) (t : list char) (st' : state)
  : Prop :=
  match r with
  | Eps => t = [] /\ st' = st
  | Cls p =>
      exists c, p c = true /\ t = [c]
                /\ st' = mk_state (Some c) (tl (rest st)) (groups st)
                /\ rest st = c :: tl (rest st)
  | Seq r1 r2 =>
      exists t1 st1 t2,
        matches r1 st t1 st1 /\ matches r2 st1 t2 st' /\ t = t1 ++ t2
  | Alt r1 r2 => matches r1 st t st' \/ matches r2 st t st'
  | Rep _ lo hi p =>
      forallb p t = true /\ (lo <= length t)%nat
      /\ (forall h, hi = Some h -> (length t <= h)%nat)
      /\ exists s', rest st = t ++ s'
                    /\ st' = mk_state (last_of t (prev st)) s' (groups st)
  | Grp n r1 => exists st1, matches r1 st t st1 /\ st' = set_group n t st1
  | Bol => t = [] /\ st' = st /\ prev st = None
  | Eol => t = [] /\ st' = st /\ (rest st = [] \/ rest st = ["010"])
  | WordB =>
      t = [] /\ st' = st
      /\ xorb (is_word_opt (prev st)) (is_word_opt (hd_error (rest st)))
         = true
  end.

(** A text of decimal digits. *)
Definition all_decimal (t : list char) : Prop := forallb is_decimal t = true.

(** [DD-MM-YYYY] *)
Definition date_shape (t : list char) : Prop :=
  exists dd mm yyyy,
    t = dd ++ "-" :: mm ++ "-" :: yyyy
    /\ all_decimal dd /\ length dd = 2%nat
    /\ all_decimal mm /\ length mm = 2%nat
    /\ all_decimal yyyy /\ length yyyy = 4%nat.

(** [H:MM] or [HH:MM] *)
Definition time_shape (t : list char) : Prop :=
  exists hh mm,
    t = hh ++ ":" :: mm
    /\ all_decimal hh /\ (1 <= length hh <= 2)%nat
    /\ all_decimal mm /\ length mm = 2%nat.

(** [HH:MM] *)
Definition hh_mm_shape (t : list char) : Prop :=
  exists hh mm,
    t = hh ++ ":" :: mm
    /\ all_decimal hh /\ length hh = 2%nat
    /\ all_decimal mm /\ length mm = 2%nat.

(** The number a text of decimal digits denotes. *)
Definition decimal_value (t : list char) : Z :=
  fold_left (fun acc c => (10 * acc + digit_value c)%Z) t 0%Z.

(** The text of a date in the form the validator accepts. *)
Definition date_text (a b c d e f g h : char) : list char :=
  [a; b; "-"; c; d; "-"; e; f; g; h].

(** Nothing, or one line feed: what [$] lets follow a match. *)
Definition line_end (nl : list char) : Prop := nl = [] \/ nl = ["010"].

(** The hour of a time token on two digits. *)
Definition two_digits (hh : list char) : list char :=
  repeat "0" (2 - length hh) ++ hh.

(** A scanner for a digit, then white space, then a digit.  The state
    is 1 after a digit, 2 in white space that follows a digit, and 0
    otherwise. *)
Fixpoint has_gap (st : nat) (s : list char) : bool :=
  match s with
  | [] => false
  | c :: s' =>
      if is_decimal c then (st =? 2)%nat || has_gap 1 s'
      else if is_space c then has_gap (if (st =? 0)%nat then 0 else 2)%nat s'
      else has_gap 0 s'
  end.

(** The contact a request comes from. *)
Definition contact_of (req : request) : list char :=
  match req with
  | Book _ _ phone => phone
  | Cancel _ phone => phone
  | ListAppointments phone => phone
  end.

(** One of the digits 0..9: the class [[0-9]]. *)
Definition ascii_digit (c : char) : bool := range "0" "9" c.

Definition ascii_digits (t : list char) : Prop :=
  forallb ascii_digit t = true.

(** A text without decimal digit. *)
Definition no_digit (t : list char) : Prop :=
  forallb (fun c => negb (is_decimal c)) t = true.

(** White space, at least one character of it. *)
Definition blank (w : list char) : Prop :=
  forallb is_space w = true /\ w <> [].

(** What the cancel patterns allow between the date and the time:
    white space, or white space, "at" in any case and white space. *)
Definition date_time_gap (w : list char) : Prop :=
  blank w
  \/ exists w1 at_ w2,
       w = w1 ++ at_ ++ w2 /\ blank w1 /\ lower at_ = str "at" /\ blank w2.

Definition digit_of (n : Z) : digit :=
  match n with
  | 0 => D0 | 1 => D1 | 2 => D2 | 3 => D3 | 4 => D4
  | 5 => D5 | 6 => D6 | 7 => D7 | 8 => D8 | _ => D9
  end%Z.

(** The text with its digits 0..9 written in the digits of a block. *)
Definition in_script (block : N) (t : list char) : list char :=
  map (fun c => if ascii_digit c then Digit block (digit_of (digit_value c))
                else c) t.

End Vocabulary.

(** * Properties *)

Import PyStr Re Calendar DateUtils Models BotHandler App Vocabulary.

(** ** Characters *)

Ltac each_char c := destruct c as [[[] [] [] [] [] [] [] []] | ? []].

Lemma digit_eqb_eq (x y : digit) : digit_eqb x y = true <-> x = y.
Proof. destruct x, y; vm_compute; split; congruence. Qed.

Lemma char_eqb_eq (x y : char) : char_eqb x y = true <-> x = y.
Proof.
  destruct x as [a | s v], y as [b | s' v']; simpl.
  - rewrite Ascii.eqb_eq. split; congruence.
  - split; discriminate.
  - split; discriminate.
  - rewrite andb_true_iff, N.eqb_eq, digit_eqb_eq. split.
    + intros [-> ->]. reflexivity.
    + intros E. inversion E. auto.
Qed.

Lemma char_eqb_refl (x : char) : char_eqb x x = true.
Proof. apply char_eqb_eq. reflexivity. Qed.

Lemma char_eqb_sym (x y : char) : char_eqb x y = char_eqb y x.
Proof.
  destruct (char_eqb x y) eqn:E, (char_eqb y x) eqn:F; auto.
  - apply char_eqb_eq in E. subst. rewrite char_eqb_refl in F. discriminate.
  - apply char_eqb_eq in F. subst. rewrite char_eqb_refl in E. discriminate.
Qed.

Lemma decimal_facts (c : char) :
  is_decimal c = true ->
  is_space c = false /\ is_int_space c = false /\ dot c = true
  /\ lower_char c = c /\ is_word c = true
  /\ char_eqb c "-" = false /\ char_eqb c ":" = false
  /\ char_eqb c "_" = false /\ char_eqb c "+" = false
  /\ (0 <= digit_value c <= 9)%Z.
Proof.
  each_char c; vm_compute; intro H; try discriminate H;
    repeat split; discriminate.
Qed.

(** The digits 0..9 are decimal digits, and the ones a number is
    written with. *)
Lemma ascii_digit_facts (c : char) :
  ascii_digit c = true ->
  is_decimal c = true /\ digit_char (digit_value c) = c.
Proof.
  each_char c; vm_compute; intro H; try discriminate H; split; reflexivity.
Qed.

Lemma ascii_digits_decimal (t : list char) : ascii_digits t -> all_decimal t.
Proof.
  unfold ascii_digits, all_decimal. induction t as [|c t IH]; simpl; auto.
  rewrite !andb_true_iff. intros (Hc & H).
  split; [apply ascii_digit_facts; exact Hc | auto].
Qed.

Lemma decimal_digit (c : char) :
  ascii_digit c = true ->
  (0 <= digit_value c <= 9)%Z /\ digit_char (digit_value c) = c.
Proof.
  intros H. destruct (ascii_digit_facts c H) as (D & R).
  apply decimal_facts in D. tauto.
Qed.

Lemma digit_char_decimal (n : Z) :
  (0 <= n <= 9)%Z ->
  is_decimal (digit_char n) = true /\ digit_value (digit_char n) = n.
Proof.
  intros H.
  assert (K : (Z.to_nat n < 10)%nat) by lia.
  rewrite <- (Z2Nat.id n) by lia.
  generalize dependent (Z.to_nat n). clear H. intros k K.
  do 10 (destruct k as [|k]; [split; reflexivity|]).
  lia.
Qed.

Lemma text_eqb_eq (a b : list char) : text_eqb a b = true <-> a = b.
Proof.
  revert b; induction a as [|x a IH]; intros [|y b]; simpl;
    try (split; [discriminate | discriminate]); try tauto.
  rewrite andb_true_iff, char_eqb_eq, IH.
  split; [intros [-> ->]; reflexivity | intros E; inversion E; auto].
Qed.

Lemma text_eqb_refl (a : list char) : text_eqb a a = true.
Proof. apply text_eqb_eq; reflexivity. Qed.

Lemma status_eqb_eq (a b : status_t) : status_eqb a b = true <-> a = b.
Proof. destruct a, b; simpl; split; congruence. Qed.

(** ** The matcher is sound for a relational reading of the expressions *)

Lemma last_of_snoc (t : list char) (c : char) (pv : option char) :
  last_of (t ++ [c]) pv = Some c.
Proof. unfold last_of; rewrite rev_app_distr; reflexivity. Qed.

Lemma rep_sound {A : Type} (g : bool) (p : char -> bool) (s : list char) :
  forall lo hi taken pv
         (k : list char -> option char -> list char -> option A) x,
    rep g p lo hi taken pv s k = Some x ->
    exists t s',
      s = t ++ s' /\ forallb p t = true /\ (lo <= length t)%nat
      /\ (forall h, hi = Some h -> (length t <= h)%nat)
      /\ k (rev taken ++ t) (last_of t pv) s' = Some x.
Proof.
  induction s as [|c s IH]; intros lo hi taken pv k x H.
  - simpl in H. destruct lo; [|discriminate].
    exists [], []. simpl. rewrite !app_nil_r.
    repeat split; auto; intros; lia.
  - assert (Stop : forall y,
               match lo with O => k (rev taken) pv (c :: s) | S _ => None end
               = Some y ->
               exists t s', c :: s = t ++ s' /\ forallb p t = true
                 /\ (lo <= length t)%nat
                 /\ (forall h, hi = Some h -> (length t <= h)%nat)
                 /\ k (rev taken ++ t) (last_of t pv) s' = Some y).
    { intros y Hy. destruct lo; [|discriminate].
      exists [], (c :: s). simpl. rewrite !app_nil_r.
      repeat split; auto; intros; lia. }
    assert (More : forall y,
               (if p c && room hi
                then rep g p (pred lo) (less hi) (c :: taken) (Some c) s k
                else None) = Some y ->
               exists t s', c :: s = t ++ s' /\ forallb p t = true
                 /\ (lo <= length t)%nat
                 /\ (forall h, hi = Some h -> (length t <= h)%nat)
                 /\ k (rev taken ++ t) (last_of t pv) s' = Some y).
    { intros y Hy.
      destruct (p c) eqn:Pc; [|discriminate].
      destruct (room hi) eqn:Rm; [|discriminate]. simpl in Hy.
      apply IH in Hy. destruct Hy as (t & s' & -> & Ft & Lo & Hi & K).
      exists (c :: t), s'. simpl. rewrite Pc, Ft.
      repeat split; auto.
      - lia.
      - intros h ->. destruct h; [discriminate|].
        specialize (Hi h eq_refl). lia.
      - simpl in K. rewrite <- app_assoc in K. simpl in K.
        replace (last_of (c :: t) pv) with (last_of t (Some c)); auto.
        unfold last_of. simpl.
        destruct (rev t) eqn:E; simpl; auto. }
    simpl in H. destruct g.
    + destruct (if p c && room hi then _ else None) eqn:E.
      * inversion H; subst. apply More; reflexivity.
      * apply Stop; exact H.
    + destruct (match lo with O => _ | S _ => None end) eqn:E.
      * inversion H; subst. apply Stop; reflexivity.
      * apply More; exact H.
Qed.

Lemma run_sound {A : Type} (r : regex) :
  forall st (k : list char -> state -> option A) x,
    run r st k = Some x ->
    exists t st', matches r st t st' /\ k t st' = Some x.
Proof.
  induction r; intros st k x H; simpl in H.
  - exists [], st; simpl; auto.
  - destruct (rest st) as [|c s'] eqn:E; [discriminate|].
    destruct (p c) eqn:Pc; [|discriminate].
    exists [c], (mk_state (Some c) s' (groups st)). split; auto.
    simpl. exists c. rewrite E. simpl. auto.
  - apply IHr1 in H. destruct H as (t1 & st1 & M1 & H).
    apply IHr2 in H. destruct H as (t2 & st2 & M2 & H).
    exists (t1 ++ t2), st2. split; auto.
    simpl. exists t1, st1, t2. auto.
  - destruct (run r1 st k) eqn:E.
    + inversion H; subst. apply IHr1 in E.
      destruct E as (t & st' & M & K). exists t, st'. simpl; auto.
    + apply IHr2 in H.
      destruct H as (t & st' & M & K). exists t, st'. simpl; auto.
  - apply rep_sound in H. destruct H as (t & s' & E & Ft & Lo & Hi & K).
    simpl in K.
    exists t, (mk_state (last_of t (prev st)) s' (groups st)).
    split; auto. simpl. repeat split; auto. exists s'; auto.
  - apply IHr in H. destruct H as (t & st1 & M & K).
    exists t, (set_group n t st1). split; auto. simpl. exists st1; auto.
  - destruct (prev st) eqn:E; [discriminate|].
    exists [], st. simpl; auto.
  - exists [], st. simpl.
    destruct (rest st) as [|c [|c' s']] eqn:E; try discriminate.
    + auto.
    + destruct (char_eqb c "010") eqn:Ec; [|discriminate].
      apply char_eqb_eq in Ec. subst c. auto.
  - destruct (xorb _ _) eqn:E; [|discriminate].
    exists [], st. simpl; auto.
Qed.

(** A match consumes its text from the front of what was left. *)
Lemma matches_rest (r : regex) :
  forall st t st', matches r st t st' -> rest st = t ++ rest st'.
Proof.
  induction r; simpl; intros st t st' M.
  - destruct M as [-> ->]; reflexivity.
  - destruct M as (c & _ & -> & -> & E). simpl. exact E.
  - destruct M as (t1 & st1 & t2 & M1 & M2 & ->).
    rewrite (IHr1 _ _ _ M1), (IHr2 _ _ _ M2), app_assoc. reflexivity.
  - destruct M as [M | M]; auto.
  - destruct M as (_ & _ & _ & s' & E & ->). simpl. exact E.
  - destruct M as (st1 & M & ->). simpl. apply IHr; exact M.
  - destruct M as (-> & -> & _); reflexivity.
  - destruct M as (-> & -> & _); reflexivity.
  - destruct M as (-> & -> & _); reflexivity.
Qed.

Lemma match_at_sound (r : regex) (off : nat) (pv : option char)
    (s : list char) (m : match_obj) :
  match_at r off pv s = Some m ->
  exists st',
    matches r (mk_state pv s []) (m_text m) st'
    /\ m_groups m = groups st' /\ m_after m = rest st'
    /\ m_prev m = prev st' /\ m_start m = off
    /\ s = m_text m ++ m_after m.
Proof.
  unfold match_at. intros H. apply run_sound in H.
  destruct H as (t & st' & M & K). inversion K; subst; simpl.
  exists st'. repeat split; auto.
  apply matches_rest in M. exact M.
Qed.

Lemma search_from_sound (r : regex) (s : list char) :
  forall off pv m,
    search_from r off pv s = Some m ->
    exists pre pv' st',
      s = pre ++ m_text m ++ m_after m
      /\ m_start m = (off + length pre)%nat
      /\ matches r (mk_state pv' (m_text m ++ m_after m) []) (m_text m) st'
      /\ m_groups m = groups st'.
Proof.
  induction s as [|c s IH]; intros off pv m H; simpl in H.
  - destruct (match_at r off pv []) eqn:E; [|discriminate].
    inversion H; subst. apply match_at_sound in E.
    destruct E as (st' & M & G & _ & _ & S0 & E).
    exists [], pv, st'. simpl. rewrite <- E, Nat.add_0_r. auto.
  - destruct (match_at r off pv (c :: s)) eqn:E.
    + inversion H; subst. apply match_at_sound in E.
      destruct E as (st' & M & G & _ & _ & S0 & E).
      exists [], pv, st'. simpl. rewrite <- E, Nat.add_0_r. auto.
    + apply IH in H. destruct H as (pre & pv' & st' & E1 & E2 & M & G).
      exists (c :: pre), pv', st'. simpl. rewrite E1 at 1.
      repeat split; auto. lia.
Qed.

Lemma search_sound (r : regex) (s : list char) (m : match_obj) :
  search r s = Some m ->
  exists pre pv st',
    s = pre ++ m_text m ++ m_after m
    /\ m_start m = length pre
    /\ matches r (mk_state pv (m_text m ++ m_after m) []) (m_text m) st'
    /\ m_groups m = groups st'.
Proof. intros H. apply search_from_sound in H. exact H. Qed.

(** ** The rounds of [re.sub]

    [sub] runs [length s] rounds.  No larger number of rounds gives
    another result: every round consumes a character, so the text is
    used up when the rounds are. *)

Lemma sub_from_fuel (r : regex) (repl : list char) (fuel1 : nat) :
  forall fuel2 pv s,
    (length s <= fuel1)%nat -> (length s <= fuel2)%nat ->
    sub_from fuel1 r repl pv s = sub_from fuel2 r repl pv s.
Proof.
  assert (Nil : forall fuel pv, sub_from fuel r repl pv [] = []).
  { intros [|fuel] pv; cbn [sub_from]; auto.
    destruct (match_at r 0 pv []) as [[m0 mt mg mp ma]|] eqn:E; auto.
    apply match_at_sound in E. destruct E as (_ & _ & _ & _ & _ & _ & E).
    cbn [m_text m_after] in E.
    destruct mt; [reflexivity | discriminate]. }
  induction fuel1 as [|f1 IH]; intros fuel2 pv s L1 L2.
  - destruct s; [|simpl in L1; lia]. rewrite !Nil. reflexivity.
  - destruct fuel2 as [|f2].
    { destruct s; [|simpl in L2; lia]. rewrite !Nil. reflexivity. }
    cbn [sub_from].
    destruct (match_at r 0 pv s) as [[m0 mt mg mp ma]|] eqn:E.
    + apply match_at_sound in E. destruct E as (_ & _ & _ & _ & _ & _ & E).
      cbn [m_text m_after] in E.
      destruct mt as [|c mt].
      * destruct s as [|c s]; auto.
        simpl in L1, L2. rewrite (IH f2) by lia. reflexivity.
      * subst s. rewrite length_app in L1, L2. simpl in L1, L2.
        rewrite (IH f2) by lia. reflexivity.
    + destruct s as [|c s]; auto.
      simpl in L1, L2. rewrite (IH f2) by lia. reflexivity.
Qed.

Lemma sub_fuel_enough (r : regex) (repl s : list char) (extra : nat) :
  sub_from (length s + extra) r repl None s = sub r repl s.
Proof. unfold sub. apply sub_from_fuel; lia. Qed.

(** ** The shape of the date and time tokens *)

Lemma matches_chr (c : char) (st : state) (t : list char) (st' : state) :
  matches (chr c) st t st' -> t = [c] /\ groups st' = groups st.
Proof.
  simpl. intros (x & E & -> & -> & _). apply char_eqb_eq in E.
  subst; auto.
Qed.

(** Inversion of a match of a repetition and of a literal character. *)
Ltac rep_inv M :=
  let F := fresh "F" in
  let L := fresh "L" in
  let U := fresh "U" in
  let s := fresh "s" in
  destruct M as (F & L & U & s & _ & ->);
  try specialize (U _ eq_refl); cbn [groups] in *.

Ltac chr_inv M :=
  let x := fresh "x" in
  let E := fresh "E" in
  destruct M as (x & E & -> & -> & _);
  apply char_eqb_eq in E; subst x; cbn [groups] in *.

Lemma matches_date_token (st : state) (t : list char) (st' : state) :
  matches date_token st t st' -> date_shape t /\ groups st' = groups st.
Proof.
  unfold date_token, digits. cbn [seq matches chr].
  intros (t1 & st1 & t2 & M1 & (t3 & st2 & t4 & M2
          & (t5 & st3 & t6 & M3 & (t7 & st4 & t8 & M4 & M5 & ->) & ->)
          & ->) & ->).
  rep_inv M1. chr_inv M2. rep_inv M3. chr_inv M4. rep_inv M5.
  split; [|congruence].
  exists t1, t5, t8. simpl.
  repeat split; auto; lia.
Qed.

Lemma matches_time_token (st : state) (t : list char) (st' : state) :
  matches time_token st t st' -> time_shape t /\ groups st' = groups st.
Proof.
  unfold time_token, digits, digits_1_2. cbn [seq matches chr].
  intros (t1 & st1 & t2 & M1 & (t3 & st2 & t4 & M2 & M3 & ->) & ->).
  rep_inv M1. chr_inv M2. rep_inv M3.
  split; [|congruence].
  exists t1, t4. simpl.
  repeat split; auto; lia.
Qed.

(** ** [split] and the block [ensure_hh_mm] *)

Lemma split_decimal (sep : char) (t : list char) :
  is_decimal sep = false -> all_decimal t -> split sep t = [t].
Proof.
  intros Hs. unfold all_decimal. induction t as [|c t IH]; simpl; auto.
  rewrite andb_true_iff. intros [Hc Ht].
  destruct (char_eqb c sep) eqn:E.
  - apply char_eqb_eq in E. congruence.
  - rewrite (IH Ht). reflexivity.
Qed.

Lemma split_decimal_app (sep : char) (a b : list char) :
  is_decimal sep = false -> all_decimal a ->
  split sep (a ++ sep :: b) = a :: split sep b.
Proof.
  intros Hs. unfold all_decimal. induction a as [|c a IH]; simpl.
  - rewrite char_eqb_refl. reflexivity.
  - rewrite andb_true_iff. intros [Hc Ha].
    destruct (char_eqb c sep) eqn:E.
    + apply char_eqb_eq in E. congruence.
    + rewrite (IH Ha). reflexivity.
Qed.

Lemma ensure_hh_mm_time (t : list char) :
  time_shape t ->
  exists t', ensure_hh_mm t = Ret t' /\ hh_mm_shape t'
             /\ (forall h mm, t = h :: ":" :: mm -> t' = "0" :: t)
             /\ (forall h1 h2 mm, t = h1 :: h2 :: ":" :: mm -> t' = t).
Proof.
  intros (hh & mm & -> & Fh & Lh & Fm & Lm).
  unfold ensure_hh_mm.
  rewrite (split_decimal_app ":" hh mm eq_refl Fh).
  rewrite (split_decimal ":" mm eq_refl Fm). simpl hd.
  destruct hh as [|h1 [|h2 [|h3 hh]]]; simpl in Lh; try lia.
  - simpl. unfold all_decimal in Fh. simpl in Fh.
    rewrite andb_true_r in Fh.
    destruct (decimal_facts h1 Fh)
      as (_ & _ & _ & _ & _ & E1 & E2 & _ & E3 & _).
    unfold zfill. simpl. rewrite E1, E3. simpl.
    eexists; split; [reflexivity|]. split.
    + exists ["0"; h1], mm. unfold all_decimal. simpl. rewrite Fh. auto.
    + split.
      * intros h mm' E. reflexivity.
      * intros ? ? ? E. inversion E; subst. simpl in Fh. discriminate.
  - simpl. eexists; split; [reflexivity|]. split.
    + exists [h1; h2], mm. auto.
    + split.
      * intros h mm' E. inversion E; subst.
        unfold all_decimal in Fh. simpl in Fh.
        rewrite andb_false_r in Fh. discriminate.
      * reflexivity.
Qed.

(** ** What the patterns of the parser capture *)

Lemma cancel_patterns_capture (pattern : regex) (s : list char)
    (m : match_obj) :
  In pattern cancel_patterns -> search pattern s = Some m ->
  date_shape (group 1 m) /\ time_shape (group 2 m).
Proof.
  intros Hin H. apply search_sound in H.
  destruct H as (pre & pv & st' & _ & _ & M & G).
  destruct m as [m0 mt mg mp ma]. unfold group.
  cbn [m_text m_groups m_after m_start m_prev] in *. subst mg.
  destruct Hin as [<- | [<- | []]];
    unfold cancel_date_time, cancel_date_at_time in M;
    cbn [seq matches lit str list_ascii_of_string map chr] in M.
  - destruct M as (t1 & st1 & t2 & (sa & Md & ->)
                   & (t3 & st2 & t4 & Ms & (sb & Mt & ->) & ->) & ->).
    apply matches_date_token in Md. destruct Md as (Sd & Gd).
    unfold spaces in Ms. cbn [matches] in Ms. rep_inv Ms.
    apply matches_time_token in Mt. destruct Mt as (St & Gt).
    cbn [groups set_group] in *. rewrite Gt. simpl. auto.
  - destruct M as (t1 & st1 & t2 & (sa & Md & ->)
                   & (t3 & st2 & t4 & Ms
                      & (t5 & st3 & t6 & Mat
                         & (t7 & st4 & t8 & Ms'
                            & (sb & Mt & ->) & ->) & ->) & ->) & ->).
    apply matches_date_token in Md. destruct Md as (Sd & Gd).
    unfold spaces in Ms, Ms'. cbn [matches] in Ms, Ms'. rep_inv Ms.
    destruct Mat as (u1 & su & u2 & Ma & Mb & ->).
    chr_inv Ma. chr_inv Mb. rep_inv Ms'.
    apply matches_time_token in Mt. destruct Mt as (St & Gt).
    cbn [groups set_group] in *. rewrite Gt. simpl. auto.
Qed.

Lemma pattern1_capture (s : list char) (m : match_obj) :
  search pattern1 s = Some m ->
  date_shape (group 2 m) /\ time_shape (group 3 m)
  /\ exists pre book ws1 ws2 ws3,
       s = pre ++ book ++ ws1 ++ group 1 m ++ ws2 ++ group 2 m ++ ws3
           ++ group 3 m ++ m_after m
       /\ lower book = str "book"
       /\ forallb is_space ws1 = true /\ ws1 <> []
       /\ forallb is_space ws2 = true /\ ws2 <> []
       /\ forallb is_space ws3 = true /\ ws3 <> []
       /\ forallb dot (group 1 m) = true /\ group 1 m <> [].
Proof.
  intros H. apply search_sound in H.
  destruct H as (pre & pv & st' & E & _ & M & G).
  destruct m as [m0 mt mg mp ma]. unfold group.
  cbn [m_text m_groups m_after m_start m_prev] in *. subst mg.
  unfold pattern1 in M. cbn [seq matches] in M.
  destruct M as (tb & s1 & r1 & Mb
                 & (w1 & s2 & r2 & Ms1
                    & (g1 & s3 & r3 & (sa & Mn & ->)
                       & (w2 & s4 & r4 & Ms2
                          & (g2 & s5 & r5 & (sb & Md & ->)
                             & (w3 & s6 & g3 & Ms3
                                & (sc & Mt & ->) & ->) & ->) & ->) & ->)
                    & ->) & E').
  apply matches_date_token in Md. destruct Md as (Sd & Gd).
  apply matches_time_token in Mt. destruct Mt as (St & Gt).
  unfold spaces, lazy_any in *. cbn [matches] in Ms1, Ms2, Ms3, Mn.
  assert (Eb : lower tb = str "book").
  { cbn [matches lit_i str list_ascii_of_string map chr_i] in Mb.
    destruct Mb as (b1 & sb1 & b2 & (c1 & P1 & -> & -> & _)
                    & (b3 & sb2 & b4 & (c2 & P2 & -> & -> & _)
                       & (b5 & sb3 & b6 & (c3 & P3 & -> & -> & _)
                          & (c4 & P4 & -> & -> & _) & ->) & ->) & ->).
    apply char_eqb_eq in P1, P2, P3, P4.
    unfold lower. cbn [map app]. rewrite P1, P2, P3, P4. reflexivity. }
  rep_inv Ms1. rep_inv Mn. rep_inv Ms2. rep_inv Ms3.
  cbn [groups set_group] in *.
  rewrite Gt. cbn [lookup Nat.eqb]. rewrite Gd. cbn [lookup Nat.eqb].
  split; [exact Sd|]. split; [exact St|].
  exists pre, tb, w1, w2, w3.
  repeat split; auto.
  - rewrite E, E'. repeat rewrite <- app_assoc. reflexivity.
  - intros ->. simpl in L; lia.
  - intros ->. simpl in L1; lia.
  - intros ->. simpl in L2; lia.
  - intros ->. simpl in L0; lia.
Qed.

Lemma token_pattern_capture (s : list char) (m : match_obj) :
  (search date_pattern s = Some m -> date_shape (group 1 m))
  /\ (search time_pattern s = Some m -> time_shape (group 1 m)).
Proof.
  split; intros H; apply search_sound in H;
    destruct H as (pre & pv & st' & _ & _ & M & G);
    destruct m as [m0 mt mg mp ma]; unfold group;
    cbn [m_text m_groups m_after m_start m_prev] in *; subst mg;
    cbn [date_pattern time_pattern matches] in M;
    destruct M as (sa & M & ->).
  - apply matches_date_token in M. destruct M as (S & _).
    simpl. exact S.
  - apply matches_time_token in M. destruct M as (S & _).
    simpl. exact S.
Qed.

(** ** The parser *)

Lemma first_match_cancel (message : list char) :
  exists r,
    first_match cancel_patterns message = Ret r
    /\ (r = (None, None)
        \/ exists date time,
             r = (Some date, Some time)
             /\ date_shape date /\ hh_mm_shape time).
Proof.
  assert (G : forall ps, incl ps cancel_patterns ->
            exists r,
              first_match ps message = Ret r
              /\ (r = (None, None)
                  \/ exists date time,
                       r = (Some date, Some time)
                       /\ date_shape date /\ hh_mm_shape time)).
  { induction ps as [|p ps IH]; intros Hin; simpl.
    - eexists; split; [reflexivity | left; reflexivity].
    - destruct (search p message) as [m|] eqn:E.
      + destruct (cancel_patterns_capture p message m) as (Sd & St); auto.
        { apply Hin; left; reflexivity. }
        destruct (ensure_hh_mm_time _ St) as (t' & Et & Sh & _).
        rewrite Et. simpl. eexists; split; [reflexivity|].
        right. exists (group 1 m), t'. auto.
      + apply IH. intros x Hx. apply Hin. right; exact Hx. }
  apply G. apply incl_refl.
Qed.

Lemma extract_strict (message : list char) (m : match_obj) :
  search pattern1 (strip message) = Some m ->
  exists time,
    extract_booking_details message
    = Ret (Some (strip (group 1 m)), Some (group 2 m), Some time)
    /\ hh_mm_shape time.
Proof.
  intros H. unfold extract_booking_details. rewrite H.
  destruct (pattern1_capture _ _ H) as (_ & St & _).
  destruct (ensure_hh_mm_time _ St) as (t' & Et & Sh & _).
  rewrite Et. simpl. exists t'. auto.
Qed.

Lemma extract_fallback (message : list char) :
  search pattern1 (strip message) = None ->
  extract_booking_details message = Ret (None, None, None)
  \/ exists dm tm time,
       search date_pattern (strip message) = Some dm
       /\ search time_pattern (strip message) = Some tm
       /\ hh_mm_shape time
       /\ let name :=
            strip (sub spaces [" "]
                     (sub booking_words_pattern []
                        (strip (firstn (m_start dm) (strip message))))) in
          (2 <= length name)%nat
          /\ extract_booking_details message
             = Ret (Some name, Some (group 1 dm), Some time).
Proof.
  intros H. unfold extract_booking_details. rewrite H.
  destruct (search date_pattern (strip message)) as [dm|] eqn:Ed;
    [|left; reflexivity].
  destruct (search time_pattern (strip message)) as [tm|] eqn:Et;
    [|left; reflexivity].
  destruct (token_pattern_capture (strip message) tm) as (_ & St).
  destruct (ensure_hh_mm_time _ (St Et)) as (t' & E & Sh & _).
  rewrite E. simpl.
  destruct (1 <? length _)%nat eqn:L.
  - right. exists dm, tm, t'. repeat split; auto.
    apply Nat.ltb_lt in L. lia.
  - left; reflexivity.
Qed.

Lemma parser_shapes_cancel (message : list char) :
  exists r,
    parse_cancel_message message = Ret r
    /\ (r = (None, None)
        \/ exists date time,
             r = (Some date, Some time)
             /\ date_shape date /\ hh_mm_shape time).
Proof. unfold parse_cancel_message. apply first_match_cancel. Qed.

Lemma parser_shapes_booking (message : list char) :
  exists r,
    extract_booking_details message = Ret r
    /\ (r = (None, None, None)
        \/ exists name date time,
             r = (Some name, Some date, Some time)
             /\ date_shape date /\ hh_mm_shape time).
Proof.
  destruct (search pattern1 (strip message)) as [m|] eqn:E.
  - destruct (extract_strict _ _ E) as (t & Ex & Sh).
    destruct (pattern1_capture _ _ E) as (Sd & _).
    eexists; split; [exact Ex|]. right.
    exists (strip (group 1 m)), (group 2 m), t. auto.
  - destruct (extract_fallback _ E)
      as [Ex | (dm & tm & t & Ed & Et & Sh & _ & Ex)].
    + eexists; split; [exact Ex | left; reflexivity].
    + eexists; split; [exact Ex|]. right.
      destruct (token_pattern_capture (strip message) dm) as (Sd & _).
      do 3 eexists. split; [reflexivity|]. auto.
Qed.

(** C8.  For every raw input text the booking-details extractor and the
    cancel parser return a value and raise no exception: the result is a
    function of the text alone, and it is either the all-empty tuple or a
    tuple whose date reads DD-MM-YYYY and whose time reads HH:MM. *)
Theorem parser_never_raises (message : list char) :
  (exists r,
     extract_booking_details message = Ret r
     /\ (r = (None, None, None)
         \/ exists name date time,
              r = (Some name, Some date, Some time)
              /\ date_shape date /\ hh_mm_shape time))
  /\ (exists r,
        parse_cancel_message message = Ret r
        /\ (r = (None, None)
            \/ exists date time,
                 r = (Some date, Some time)
                 /\ date_shape date /\ hh_mm_shape time)).
Proof.
  split; [apply parser_shapes_booking | apply parser_shapes_cancel].
Qed.

(** C9.  When the strict pattern matches, the name is the text between
    the word "book" and the date token, stripped of surrounding white
    space and nothing else: no filler word is removed and no length is
    required, so "book on 15-08-2025 14:30" gives the name "on" and a
    one-letter name is kept.  Only when the strict pattern fails is the
    name cleaned of filler words and required to have two characters. *)
Theorem strict_pattern_keeps_raw_name :
  (forall message m,
      search pattern1 (strip message) = Some m ->
      exists pre book ws1 raw ws2 date ws3 tok post time,
        strip message
        = pre ++ book ++ ws1 ++ raw ++ ws2 ++ date ++ ws3 ++ tok ++ post
        /\ lower book = str "book"
        /\ forallb is_space ws1 = true /\ ws1 <> []
        /\ forallb is_space ws2 = true /\ ws2 <> []
        /\ date_shape date
        /\ extract_booking_details message
           = Ret (Some (strip raw), Some date, Some time))
  /\ extract_booking_details (str "book on 15-08-2025 14:30")
     = Ret (Some (str "on"), Some (str "15-08-2025"), Some (str "14:30"))
  /\ extract_booking_details (str "book x 15-08-2025 14:30")
     = Ret (Some (str "x"), Some (str "15-08-2025"), Some (str "14:30"))
  /\ (forall message name date time,
         search pattern1 (strip message) = None ->
         extract_booking_details message = Ret (Some name, date, time) ->
         (2 <= length name)%nat
         /\ exists dm,
              search date_pattern (strip message) = Some dm
              /\ name
                 = strip (sub spaces [" "]
                            (sub booking_words_pattern []
                               (strip (firstn (m_start dm)
                                             (strip message))))))
  /\ extract_booking_details (str "on 15-08-2025 14:30")
     = Ret (None, None, None)
  /\ extract_booking_details (str "x 15-08-2025 14:30")
     = Ret (None, None, None).
Proof.
  split; [|split; [|split; [|split; [|split]]]].
  2, 3, 5, 6: vm_compute; reflexivity.
  - intros message m H.
    destruct (extract_strict _ _ H) as (t & Ex & _).
    destruct (pattern1_capture _ _ H)
      as (Sd & _ & pre & book & ws1 & ws2 & ws3 & E & Eb & F1 & N1 & F2
          & N2 & _).
    exists pre, book, ws1, (group 1 m), ws2, (group 2 m), ws3, (group 3 m),
      (m_after m), t.
    repeat split; auto.
  - intros message name date time H Ex.
    destruct (extract_fallback _ H)
      as [Ex' | (dm & tm & t & Ed & Et & Sh & L & Ex')];
      rewrite Ex' in Ex; inversion Ex; subst.
    split; [exact L|]. exists dm. auto.
Qed.

(** On a strict match the name may be a filler word. *)
Lemma strict_pattern_keeps_raw_name_witness :
  exists pre book ws1 raw ws2 date ws3 tok post time,
    strip (str "book on 15-08-2025 14:30")
    = pre ++ book ++ ws1 ++ raw ++ ws2 ++ date ++ ws3 ++ tok ++ post
    /\ lower book = str "book"
    /\ forallb is_space ws1 = true /\ ws1 <> []
    /\ forallb is_space ws2 = true /\ ws2 <> []
    /\ date_shape date
    /\ extract_booking_details (str "book on 15-08-2025 14:30")
       = Ret (Some (strip raw), Some date, Some time).
Proof.
  destruct strict_pattern_keeps_raw_name as [H _].
  apply (H (str "book on 15-08-2025 14:30")
           (mk_match 0 (str "book on 15-08-2025 14:30")
              [(3%nat, str "14:30"); (2%nat, str "15-08-2025");
               (1%nat, str "on")] (Some "0") [])).
  vm_compute. reflexivity.
Defined.

(** ** The table under the three operations *)

Lemma is_slot_available_spec (db : table) (d t : list char) :
  is_slot_available db d t None = true <-> filter (occupies d t) db = [].
Proof.
  unfold is_slot_available, first. fold (occupies d t).
  destruct (filter (occupies d t) db); simpl;
    split; congruence.
Qed.

Lemma occupies_iff (d t : list char) (a : Appointment) :
  occupies d t a = true
  <-> date a = d /\ time a = t /\ status a = confirmed.
Proof.
  unfold occupies.
  rewrite !andb_true_iff, !text_eqb_eq, status_eqb_eq. tauto.
Qed.

(** What a booking does to the table: nothing, or one confirmed row at
    the end, for a slot that was free. *)
Lemma booking_effect (clk : clock) (db : table) (message phone : list char)
    (r : response) (db' : table) :
  handle_appointment_booking clk db message phone = Ret (r, db') ->
  db' = db
  \/ exists a,
       db' = db ++ [a] /\ r = BookingConfirmed a
       /\ id a = next_id db /\ status a = confirmed
       /\ phone_number a = phone /\ created_at a = utcnow clk
       /\ is_slot_available db (date a) (time a) None = true.
Proof.
  unfold handle_appointment_booking.
  destruct (extract_booking_details message) as [[[n d] t]|e];
    simpl; [|discriminate].
  destruct (negb (truthy n) || negb (truthy d) || negb (truthy t)).
  { intros H; inversion H; auto. }
  destruct (is_valid_date_time _ _ _ _) as [v|e]; simpl; [|discriminate].
  destruct v; simpl; [|intros H; inversion H; auto].
  destruct (is_slot_available db (text_of d) (text_of t) None) eqn:Av; simpl.
  - intros H; inversion H; subst. right.
    eexists. split; [reflexivity|]. simpl. auto 10.
  - destruct (find_next_available_slot _ _ _) as [nd nt].
    destruct (truthy nd && truthy nt); intros H; inversion H; auto.
Qed.

(** What a cancellation does to the table: nothing, or the status of the
    rows with the key of a confirmed row becomes cancelled. *)
Lemma cancel_effect (db : table) (message phone : list char)
    (r : response) (db' : table) :
  handle_cancel_appointment db message phone = Ret (r, db') ->
  db' = db
  \/ exists a,
       In a db /\ status a = confirmed /\ db' = mark_cancelled db a
       /\ r = AppointmentCancelled (set_status cancelled a).
Proof.
  unfold handle_cancel_appointment.
  destruct (parse_cancel_message message) as [[d t]|e];
    simpl; [|discriminate].
  destruct (negb (truthy d) || negb (truthy t)).
  { intros H; inversion H; auto. }
  match goal with
  | |- context [first (filter ?f db)] =>
      destruct (first (filter f db)) as [a|] eqn:E
  end.
  - intros H; inversion H; subst. right. exists a.
    unfold first in E.
    match type of E with
    | hd_error (filter ?f db) = _ =>
        destruct (filter f db) as [|b l] eqn:F; [discriminate|];
          inversion E; subst b;
          assert (I : In a (filter f db)) by (rewrite F; left; reflexivity)
    end.
    apply filter_In in I. destruct I as (I & P).
    rewrite !andb_true_iff, status_eqb_eq in P.
    repeat split; tauto.
  - intros H; inversion H; auto.
Qed.

Lemma filter_mark_cancelled (d t : list char) (db : table)
    (a : Appointment) :
  (length (filter (occupies d t) (mark_cancelled db a))
   <= length (filter (occupies d t) db))%nat.
Proof.
  unfold mark_cancelled. induction db as [|b db IH]; simpl; auto.
  destruct (id b =? id a)%Z.
  - replace (occupies d t (set_status cancelled b)) with false.
    + destruct (occupies d t b); simpl; lia.
    + unfold occupies. simpl. rewrite andb_false_r. reflexivity.
  - destruct (occupies d t b); simpl; lia.
Qed.

Lemma process_exclusive (db : table) (req : request) :
  slot_exclusive db -> slot_exclusive (snd (process db req)).
Proof.
  intros Inv. destruct req as [clk m p | m p | p]; simpl; auto.
  - destruct (handle_appointment_booking clk db m p) as [[r db']|e] eqn:E;
      simpl; auto.
    apply booking_effect in E.
    destruct E as [-> | (a & -> & _ & _ & _ & _ & _ & Av)]; auto.
    intros d t. rewrite filter_app, length_app. simpl.
    destruct (occupies d t a) eqn:O; simpl; [|specialize (Inv d t); lia].
    apply occupies_iff in O. destruct O as (<- & <- & _).
    apply is_slot_available_spec in Av. rewrite Av. simpl. lia.
  - destruct (handle_cancel_appointment db m p) as [[r db']|e] eqn:E;
      simpl; auto.
    apply cancel_effect in E.
    destruct E as [-> | (a & _ & _ & -> & _)]; auto.
    intros d t. specialize (Inv d t).
    pose proof (filter_mark_cancelled d t db a). lia.
Qed.

Lemma replay_exclusive (reqs : list request) :
  forall db, slot_exclusive db -> slot_exclusive (replay reqs db).
Proof.
  induction reqs as [|req reqs IH]; intros db Inv; simpl; auto.
  apply IH. apply process_exclusive. exact Inv.
Qed.

(** C2 (the code departs from it).  A contact books 25-08-2025 at 10:00
    and then books the same day and time once more, the date typed in
    Arabic-Indic digits.  Both bookings are confirmed and the table
    holds two confirmed appointments for one slot: the date pattern
    [\d{2}-\d{2}-\d{4}] and [int] take the decimal digits of every
    script, both texts are the 25th of August 2025 to the validator and
    to the display, and the availability check compares the texts of
    the date column.  (The time pattern is written with [[0-9]] and
    takes the digits 0..9 only.)  What the check does ensure after any
    sequence of requests is that no two confirmed rows have the same
    date text and the same time text: a booking adds a confirmed row
    only when the check for its texts succeeded on the table it was
    added to, and a cancellation adds no confirmed row. *)
Theorem slot_booked_twice :
  let t0 := mk_datetime 2025 8 20 10 0 0 0 in
  let clk := mk_clock t0 t0 t0 in
  let phone := str "whatsapp:+15550100" in
  let date1 := str "25-08-2025" in
  let date2 := in_script arabic_indic (str "25-08-2025") in
  let a1 := mk_appointment 1 (str "Al") phone date1 (str "10:00")
                           confirmed t0 in
  let a2 := mk_appointment 2 (str "Al") phone date2 (str "10:00")
                           confirmed t0 in
  (process [] (Book clk (str "Book Al 25-08-2025 10:00") phone)
   = (Reply (BookingConfirmed a1), [a1])
   /\ process [a1] (Book clk (str "Book Al " ++ date2 ++ str " 10:00")
                         phone)
      = (Reply (BookingConfirmed a2), [a1; a2])
   /\ date2 <> date1
   /\ unpack3_int (split "-" date1) = Ret (25, 8, 2025)%Z
   /\ unpack3_int (split "-" date2) = Ret (25, 8, 2025)%Z
   /\ is_valid_date_time t0 t0 date2 (str "10:00") = Ret true
   /\ format_date_for_display date1 = str "25 August 2025"
   /\ format_date_for_display date2 = str "25 August 2025"
   /\ is_slot_available [a1] date2 (str "10:00") None = true)
  /\ (forall reqs, slot_exclusive (replay reqs []))
  /\ (forall clk db message phone r db',
         handle_appointment_booking clk db message phone = Ret (r, db') ->
         db' = db
         \/ exists a,
              db' = db ++ [a] /\ status a = confirmed
              /\ is_slot_available db (date a) (time a) None = true)
  /\ (forall db message phone r db',
         handle_cancel_appointment db message phone = Ret (r, db') ->
         forall d t,
           (length (filter (occupies d t) db')
            <= length (filter (occupies d t) db))%nat).
Proof.
  split; [|split; [|split]].
  - vm_compute. repeat split. discriminate.
  - intros reqs. apply replay_exclusive. intros d t. simpl. lia.
  - intros clk db message phone r db' H.
    apply booking_effect in H.
    destruct H as [-> | (a & -> & _ & _ & S & _ & _ & Av)]; auto.
    right. exists a. auto.
  - intros db message phone r db' H d t.
    apply cancel_effect in H.
    destruct H as [-> | (a & _ & _ & -> & _)]; auto.
    apply filter_mark_cancelled.
Qed.

(** A message that comes in through the webhook is served as one of the
    three operations, or leaves the table alone. *)
Lemma webhook_dispatch (clk : clock) (db : table)
    (incoming_msg from_number : list char) :
  let message := strip (strip incoming_msg) in
  snd (webhook clk db incoming_msg from_number) = db
  \/ webhook clk db incoming_msg from_number
     = process db (Cancel message from_number)
  \/ webhook clk db incoming_msg from_number
     = process db (Book clk message from_number).
Proof.
  intros message. unfold webhook, handle_whatsapp_message.
  fold message.
  destruct (is_in (lower message) _); [left; reflexivity|].
  destruct (starts_with _ _); [right; left; reflexivity|].
  destruct (contains _ _ || existsb _ _); [right; right; reflexivity|].
  destruct (is_in (lower message) _); left; reflexivity.
Qed.

(** ** Keys, and what a request leaves untouched *)

Lemma id_below_next (db : table) (a : Appointment) :
  In a db -> (id a < next_id db)%Z.
Proof.
  unfold next_id. induction db as [|b db IH]; simpl; [tauto|].
  intros [-> | I]; [lia|]. specialize (IH I). lia.
Qed.

Lemma mark_cancelled_ids (db : table) (a : Appointment) :
  map id (mark_cancelled db a) = map id db.
Proof.
  unfold mark_cancelled. rewrite map_map. apply map_ext.
  intros b. destruct (id b =? id a)%Z; reflexivity.
Qed.

Lemma process_keyed (db : table) (req : request) :
  keyed db -> keyed (snd (process db req)).
Proof.
  unfold keyed. intros K. destruct req as [clk m p | m p | p]; simpl; auto.
  - destruct (handle_appointment_booking clk db m p) as [[r db']|e] eqn:E;
      simpl; auto.
    apply booking_effect in E.
    destruct E as [-> | (a & -> & _ & Ia & _)]; auto.
    rewrite map_app. simpl.
    apply NoDup_app_remove_l with (l := []). simpl.
    apply Permutation.Permutation_NoDup with (l := id a :: map id db).
    + apply Permutation.Permutation_cons_append.
    + constructor; auto. intros I. apply in_map_iff in I.
      destruct I as (b & Eb & Ib). apply id_below_next in Ib. lia.
  - destruct (handle_cancel_appointment db m p) as [[r db']|e] eqn:E;
      simpl; auto.
    apply cancel_effect in E.
    destruct E as [-> | (a & _ & _ & -> & _)]; auto.
    rewrite mark_cancelled_ids. exact K.
Qed.

Lemma replay_keyed (reqs : list request) :
  forall db, keyed db -> keyed (replay reqs db).
Proof.
  induction reqs as [|req reqs IH]; intros db K; simpl; auto.
  apply IH. apply process_keyed. exact K.
Qed.

Lemma mark_cancelled_other (db : table) (a : Appointment) :
  (forall b, In b db -> id b <> id a) -> mark_cancelled db a = db.
Proof.
  unfold mark_cancelled. induction db as [|b db IH]; simpl; auto.
  intros H. rewrite IH by (intros; apply H; auto).
  destruct (id b =? id a)%Z eqn:E; auto.
  apply Z.eqb_eq in E. exfalso. apply (H b); auto.
Qed.

(** Under unique keys the update of a row touches that row alone. *)
Lemma mark_cancelled_split (db : table) (a : Appointment) :
  keyed db -> In a db ->
  exists l1 l2,
    db = l1 ++ a :: l2
    /\ mark_cancelled db a = l1 ++ set_status cancelled a :: l2.
Proof.
  intros K I. apply in_split in I. destruct I as (l1 & l2 & ->).
  exists l1, l2. split; auto.
  unfold keyed in K. rewrite map_app in K. simpl in K.
  assert (N1 : forall b, In b l1 -> id b <> id a).
  { intros b Ib E. apply NoDup_remove_2 in K. apply K.
    apply in_or_app. left. rewrite <- E. apply in_map. exact Ib. }
  assert (N2 : forall b, In b l2 -> id b <> id a).
  { intros b Ib E. apply NoDup_remove_2 in K. apply K.
    apply in_or_app. right. rewrite <- E. apply in_map. exact Ib. }
  pose proof (mark_cancelled_other l1 a N1) as E1.
  pose proof (mark_cancelled_other l2 a N2) as E2.
  unfold mark_cancelled in *. rewrite map_app. simpl.
  rewrite E1, E2, Z.eqb_refl. reflexivity.
Qed.

Lemma evolves_refl (a : Appointment) : evolves a a.
Proof. unfold evolves. auto 10. Qed.

Lemma evolves_trans (a b c : Appointment) :
  evolves a b -> evolves b c -> evolves a c.
Proof.
  unfold evolves.
  intros (I1 & N1 & P1 & D1 & T1 & C1 & S1) (I2 & N2 & P2 & D2 & T2 & C2 & S2).
  repeat split; try congruence.
  destruct S1 as [S1 | (S1 & S1')], S2 as [S2 | (S2 & S2')];
    try (left; congruence); right; split; congruence.
Qed.

Lemma evolves_cancel (a : Appointment) : evolves a (set_status cancelled a).
Proof.
  unfold evolves, set_status. simpl. repeat split; auto.
  destruct (status a); auto.
Qed.

Lemma Forall2_evolves_refl (db : table) : Forall2 evolves db db.
Proof. induction db; constructor; auto using evolves_refl. Qed.

Lemma Forall2_evolves_trans (l1 : table) :
  forall l2 l3,
    Forall2 evolves l1 l2 -> Forall2 evolves l2 l3 -> Forall2 evolves l1 l3.
Proof.
  induction l1 as [|a l1 IH]; intros l2 l3 H1 H2.
  - inversion H1; subst. inversion H2; subst. constructor.
  - inversion H1; subst. inversion H2; subst. constructor.
    + eapply evolves_trans; eauto.
    + eapply IH; eauto.
Qed.

Lemma mark_cancelled_evolves (db : table) (a : Appointment) :
  Forall2 evolves db (mark_cancelled db a).
Proof.
  unfold mark_cancelled. induction db as [|b db IH]; simpl; constructor; auto.
  destruct (id b =? id a)%Z; auto using evolves_refl, evolves_cancel.
Qed.

Lemma process_extends (db : table) (req : request) :
  exists old new,
    snd (process db req) = old ++ new /\ Forall2 evolves db old.
Proof.
  destruct req as [clk m p | m p | p]; simpl.
  - destruct (handle_appointment_booking clk db m p) as [[r db']|e] eqn:E;
      simpl.
    + apply booking_effect in E. destruct E as [-> | (a & -> & _)].
      * exists db, []. rewrite app_nil_r. auto using Forall2_evolves_refl.
      * exists db, [a]. auto using Forall2_evolves_refl.
    + exists db, []. rewrite app_nil_r. auto using Forall2_evolves_refl.
  - destruct (handle_cancel_appointment db m p) as [[r db']|e] eqn:E;
      simpl.
    + apply cancel_effect in E. destruct E as [-> | (a & _ & _ & -> & _)].
      * exists db, []. rewrite app_nil_r. auto using Forall2_evolves_refl.
      * exists (mark_cancelled db a), []. rewrite app_nil_r.
        auto using mark_cancelled_evolves.
    + exists db, []. rewrite app_nil_r. auto using Forall2_evolves_refl.
  - exists db, []. rewrite app_nil_r. auto using Forall2_evolves_refl.
Qed.

Lemma replay_extends (reqs : list request) :
  forall db,
    exists old new,
      replay reqs db = old ++ new /\ Forall2 evolves db old.
Proof.
  induction reqs as [|req reqs IH]; intros db; simpl.
  - exists db, []. rewrite app_nil_r. auto using Forall2_evolves_refl.
  - destruct (process_extends db req) as (o1 & n1 & E1 & F1).
    rewrite E1. destruct (IH (o1 ++ n1)) as (o2 & n2 & E2 & F2).
    apply Forall2_app_inv_l in F2.
    destruct F2 as (o2a & o2b & Fa & Fb & ->).
    exists o2a, (o2b ++ n2). rewrite E2, <- app_assoc. split; auto.
    eapply Forall2_evolves_trans; eauto.
Qed.

(** C7.  From a table reached by any sequence of requests, a List
    request changes nothing; a Book request changes nothing or appends
    one row; a Cancel request changes nothing or turns the status of one
    confirmed row to cancelled, all other rows and all other columns
    staying as they are.  Hence, whatever requests follow, every
    appointment stays in the table at its place with the same key, name,
    contact, date, time and creation time, and its status is what it was
    or went from confirmed to cancelled. *)
Theorem only_cancel_mutates (reqs : list request) :
  let db := replay reqs [] in
  (forall req,
      let db' := snd (process db req) in
      match req with
      | ListAppointments _ => db' = db
      | Book _ _ _ => db' = db \/ exists a, db' = db ++ [a]
      | Cancel _ _ =>
          db' = db
          \/ exists l1 a l2,
               db = l1 ++ a :: l2 /\ status a = confirmed
               /\ db' = l1 ++ set_status cancelled a :: l2
               /\ fst (process db req)
                  = Reply (AppointmentCancelled (set_status cancelled a))
      end)
  /\ (forall more,
         exists old new,
           replay more db = old ++ new /\ Forall2 evolves db old).
Proof.
  intros db. split.
  - intros [clk m p | m p | p]; simpl; auto.
    + destruct (handle_appointment_booking clk db m p) as [[r db']|e] eqn:E;
        simpl; auto.
      apply booking_effect in E. destruct E as [-> | (a & -> & _)]; eauto.
    + destruct (handle_cancel_appointment db m p) as [[r db']|e] eqn:E;
        simpl; auto.
      apply cancel_effect in E.
      destruct E as [-> | (a & I & S & -> & ->)]; auto.
      right.
      assert (K : keyed db).
      { apply replay_keyed. constructor. }
      destruct (mark_cancelled_split db a K I) as (l1 & l2 & E1 & E2).
      exists l1, a, l2. auto.
  - intros more. apply replay_extends.
Qed.

(** ** Cancellation *)

Lemma date_shape_truthy (d : list char) :
  date_shape d -> truthy (Some d) = true.
Proof.
  intros (dd & mm & yy & -> & _ & L & _).
  destruct dd; simpl in *; [discriminate | reflexivity].
Qed.

Lemma hh_mm_shape_truthy (t : list char) :
  hh_mm_shape t -> truthy (Some t) = true.
Proof.
  intros (hh & mm & -> & _ & L & _).
  destruct hh; simpl in *; [discriminate | reflexivity].
Qed.

Lemma parsed_cancel_truthy (message d t : list char) :
  parse_cancel_message message = Ret (Some d, Some t) ->
  truthy (Some d) = true /\ truthy (Some t) = true.
Proof.
  intros H. destruct (parser_shapes_cancel message) as (r & E & S).
  rewrite E in H. inversion H; subst.
  destruct S as [S | (d' & t' & S & Sd & St)]; inversion S; subst.
  auto using date_shape_truthy, hh_mm_shape_truthy.
Qed.

Lemma hd_error_filter_none {A : Type} (f : A -> bool) (l : list A) :
  hd_error (filter f l) = None <-> forall a, In a l -> f a = false.
Proof.
  split.
  - intros H a I. destruct (f a) eqn:E; auto.
    assert (I' : In a (filter f l)) by (apply filter_In; auto).
    destruct (filter f l); [destruct I' | discriminate].
  - intros H. destruct (filter f l) as [|a l'] eqn:E; auto.
    assert (I : In a (filter f l)) by (rewrite E; left; reflexivity).
    apply filter_In in I. destruct I as (I & F).
    rewrite (H a I) in F. discriminate.
Qed.

Lemma hd_error_filter_some {A : Type} (f : A -> bool) (l : list A) (a : A) :
  hd_error (filter f l) = Some a -> In a l /\ f a = true.
Proof.
  intros H. destruct (filter f l) as [|b l'] eqn:E; [discriminate|].
  inversion H; subst b.
  apply filter_In. rewrite E. left; reflexivity.
Qed.

(** Cancelling the confirmed appointment of a slot frees the slot, when
    it was the only confirmed appointment there. *)
Lemma cancelled_slot_free (l1 l2 : table) (a : Appointment) :
  slot_exclusive (l1 ++ a :: l2) -> status a = confirmed ->
  is_slot_available (l1 ++ set_status cancelled a :: l2) (date a) (time a)
                    None = true.
Proof.
  intros Inv S. apply is_slot_available_spec.
  specialize (Inv (date a) (time a)).
  rewrite filter_app in *. simpl in *.
  assert (O : occupies (date a) (time a) a = true).
  { apply occupies_iff. auto. }
  rewrite O in Inv. rewrite length_app in Inv. simpl in Inv.
  replace (occupies (date a) (time a) (set_status cancelled a)) with false
    by (unfold occupies; simpl; rewrite andb_false_r; reflexivity).
  destruct (filter _ l1); simpl in *; [|lia].
  destruct (filter _ l2); simpl in *; [reflexivity | lia].
Qed.

(** The same, for any table with unique keys and exclusive slots. *)
Lemma cancel_on_exclusive (db : table) (message phone d t : list char) :
  keyed db -> slot_exclusive db ->
  parse_cancel_message message = Ret (Some d, Some t) ->
  ((exists a, In a db /\ phone_number a = phone /\ date a = d
              /\ time a = t /\ status a = confirmed) ->
   exists l1 a l2,
     db = l1 ++ a :: l2
     /\ phone_number a = phone /\ date a = d /\ time a = t
     /\ status a = confirmed
     /\ handle_cancel_appointment db message phone
        = Ret (AppointmentCancelled (set_status cancelled a),
               l1 ++ set_status cancelled a :: l2)
     /\ is_slot_available (l1 ++ set_status cancelled a :: l2) d t None
        = true)
  /\ (~ (exists a, In a db /\ phone_number a = phone /\ date a = d
                   /\ time a = t /\ status a = confirmed) ->
      handle_cancel_appointment db message phone
      = Ret (NoConfirmedAppointment d t, db)).
Proof.
  intros K Inv P.
  destruct (parsed_cancel_truthy _ _ _ P) as (Td & Tt).
  unfold handle_cancel_appointment. rewrite P.
  cbn [bind]. rewrite Td, Tt. cbn [negb orb text_of].
  match goal with
  | |- context [first (filter ?f db)] => set (wanted := f)
  end.
  assert (W : forall a, wanted a = true
                        <-> phone_number a = phone /\ date a = d
                            /\ time a = t /\ status a = confirmed).
  { intros a. unfold wanted.
    rewrite !andb_true_iff, !text_eqb_eq, status_eqb_eq. tauto. }
  unfold first. split.
  - intros (b & Ib & Hb).
    destruct (hd_error (filter wanted db)) as [a|] eqn:E.
    + apply hd_error_filter_some in E. destruct E as (Ia & Wa).
      apply W in Wa. destruct Wa as (Pa & Da & Ta & Sa).
      destruct (mark_cancelled_split db a K Ia) as (l1 & l2 & E1 & E2).
      exists l1, a, l2. rewrite E2. repeat split; auto.
      subst d t. apply cancelled_slot_free; auto. rewrite <- E1. exact Inv.
    + exfalso.
      assert (F : wanted b = false).
      { apply (proj1 (hd_error_filter_none wanted db) E). exact Ib. }
      apply W in Hb. congruence.
  - intros N.
    destruct (hd_error (filter wanted db)) as [a|] eqn:E; auto.
    exfalso. apply N. apply hd_error_filter_some in E.
    destruct E as (Ia & Wa). apply W in Wa. exists a. tauto.
Qed.

(** C4.  In a table reached by any sequence of requests, a Cancel request
    whose text gives a date and a time does the following.  If a
    confirmed appointment of the contact at that date and time exists,
    the status of exactly that row becomes cancelled, the reply carries
    the cancelled appointment, and the slot-availability check for the
    date and time is true afterwards.  If none exists, the reply is "no
    confirmed appointment found" and the table is unchanged. *)
Theorem cancel_frees_slot (reqs : list request)
    (message phone d t : list char) :
  let db := replay reqs [] in
  parse_cancel_message message = Ret (Some d, Some t) ->
  ((exists a, In a db /\ phone_number a = phone /\ date a = d
              /\ time a = t /\ status a = confirmed) ->
   exists l1 a l2,
     db = l1 ++ a :: l2
     /\ phone_number a = phone /\ date a = d /\ time a = t
     /\ status a = confirmed
     /\ handle_cancel_appointment db message phone
        = Ret (AppointmentCancelled (set_status cancelled a),
               l1 ++ set_status cancelled a :: l2)
     /\ is_slot_available (l1 ++ set_status cancelled a :: l2) d t None
        = true)
  /\ (~ (exists a, In a db /\ phone_number a = phone /\ date a = d
                   /\ time a = t /\ status a = confirmed) ->
      handle_cancel_appointment db message phone
      = Ret (NoConfirmedAppointment d t, db)).
Proof.
  intros db P. apply cancel_on_exclusive; auto.
  - apply replay_keyed. constructor.
  - apply replay_exclusive. intros d' t'. simpl. lia.
Qed.

(** ** Numbers written in decimal digits *)

Lemma drop_while_decimal (t : list char) :
  all_decimal t -> drop_while is_int_space t = t.
Proof.
  unfold all_decimal. destruct t as [|c t]; simpl; auto.
  rewrite andb_true_iff. intros [Hc _].
  destruct (decimal_facts c Hc) as (_ & -> & _). reflexivity.
Qed.

Lemma all_decimal_rev (t : list char) : all_decimal t -> all_decimal (rev t).
Proof.
  unfold all_decimal. rewrite !forallb_forall.
  intros H c I. apply H. apply in_rev. exact I.
Qed.

Lemma strip_decimal (t : list char) :
  all_decimal t -> strip_by is_int_space t = t.
Proof.
  intros H. unfold strip_by.
  rewrite (drop_while_decimal t H).
  rewrite (drop_while_decimal (rev t) (all_decimal_rev t H)).
  apply rev_involutive.
Qed.

Lemma digits_value_decimal (t : list char) :
  forall b acc,
    all_decimal t -> (t <> [] \/ b = true) ->
    digits_value b acc t
    = Some (fold_left (fun a c => (10 * a + digit_value c)%Z) t acc).
Proof.
  unfold all_decimal.
  induction t as [|c t IH]; intros b acc H N; simpl.
  - destruct N as [N | ->]; [congruence | reflexivity].
  - simpl in H. apply andb_true_iff in H. destruct H as [Hc Ht].
    rewrite Hc. apply IH; auto.
Qed.

Lemma int_decimal (t : list char) :
  all_decimal t -> t <> [] -> int t = Ret (decimal_value t).
Proof.
  intros H N. unfold int, literal_value. rewrite (strip_decimal t H).
  destruct t as [|c t]; [congruence|].
  assert (Hc : is_decimal c = true).
  { unfold all_decimal in H. simpl in H.
    apply andb_true_iff in H. tauto. }
  destruct (decimal_facts c Hc) as (_ & _ & _ & _ & _ & -> & _ & _ & -> & _).
  rewrite (digits_value_decimal (c :: t) false 0%Z H); auto.
Qed.

Lemma decimal_value_bounds2 (a b : char) :
  ascii_digit a = true -> ascii_digit b = true ->
  decimal_value [a; b] = (10 * digit_value a + digit_value b)%Z
  /\ pad2 (decimal_value [a; b]) = [a; b].
Proof.
  intros Ha Hb.
  destruct (decimal_digit a Ha) as (Ra & Ea).
  destruct (decimal_digit b Hb) as (Rb & Eb).
  unfold decimal_value, pad2. cbn [fold_left].
  set (x := digit_value a) in *. set (y := digit_value b) in *.
  assert (E1 : ((10 * (10 * 0 + x) + y) / 10 = x)%Z).
  { symmetry. apply Z.div_unique with (r := y); lia. }
  assert (E2 : ((10 * (10 * 0 + x) + y) mod 10 = y)%Z).
  { symmetry. apply Z.mod_unique with (q := x); lia. }
  assert (E3 : (x mod 10 = x)%Z) by (apply Z.mod_small; lia).
  rewrite E1, E2, E3, Ea, Eb.
  split; [lia | reflexivity].
Qed.

Lemma decimal_value_bounds4 (a b c d : char) :
  ascii_digit a = true -> ascii_digit b = true ->
  ascii_digit c = true -> ascii_digit d = true ->
  decimal_value [a; b; c; d]
  = (1000 * digit_value a + 100 * digit_value b + 10 * digit_value c
     + digit_value d)%Z
  /\ pad4 (decimal_value [a; b; c; d]) = [a; b; c; d].
Proof.
  intros Ha Hb Hc Hd.
  destruct (decimal_digit a Ha) as (Ra & Ea).
  destruct (decimal_digit b Hb) as (Rb & Eb).
  destruct (decimal_digit c Hc) as (Rc & Ec).
  destruct (decimal_digit d Hd) as (Rd & Ed).
  unfold decimal_value, pad4. cbn [fold_left].
  set (x := digit_value a) in *. set (y := digit_value b) in *.
  set (z := digit_value c) in *. set (w := digit_value d) in *.
  set (n := (10 * (10 * (10 * (10 * 0 + x) + y) + z) + w)%Z).
  assert (N : n = (1000 * x + 100 * y + 10 * z + w)%Z) by (unfold n; lia).
  assert (E1 : (n / 1000 mod 10 = x)%Z).
  { replace (n / 1000)%Z with x; [apply Z.mod_small; lia|].
    apply Z.div_unique with (r := (100 * y + 10 * z + w)%Z); lia. }
  assert (E2 : (n / 100 mod 10 = y)%Z).
  { replace (n / 100)%Z with (10 * x + y)%Z.
    - symmetry. apply Z.mod_unique with (q := x); lia.
    - apply Z.div_unique with (r := (10 * z + w)%Z); lia. }
  assert (E3 : (n / 10 mod 10 = z)%Z).
  { replace (n / 10)%Z with (100 * x + 10 * y + z)%Z.
    - symmetry. apply Z.mod_unique with (q := (10 * x + y)%Z); lia.
    - apply Z.div_unique with (r := w); lia. }
  assert (E4 : (n mod 10 = w)%Z).
  { symmetry. apply Z.mod_unique with (q := (100 * x + 10 * y + z)%Z); lia. }
  rewrite E1, E2, E3, E4, Ea, Eb, Ec, Ed.
  split; [exact N | reflexivity].
Qed.

Lemma split_date_text (a b c d e f g h : char) :
  is_decimal a = true -> is_decimal b = true -> is_decimal c = true ->
  is_decimal d = true -> is_decimal e = true -> is_decimal f = true ->
  is_decimal g = true -> is_decimal h = true ->
  unpack3_int (split "-" (date_text a b c d e f g h))
  = Ret (decimal_value [a; b], decimal_value [c; d],
         decimal_value [e; f; g; h]).
Proof.
  intros Ha Hb Hc Hd He Hf Hg Hh.
  assert (A2 : forall x y, is_decimal x = true -> is_decimal y = true ->
                           all_decimal [x; y]).
  { intros x y Hx Hy. unfold all_decimal. simpl. rewrite Hx, Hy. reflexivity. }
  assert (A4 : all_decimal [e; f; g; h]).
  { unfold all_decimal. simpl. rewrite He, Hf, Hg, Hh. reflexivity. }
  change (date_text a b c d e f g h)
    with ([a; b] ++ "-" :: [c; d] ++ "-" :: [e; f; g; h]).
  rewrite (split_decimal_app "-" [a; b]) by auto.
  rewrite (split_decimal_app "-" [c; d]) by auto.
  rewrite (split_decimal "-" [e; f; g; h]) by auto.
  unfold unpack3_int.
  rewrite !int_decimal by (auto; discriminate).
  reflexivity.
Qed.

(** [get_next_time_slot(d, "00:00")] is [d] again: half past midnight of
    the same day.  The year is taken from 1000 on, where its text does
    not depend on the platform. *)
Lemma next_slot_from_midnight (a b c d e f g h : char) :
  ascii_digit a = true -> ascii_digit b = true -> ascii_digit c = true ->
  ascii_digit d = true -> ascii_digit e = true -> ascii_digit f = true ->
  ascii_digit g = true -> ascii_digit h = true ->
  valid_date (decimal_value [e; f; g; h]) (decimal_value [c; d])
             (decimal_value [a; b]) = true ->
  (1000 <= decimal_value [e; f; g; h])%Z ->
  get_next_time_slot (date_text a b c d e f g h) (str "00:00")
  = (date_text a b c d e f g h, str "00:30").
Proof.
  intros Ha Hb Hc Hd He Hf Hg Hh V _.
  unfold get_next_time_slot, next_time_slot.
  rewrite split_date_text by (apply ascii_digit_facts; assumption).
  cbn [bind].
  change (unpack2_int (split ":" (str "00:00"))) with (Ret (0%Z, 0%Z)).
  cbn [bind]. unfold Calendar.new. rewrite V.
  change (valid_time 0 0) with true. cbn [andb bind].
  unfold plus_minutes. cbn [hour minute replace bind].
  change (0 * 60 + 0 + 30 <? 1440)%Z with true. cbn [bind hour replace].
  change (17 <=? (0 * 60 + 0 + 30) / 60)%Z with false.
  cbn [bind]. unfold strftime_date, strftime_time.
  cbn [day month year hour minute replace].
  destruct (decimal_value_bounds2 a b Ha Hb) as (_ & ->).
  destruct (decimal_value_bounds2 c d Hc Hd) as (_ & ->).
  destruct (decimal_value_bounds4 e f g h He Hf Hg Hh) as (_ & ->).
  reflexivity.
Qed.

(** ** The forward search *)

(** On a calendar date written with the digits 0..9, the search looks
    at that one day only: the move to the next day leaves the date as it
    is. *)
Lemma search_stays_on_day (db : table) (a b c d e f g h : char) (n : nat) :
  ascii_digit a = true -> ascii_digit b = true -> ascii_digit c = true ->
  ascii_digit d = true -> ascii_digit e = true -> ascii_digit f = true ->
  ascii_digit g = true -> ascii_digit h = true ->
  valid_date (decimal_value [e; f; g; h]) (decimal_value [c; d])
             (decimal_value [a; b]) = true ->
  (1000 <= decimal_value [e; f; g; h])%Z ->
  scan_days db (date_text a b c d e f g h) (S n)
  = match scan_hours db (date_text a b c d e f g h) business_hours with
    | Some (d', t') => (Some d', Some t')
    | None => (None, None)
    end.
Proof.
  intros Ha Hb Hc Hd He Hf Hg Hh V Y.
  induction n as [|n IH].
  - cbn [scan_days]. destruct (scan_hours _ _ _) as [[d' t']|]; reflexivity.
  - change (scan_days db (date_text a b c d e f g h) (S (S n)))
      with (match scan_hours db (date_text a b c d e f g h) business_hours
            with
            | Some (d', t') => (Some d', Some t')
            | None =>
                scan_days db
                  (fst (get_next_time_slot (date_text a b c d e f g h)
                                           (str "00:00"))) (S n)
            end).
    rewrite next_slot_from_midnight by auto. cbn [fst]. rewrite IH.
    destruct (scan_hours _ _ _) as [[d' t']|]; reflexivity.
Qed.

(** The search on a calendar date written with the digits 0..9: the
    first free full hour of that day, or nothing; no other day is looked
    at. *)
Lemma forward_search_one_day (db : table) (a b c d e f g h : char)
    (preferred_time : list char) :
  ascii_digit a = true -> ascii_digit b = true -> ascii_digit c = true ->
  ascii_digit d = true -> ascii_digit e = true -> ascii_digit f = true ->
  ascii_digit g = true -> ascii_digit h = true ->
  valid_date (decimal_value [e; f; g; h]) (decimal_value [c; d])
             (decimal_value [a; b]) = true ->
  (1000 <= decimal_value [e; f; g; h])%Z ->
  find_next_available_slot db (date_text a b c d e f g h) preferred_time
  = match scan_hours db (date_text a b c d e f g h) business_hours with
    | Some (d', t') => (Some d', Some t')
    | None => (None, None)
    end.
Proof.
  intros. unfold find_next_available_slot.
  apply search_stays_on_day; auto.
Qed.

(** C1 (the code departs from it).  Eight bookings fill the full hours
    9:00 to 16:00 of 25-08-2025 and every later day is free.  The search
    from that day reports that no slot is free in the next seven days:
    each of its seven rounds scans 25-08-2025 again, because the step to
    the next day, [get_next_time_slot(current_date, "00:00")], returns
    the same date. *)
Theorem forward_search_misses_next_day :
  let t0 := mk_datetime 2025 8 20 10 0 0 0 in
  let clk := mk_clock t0 t0 t0 in
  let phone := str "whatsapp:+15550100" in
  let db :=
    replay [Book clk (str "Book Ann 25-08-2025 09:00") phone;
            Book clk (str "Book Bob 25-08-2025 10:00") phone;
            Book clk (str "Book Cid 25-08-2025 11:00") phone;
            Book clk (str "Book Dee 25-08-2025 12:00") phone;
            Book clk (str "Book Eve 25-08-2025 13:00") phone;
            Book clk (str "Book Fay 25-08-2025 14:00") phone;
            Book clk (str "Book Gus 25-08-2025 15:00") phone;
            Book clk (str "Book Hal 25-08-2025 16:00") phone] [] in
  length db = 8%nat
  /\ is_slot_available db (str "26-08-2025") (str "09:00") None = true
  /\ get_next_time_slot (str "25-08-2025") (str "00:00")
     = (str "25-08-2025", str "00:30")
  /\ find_next_available_slot db (str "25-08-2025") (str "09:00")
     = (None, None)
  /\ fst (process db (Book clk (str "Book Zed 25-08-2025 09:00") phone))
     = Reply (NoSlotInNext7Days (str "Zed") (str "25-08-2025")
                                (str "09:00")).
Proof. vm_compute. repeat split. Qed.

(** ** The listing *)

Lemma insert_sorted_perm (a : Appointment) (rows : table) :
  Permutation (insert_sorted a rows) (a :: rows).
Proof.
  induction rows as [|b rows IH]; simpl; auto.
  destruct (order_leb a b); auto.
  eapply perm_trans; [apply perm_skip; exact IH | apply perm_swap].
Qed.

Lemma order_by_perm (rows : table) :
  Permutation (order_by_date_time rows) rows.
Proof.
  unfold order_by_date_time. induction rows as [|a rows IH]; simpl; auto.
  eapply perm_trans; [apply insert_sorted_perm | apply perm_skip; exact IH].
Qed.

(** The listing holds the confirmed appointments of the contact, each
    as often as the table has it. *)
Lemma listing_rows (db : table) (phone : list char) :
  Permutation (get_user_appointments db phone)
    (filter (fun a => text_eqb (phone_number a) phone
                      && status_eqb (status a) confirmed) db)
  /\ forall a,
       In a (get_user_appointments db phone)
       <-> In a db /\ phone_number a = phone /\ status a = confirmed.
Proof.
  split; [apply order_by_perm|].
  intros a. unfold get_user_appointments. split.
  - intros I. apply (Permutation_in _ (order_by_perm _)) in I.
    apply filter_In in I.
    rewrite andb_true_iff, text_eqb_eq, status_eqb_eq in I. tauto.
  - intros (I & P & S).
    apply (Permutation_in _ (Permutation_sym (order_by_perm _))).
    apply filter_In. rewrite andb_true_iff, text_eqb_eq, status_eqb_eq.
    tauto.
Qed.

(** C5 (the code departs from it).  A contact books 15-08-2025 and then
    01-09-2025.  The listing puts 1 September first: the rows are
    ordered by the text of the date column, day before month before
    year, not by the calendar. *)
Theorem listing_orders_dates_as_text :
  let t0 := mk_datetime 2025 8 1 10 0 0 0 in
  let clk := mk_clock t0 t0 t0 in
  let phone := str "whatsapp:+15550100" in
  let db :=
    replay [Book clk (str "Book Ann 15-08-2025 10:00") phone;
            Book clk (str "Book Ann 01-09-2025 10:00") phone] [] in
  map (fun a => (date a, time a)) db
  = [(str "15-08-2025", str "10:00"); (str "01-09-2025", str "10:00")]
  /\ map status db = [confirmed; confirmed]
  /\ map (fun a => (date a, time a)) (get_user_appointments db phone)
     = [(str "01-09-2025", str "10:00"); (str "15-08-2025", str "10:00")].
Proof. vm_compute. repeat split. Qed.

(** ** The next time slot *)

Lemma plus_day_replace (t : datetime) (h mi : Z) :
  plus_day (replace t h mi)
  = t' <- plus_day t ;; Ret (replace t' h mi).
Proof.
  unfold plus_day, replace, with_date. cbn [year month day hour minute
    second microsecond].
  destruct (day t <? days_in_month (year t) (month t))%Z; [reflexivity|].
  destruct (month t <? 12)%Z; [reflexivity|].
  destruct (year t <? MAXYEAR)%Z; reflexivity.
Qed.

Lemma new_fields (y m d h mi : Z) (t : datetime) :
  Calendar.new y m d h mi = Ret t ->
  t = mk_datetime y m d h mi 0 0
  /\ valid_date y m d = true /\ valid_time h mi = true.
Proof.
  unfold Calendar.new.
  destruct (valid_date y m d); destruct (valid_time h mi); simpl;
    intros E; inversion E; auto.
Qed.

(** C10 (amended).  For a well-formed date and time, [get_next_time_slot]
    returns the instant half an hour later on the same date whenever
    that instant is before 17:00, and the next calendar day at 09:00
    whenever that instant is on the same date at 17:00 or later; when
    no next day exists (31-12-9999) the arguments come back unchanged.
    [get_next_time_slot(d, "00:00")] is the date [d], written with the
    digits 0..9, at 00:30.  On a date or time that is no number triple
    or pair, or that is no calendar instant, the arguments come back
    unchanged.  Years are taken from 1000 on, where the text of the
    year does not depend on the platform. *)
Theorem next_time_slot_spec :
  (forall date_str time_str day month year hour minute t,
      unpack3_int (split "-" date_str) = Ret (day, month, year) ->
      unpack2_int (split ":" time_str) = Ret (hour, minute) ->
      Calendar.new year month day hour minute = Ret t ->
      (1000 <= year)%Z ->
      (hour * 60 + minute + 30 < 17 * 60 ->
       get_next_time_slot date_str time_str
       = (strftime_date t,
          pad2 ((hour * 60 + minute + 30) / 60) ++ ":"
          :: pad2 ((hour * 60 + minute + 30) mod 60)))%Z
      /\ (17 * 60 <= hour * 60 + minute + 30 < 24 * 60 ->
          (forall t',
              plus_day t = Ret t' ->
              get_next_time_slot date_str time_str
              = (strftime_date t', str "09:00"))
          /\ (forall e,
                 plus_day t = Raise e ->
                 get_next_time_slot date_str time_str
                 = (date_str, time_str)))%Z)
  /\ (forall a b c d e f g h,
         ascii_digit a = true -> ascii_digit b = true ->
         ascii_digit c = true -> ascii_digit d = true ->
         ascii_digit e = true -> ascii_digit f = true ->
         ascii_digit g = true -> ascii_digit h = true ->
         valid_date (decimal_value [e; f; g; h]) (decimal_value [c; d])
                    (decimal_value [a; b]) = true ->
         (1000 <= decimal_value [e; f; g; h])%Z ->
         get_next_time_slot (date_text a b c d e f g h) (str "00:00")
         = (date_text a b c d e f g h, str "00:30"))
  /\ (forall date_str time_str e,
         unpack3_int (split "-" date_str) = Raise e
         \/ unpack2_int (split ":" time_str) = Raise e
         \/ (exists day month year hour minute,
               unpack3_int (split "-" date_str) = Ret (day, month, year)
               /\ unpack2_int (split ":" time_str) = Ret (hour, minute)
               /\ Calendar.new year month day hour minute = Raise e) ->
         get_next_time_slot date_str time_str = (date_str, time_str)).
Proof.
  split; [|split].
  - intros date_str time_str dd mm yy hh mi t Ed Et En _.
    unfold get_next_time_slot, next_time_slot.
    rewrite Ed, Et. cbn [bind]. rewrite En. cbn [bind].
    apply new_fields in En. destruct En as (-> & Vd & Vt).
    unfold valid_time in Vt. rewrite !andb_true_iff, !Z.leb_le in Vt.
    unfold plus_minutes. cbn [hour minute].
    split.
    + intros L.
      assert (L1 : (hh * 60 + mi + 30 <? 1440)%Z = true)
        by (apply Z.ltb_lt; lia).
      rewrite L1. cbn [bind hour replace].
      assert (L2 : (17 <=? (hh * 60 + mi + 30) / 60)%Z = false).
      { apply Z.leb_gt. apply Z.div_lt_upper_bound; lia. }
      rewrite L2. cbn [bind]. reflexivity.
    + intros L.
      assert (L1 : (hh * 60 + mi + 30 <? 1440)%Z = true)
        by (apply Z.ltb_lt; lia).
      rewrite L1. cbn [bind hour replace].
      assert (L2 : (17 <=? (hh * 60 + mi + 30) / 60)%Z = true).
      { apply Z.leb_le. apply Z.div_le_lower_bound; lia. }
      rewrite L2.
      match goal with
      | |- context [plus_day ?x] =>
          change x with (replace (mk_datetime yy mm dd hh mi 0 0)
                           ((hh * 60 + mi + 30) / 60)
                           ((hh * 60 + mi + 30) mod 60))
      end.
      rewrite plus_day_replace.
      split; intros r Ep; rewrite Ep; cbn [bind]; reflexivity.
  - intros. apply next_slot_from_midnight; auto.
  - intros date_str time_str e H.
    unfold get_next_time_slot, next_time_slot.
    destruct H as [H | [H | (dd & mm & yy & hh & mi & Ed & Et & En)]].
    + rewrite H. reflexivity.
    + destruct (unpack3_int (split "-" date_str)) as [[[dd mm] yy]|e'];
        [|reflexivity].
      cbn [bind]. rewrite H. reflexivity.
    + rewrite Ed, Et. cbn [bind]. rewrite En. reflexivity.
Qed.

(** At half past ten the next slot is eleven o'clock of the same day. *)
Lemma next_time_slot_spec_witness :
  get_next_time_slot (str "25-08-2025") (str "10:30")
  = (str "25-08-2025", str "11:00").
Proof.
  apply (proj1 (proj1 next_time_slot_spec
                  (str "25-08-2025") (str "10:30") 25 8 2025 10 30
                  (mk_datetime 2025 8 25 10 30 0 0)
                  eq_refl eq_refl eq_refl ltac:(lia)))%Z.
  reflexivity.
Defined.

(** C10 as stated fails late in the evening: from 23:30 the function
    returns midnight of the following day, neither the same date nor
    09:00. *)
Lemma next_time_slot_leaves_the_day :
  get_next_time_slot (str "25-08-2025") (str "23:30")
  = (str "26-08-2025", str "00:00")
  /\ fst (get_next_time_slot (str "25-08-2025") (str "23:30"))
     <> str "25-08-2025"
  /\ snd (get_next_time_slot (str "25-08-2025") (str "23:30"))
     <> str "09:00".
Proof.
  split; [vm_compute; reflexivity|].
  split; vm_compute; discriminate.
Qed.

(** ** The temporal validator *)

(** C3 (the code departs from it).  A date followed by a line feed is
    not of the form DD-MM-YYYY, and a time followed by a line feed is
    not of the form H(H):MM, yet the validator accepts both: the [$] of
    its patterns also matches just before a final line feed, and [int]
    ignores the line feed. *)
Theorem validator_accepts_trailing_newline :
  let t0 := mk_datetime 2025 8 20 10 0 0 0 in
  is_valid_date_time t0 t0 (str "25-08-2025" ++ ["010"]) (str "10:00")
  = Ret true
  /\ is_valid_date_time t0 t0 (str "25-08-2025") (str "10:00" ++ ["010"])
     = Ret true
  /\ is_valid_date_format t0 (str "25-08-2025" ++ ["010"]) = Ret true
  /\ is_valid_time_format (str "10:00" ++ ["010"]) = Ret true
  /\ length (str "25-08-2025" ++ ["010"]) = 11%nat.
Proof. vm_compute. repeat split. Qed.

(** ** Running the matcher forward *)

Lemma last_of_cons (c : char) (t : list char) (pv : option char) :
  last_of (c :: t) pv = last_of t (Some c).
Proof.
  unfold last_of. simpl. destruct (rev t) eqn:E; simpl; auto.
Qed.

Lemma last_of_app (t u : list char) (pv : option char) :
  last_of (t ++ u) pv = last_of u (last_of t pv).
Proof.
  revert pv. induction t as [|c t IH]; intros pv; simpl; auto.
  rewrite !last_of_cons. apply IH.
Qed.

(** [p{n}] on a text that starts with [n] characters of the class. *)
Lemma rep_exact {A : Type} (p : char -> bool) (t s : list char) :
  forall n taken pv (k : list char -> option char -> list char -> option A),
    forallb p t = true -> length t = n ->
    rep true p n (Some n) taken pv (t ++ s) k
    = k (rev taken ++ t) (last_of t pv) s.
Proof.
  induction t as [|c t IH]; intros n taken pv k F L; simpl in L; subst n.
  - rewrite app_nil_r. destruct s as [|c s]; simpl; auto.
    rewrite andb_false_r. reflexivity.
  - simpl in F. apply andb_true_iff in F. destruct F as [Pc F].
    cbn [app rep length]. rewrite Pc. cbn [room andb pred less option_map].
    rewrite IH by auto.
    rewrite last_of_cons. simpl rev. rewrite <- app_assoc. simpl.
    destruct (k _ _ _); reflexivity.
Qed.

(** [p+] takes the whole run when what follows then succeeds. *)
Lemma rep_longest {A : Type} (p : char -> bool) (w s : list char) :
  forall lo taken pv (k : list char -> option char -> list char -> option A)
         x,
    forallb p w = true -> (lo <= length w)%nat ->
    match s with [] => True | c :: _ => p c = false end ->
    k (rev taken ++ w) (last_of w pv) s = Some x ->
    rep true p lo None taken pv (w ++ s) k = Some x.
Proof.
  induction w as [|c w IH]; intros lo taken pv k x F L N K.
  - simpl in L. assert (lo = 0)%nat by lia. subst lo.
    rewrite app_nil_r in K. destruct s as [|c s]; simpl; auto.
    rewrite N. simpl. exact K.
  - simpl in F. apply andb_true_iff in F. destruct F as [Pc F].
    cbn [app rep]. rewrite Pc. cbn [room andb less option_map].
    rewrite (IH (pred lo) (c :: taken) (Some c) k x); auto.
    + simpl in L. lia.
    + rewrite last_of_cons in K. simpl rev. rewrite <- app_assoc. exact K.
Qed.

Lemma run_digits {A : Type} (n : nat) (t s : list char) (pv : option char)
    (g : list (nat * list char)) (k : list char -> state -> option A) :
  all_decimal t -> length t = n ->
  run (digits n) (mk_state pv (t ++ s) g) k
  = k t (mk_state (last_of t pv) s g).
Proof.
  intros F L. unfold digits. cbn [run prev rest groups].
  rewrite rep_exact by auto. reflexivity.
Qed.

Lemma run_chr {A : Type} (c : char) (s : list char) (pv : option char)
    (g : list (nat * list char)) (k : list char -> state -> option A) :
  run (chr c) (mk_state pv (c :: s) g) k = k [c] (mk_state (Some c) s g).
Proof.
  unfold chr. cbn [run rest groups]. rewrite char_eqb_refl. reflexivity.
Qed.

Lemma run_chr_other {A : Type} (c x : char) (s : list char)
    (pv : option char) (g : list (nat * list char))
    (k : list char -> state -> option A) :
  char_eqb c x = false -> run (chr c) (mk_state pv (x :: s) g) k = None.
Proof.
  intros E. unfold chr. cbn [run rest groups]. rewrite E. reflexivity.
Qed.

Lemma run_date_token {A : Type} (d s : list char) (pv : option char)
    (g : list (nat * list char)) (k : list char -> state -> option A) :
  date_shape d ->
  run date_token (mk_state pv (d ++ s) g) k
  = k d (mk_state (last_of d pv) s g).
Proof.
  intros (dd & mm & yy & -> & Fd & Ld & Fm & Lm & Fy & Ly).
  unfold date_token. cbn [seq run].
  rewrite <- app_assoc. rewrite run_digits by auto.
  cbn [app]. rewrite run_chr.
  rewrite <- app_assoc. rewrite run_digits by auto.
  cbn [app]. rewrite run_chr.
  rewrite run_digits by auto.
  repeat (rewrite ?last_of_app, ?last_of_cons).
  repeat rewrite <- app_assoc. reflexivity.
Qed.

Lemma run_time_token {A : Type} (t s : list char) (pv : option char)
    (g : list (nat * list char)) (k : list char -> state -> option A) :
  time_shape t ->
  run time_token (mk_state pv (t ++ s) g) k
  = k t (mk_state (last_of t pv) s g).
Proof.
  intros (hh & mm & -> & Fh & Lh & Fm & Lm).
  unfold time_token, digits_1_2. cbn [seq run prev rest groups].
  unfold all_decimal in Fh.
  destruct hh as [|h1 [|h2 [|h3 hh]]]; simpl in Lh; try lia.
  - simpl in Fh. rewrite andb_true_r in Fh.
    cbn [app rep]. rewrite Fh. cbn [room andb pred less option_map rev app].
    change (is_decimal ":") with false. cbn [andb].
    rewrite run_chr. rewrite run_digits by auto.
    repeat (rewrite ?last_of_app, ?last_of_cons).
    destruct (k _ _); reflexivity.
  - simpl in Fh. rewrite andb_true_r in Fh.
    apply andb_true_iff in Fh. destruct Fh as [F1 F2].
    cbn [app rep]. rewrite F1. cbn [room andb pred less option_map rev app].
    rewrite F2. cbn [room andb pred less option_map rev app].
    change (is_decimal ":") with false. cbn [andb].
    rewrite run_chr. rewrite run_digits by auto.
    destruct (decimal_facts h2 F2) as (_ & _ & _ & _ & _ & _ & E & _).
    rewrite (run_chr_other ":" h2)
      by (rewrite char_eqb_sym; exact E).
    repeat (rewrite ?last_of_app, ?last_of_cons).
    destruct (k _ _); reflexivity.
Qed.

Lemma run_spaces {A : Type} (w s : list char) (pv : option char)
    (g : list (nat * list char)) (k : list char -> state -> option A)
    (x : A) :
  forallb is_space w = true -> w <> [] ->
  match s with [] => True | c :: _ => is_space c = false end ->
  k w (mk_state (last_of w pv) s g) = Some x ->
  run spaces (mk_state pv (w ++ s) g) k = Some x.
Proof.
  intros F N H K. unfold spaces. cbn [run prev rest groups].
  apply rep_longest; auto.
  destruct w; [congruence | simpl; lia].
Qed.

Lemma search_hit (r : regex) (s : list char) (m : match_obj) :
  match_at r 0 None s = Some m -> search r s = Some m.
Proof.
  intros H. unfold search. destruct s; simpl; rewrite H; reflexivity.
Qed.

Lemma time_shape_head (t s : list char) :
  time_shape t ->
  exists c r, t ++ s = c :: r /\ is_decimal c = true.
Proof.
  intros (hh & mm & -> & Fh & Lh & _).
  destruct hh as [|c hh]; simpl in Lh; [lia|].
  exists c, ((hh ++ ":" :: mm) ++ s). split; auto.
  unfold all_decimal in Fh. simpl in Fh.
  apply andb_true_iff in Fh. tauto.
Qed.

Lemma date_shape_head (d s : list char) :
  date_shape d ->
  exists c r, d ++ s = c :: r /\ is_decimal c = true.
Proof.
  intros (dd & mm & yy & -> & Fd & Ld & _).
  destruct dd as [|c dd]; simpl in Ld; [lia|].
  exists c, ((dd ++ "-" :: mm ++ "-" :: yy) ++ s). split; auto.
  unfold all_decimal in Fd. simpl in Fd.
  apply andb_true_iff in Fd. tauto.
Qed.

Lemma date_token_needs_digit {A : Type} (st : state)
    (k : list char -> state -> option A) :
  match rest st with [] => True | x :: _ => is_decimal x = false end ->
  run date_token st k = None.
Proof.
  intros H. unfold date_token, digits. cbn [seq run].
  destruct (rest st) as [|x u]; cbn [rep]; [reflexivity|].
  rewrite H. reflexivity.
Qed.

(** "<date> <time>" is matched where it starts. *)
Lemma match_cancel_date_time_at (off : nat) (d w t s : list char)
    (pv : option char) :
  date_shape d -> forallb is_space w = true -> w <> [] -> time_shape t ->
  exists m,
    match_at cancel_date_time off pv (d ++ w ++ t ++ s) = Some m
    /\ group 1 m = d /\ group 2 m = t.
Proof.
  intros Sd Fw Nw St.
  unfold match_at, cancel_date_time. cbn [seq run].
  rewrite run_date_token by auto.
  eexists. split.
  - apply run_spaces; auto.
    + destruct (time_shape_head t s St) as (c & r & -> & Hc).
      destruct (decimal_facts c Hc) as (E & _). exact E.
    + cbn [run set_group prev rest groups].
      rewrite run_time_token by auto. reflexivity.
  - unfold group. simpl. auto.
Qed.

Lemma match_cancel_date_time (d w t s : list char) (pv : option char) :
  date_shape d -> forallb is_space w = true -> w <> [] -> time_shape t ->
  exists m,
    match_at cancel_date_time 0 pv (d ++ w ++ t ++ s) = Some m
    /\ group 1 m = d /\ group 2 m = t.
Proof. apply match_cancel_date_time_at. Qed.

(** "<date> at <time>" is matched where it starts. *)
Lemma match_cancel_date_at_time_at (off : nat) (d w1 w2 t s : list char)
    (pv : option char) :
  date_shape d -> forallb is_space w1 = true -> w1 <> [] ->
  forallb is_space w2 = true -> w2 <> [] -> time_shape t ->
  exists m,
    match_at cancel_date_at_time off pv
             (d ++ w1 ++ str "at" ++ w2 ++ t ++ s) = Some m
    /\ group 1 m = d /\ group 2 m = t.
Proof.
  intros Sd F1 N1 F2 N2 St.
  unfold match_at, cancel_date_at_time. cbn [seq run].
  rewrite run_date_token by auto.
  eexists. split.
  - apply run_spaces; auto.
    + reflexivity.
    + cbn [run set_group prev rest groups lit str list_ascii_of_string map app].
      rewrite !run_chr.
      apply run_spaces; auto.
      * destruct (time_shape_head t s St) as (c & r & -> & Hc).
        destruct (decimal_facts c Hc) as (E & _). exact E.
      * cbn [run set_group prev rest groups].
        rewrite run_time_token by auto. reflexivity.
  - unfold group. simpl. auto.
Qed.

(** *** Where "<date> <time>" cannot match

    A match of that pattern holds a digit, then white space, then a
    digit; [has_gap] looks for such a place. *)

Lemma has_gap_spaces_digit (w : list char) (y : char) (post : list char) :
  forallb is_space w = true -> is_decimal y = true ->
  has_gap 2 (w ++ y :: post) = true.
Proof.
  intros F Hy. induction w as [|c w IH]; simpl.
  - rewrite Hy. reflexivity.
  - simpl in F. apply andb_true_iff in F. destruct F as [Hc F].
    destruct (is_decimal c); [reflexivity|]. rewrite Hc. simpl. auto.
Qed.

Lemma has_gap_found (pre : list char) (x : char) (w : list char)
    (y : char) (post : list char) :
  is_decimal x = true -> forallb is_space w = true -> w <> [] ->
  is_decimal y = true ->
  forall st, has_gap st (pre ++ x :: w ++ y :: post) = true.
Proof.
  intros Hx F N Hy. induction pre as [|c pre IH]; intros st; simpl.
  - rewrite Hx. destruct w as [|c w]; [congruence|].
    simpl in F. apply andb_true_iff in F. destruct F as [Hc F].
    simpl. destruct (is_decimal c) eqn:Dc.
    + destruct (decimal_facts c Dc) as (E & _). congruence.
    + rewrite Hc. simpl. rewrite has_gap_spaces_digit by auto.
      apply orb_true_r.
  - destruct (is_decimal c); [rewrite IH; apply orb_true_r|].
    destruct (is_space c); apply IH.
Qed.

Lemma date_shape_last (d : list char) :
  date_shape d -> exists r x, d = r ++ [x] /\ is_decimal x = true.
Proof.
  intros (dd & mm & yy & -> & _ & _ & _ & _ & Fy & Ly).
  destruct yy as [|y1 [|y2 [|y3 [|y4 [|y5 yy]]]]]; simpl in Ly; try lia.
  exists (dd ++ "-" :: mm ++ "-" :: [y1; y2; y3]), y4. split.
  - repeat (rewrite <- app_assoc; cbn [app]). reflexivity.
  - unfold all_decimal in Fy. simpl in Fy.
    rewrite !andb_true_iff in Fy. tauto.
Qed.

Lemma search_cancel_date_time_gap (s : list char) (m : match_obj) :
  search cancel_date_time s = Some m -> has_gap 0 s = true.
Proof.
  intros H. apply search_sound in H.
  destruct H as (pre & pv & st' & E & _ & M & _).
  destruct m as [m0 mt mg mp ma].
  cbn [m_text m_groups m_after m_start m_prev] in *.
  unfold cancel_date_time in M. cbn [seq matches] in M.
  destruct M as (t1 & st1 & t2 & (sa & Md & ->)
                 & (t3 & st2 & t4 & Ms & (sb & Mt & ->) & ->) & ->).
  apply matches_date_token in Md. destruct Md as (Sd & _).
  apply matches_time_token in Mt. destruct Mt as (St & _).
  unfold spaces in Ms. cbn [matches] in Ms. rep_inv Ms.
  destruct (date_shape_last t1 Sd) as (r & x & -> & Hx).
  destruct (time_shape_head t4 ma St) as (y & post & Ey & Hy).
  subst s.
  replace (pre ++ ((r ++ [x]) ++ t3 ++ t4) ++ ma)
    with ((pre ++ r) ++ x :: t3 ++ y :: post).
  - apply has_gap_found; auto. intros ->. simpl in L. lia.
  - rewrite <- Ey. repeat rewrite <- app_assoc. reflexivity.
Qed.

Lemma has_gap_digits (t s : list char) :
  all_decimal t -> t <> [] ->
  forall st, has_gap st (t ++ s) = (st =? 2)%nat || has_gap 1 s.
Proof.
  unfold all_decimal. induction t as [|c t IH]; intros F N st; [congruence|].
  simpl in F. apply andb_true_iff in F. destruct F as [Hc F].
  cbn [app has_gap]. rewrite Hc.
  destruct t as [|c' t]; [reflexivity|].
  rewrite IH by (auto; discriminate). reflexivity.
Qed.

Lemma has_gap_spaces (w s : list char) :
  forallb is_space w = true -> w <> [] ->
  forall st,
    has_gap st (w ++ s) = has_gap (if (st =? 0)%nat then 0 else 2)%nat s.
Proof.
  induction w as [|c w IH]; intros F N st; [congruence|].
  simpl in F. apply andb_true_iff in F. destruct F as [Hc F].
  cbn [app has_gap].
  destruct (is_decimal c) eqn:Dc.
  { destruct (decimal_facts c Dc) as (E & _). congruence. }
  rewrite Hc. destruct w as [|c' w]; [reflexivity|].
  rewrite IH by (auto; discriminate).
  destruct (st =? 0)%nat; reflexivity.
Qed.

Lemma has_gap_date (d s : list char) :
  date_shape d -> has_gap 0 (d ++ s) = has_gap 1 s.
Proof.
  intros (dd & mm & yy & -> & Fd & Ld & Fm & Lm & Fy & Ly).
  repeat (rewrite <- app_assoc; cbn [app]).
  rewrite has_gap_digits by (auto; intros ->; discriminate).
  change (has_gap 1 ("-" :: mm ++ "-" :: yy ++ s))
    with (has_gap 0 (mm ++ "-" :: yy ++ s)).
  rewrite has_gap_digits by (auto; intros ->; discriminate).
  change (has_gap 1 ("-" :: yy ++ s)) with (has_gap 0 (yy ++ s)).
  rewrite has_gap_digits by (auto; intros ->; discriminate).
  reflexivity.
Qed.

(** *** Lower case, [strip] and the removal of the leading "cancel" *)

Lemma lower_char_space (c : char) :
  is_space (lower_char c) = is_space c.
Proof. each_char c; reflexivity. Qed.

Lemma lower_spaces (w : list char) :
  forallb is_space (lower w) = forallb is_space w.
Proof.
  unfold lower. induction w as [|c w IH]; simpl; auto.
  rewrite lower_char_space, IH. reflexivity.
Qed.

Lemma lower_decimal (t : list char) : all_decimal t -> lower t = t.
Proof.
  unfold all_decimal, lower. induction t as [|c t IH]; simpl; auto.
  rewrite andb_true_iff. intros [Hc F].
  destruct (decimal_facts c Hc) as (_ & _ & _ & -> & _).
  rewrite IH by auto. reflexivity.
Qed.

Lemma lower_app (a b : list char) : lower (a ++ b) = lower a ++ lower b.
Proof. unfold lower. apply map_app. Qed.

Lemma lower_date (d : list char) : date_shape d -> lower d = d.
Proof.
  intros (dd & mm & yy & -> & Fd & _ & Fm & _ & Fy & _).
  rewrite lower_app. change (lower ("-" :: mm ++ "-" :: yy))
    with ("-" :: lower (mm ++ "-" :: yy)).
  rewrite lower_app. change (lower ("-" :: yy)) with ("-" :: lower yy).
  rewrite !lower_decimal by auto. reflexivity.
Qed.

Lemma lower_time (t : list char) : time_shape t -> lower t = t.
Proof.
  intros (hh & mm & -> & Fh & _ & Fm & _).
  rewrite lower_app. change (lower (":" :: mm)) with (":" :: lower mm).
  rewrite !lower_decimal by auto. reflexivity.
Qed.

Lemma time_shape_last (t : list char) :
  time_shape t -> exists r x, t = r ++ [x] /\ is_decimal x = true.
Proof.
  intros (hh & mm & -> & _ & _ & Fm & Lm).
  destruct mm as [|m1 [|m2 [|m3 mm]]]; simpl in Lm; try lia.
  exists (hh ++ [":"; m1]), m2. split.
  - repeat (rewrite <- app_assoc; cbn [app]). reflexivity.
  - unfold all_decimal in Fm. simpl in Fm.
    rewrite !andb_true_iff in Fm. tauto.
Qed.

(** [strip] leaves a text alone that neither starts nor ends with white
    space. *)
Lemma strip_inner (c : char) (s : list char) (x : char) :
  is_space c = false -> is_space x = false ->
  strip (c :: s ++ [x]) = c :: s ++ [x].
Proof.
  intros Hc Hx. unfold strip, strip_by. cbn [drop_while]. rewrite Hc.
  change (c :: s ++ [x]) with ((c :: s) ++ [x]).
  rewrite rev_app_distr. cbn [rev app drop_while]. rewrite Hx.
  change (x :: rev s ++ [c]) with ([x] ++ rev (c :: s)).
  rewrite rev_app_distr, rev_involutive. reflexivity.
Qed.

Lemma sub_from_after_start (r : regex) (repl : list char) (fuel : nat) :
  forall c s,
    sub_from fuel (Seq Bol r) repl (Some c) s = s.
Proof.
  induction fuel as [|fuel IH]; intros c s; [reflexivity|].
  cbn [sub_from]. unfold match_at. cbn [run prev].
  destruct s as [|c' s]; [reflexivity|].
  rewrite IH. reflexivity.
Qed.

(** The leading "cancel" and the white space after it are removed, and
    nothing else. *)
Lemma sub_cancel_prefix (w body : list char) :
  forallb is_space w = true -> w <> [] ->
  match body with [] => True | c :: _ => is_space c = false end ->
  sub cancel_prefix [] (str "cancel" ++ w ++ body) = body.
Proof.
  intros F N H. unfold sub.
  change (length (str "cancel" ++ w ++ body))
    with (S (5 + length (w ++ body))).
  cbn [sub_from]. unfold cancel_prefix. cbn [seq].
  assert (M : match_at (Seq Bol (Seq (lit (str "cancel")) spaces)) 0 None
                       (str "cancel" ++ w ++ body)
              = Some (mk_match 0 (str "cancel" ++ w) []
                               (last_of w (Some "l")) body)).
  { unfold match_at.
    cbn [run prev rest groups lit str list_ascii_of_string map app].
    rewrite !run_chr.
    apply run_spaces; auto. }
  rewrite M. cbn [str list_ascii_of_string map app].
  destruct w as [|c w]; [congruence|].
  rewrite last_of_cons.
  assert (L : exists z, last_of w (Some c) = Some z).
  { unfold last_of. destruct (rev w); eauto. }
  destruct L as (z & ->).
  rewrite sub_from_after_start. reflexivity.
Qed.

(** ** The cancel parser *)

Lemma ensure_hh_mm_value (hh mm : list char) :
  all_decimal hh -> (1 <= length hh <= 2)%nat ->
  all_decimal mm -> length mm = 2%nat ->
  ensure_hh_mm (hh ++ ":" :: mm) = Ret (two_digits hh ++ ":" :: mm).
Proof.
  intros Fh Lh Fm Lm. unfold ensure_hh_mm.
  rewrite (split_decimal_app ":" hh mm eq_refl Fh).
  rewrite (split_decimal ":" mm eq_refl Fm). cbn [hd].
  destruct hh as [|h1 [|h2 [|h3 hh]]]; simpl in Lh; try lia.
  - unfold all_decimal in Fh. simpl in Fh. rewrite andb_true_r in Fh.
    destruct (decimal_facts h1 Fh) as (_ & _ & _ & _ & _ & E1 & _ & _ & E3 & _).
    cbn [length Nat.eqb unpack2 bind]. unfold zfill, two_digits.
    rewrite E1, E3. reflexivity.
  - reflexivity.
Qed.

Lemma time_shape_parts (hh mm : list char) :
  all_decimal hh -> (1 <= length hh <= 2)%nat ->
  all_decimal mm -> length mm = 2%nat ->
  time_shape (hh ++ ":" :: mm).
Proof. intros. exists hh, mm. auto. Qed.

Lemma parse_cancel_body (kw w body : list char) (c : char)
    (s : list char) (x : char) :
  lower kw = str "cancel" ->
  forallb is_space w = true -> w <> [] ->
  lower body = c :: s ++ [x] ->
  is_decimal c = true -> is_decimal x = true ->
  parse_cancel_message (kw ++ w ++ body)
  = first_match cancel_patterns (c :: s ++ [x]).
Proof.
  intros Ek Fw Nw Eb Hc Hx. unfold parse_cancel_message.
  rewrite !lower_app, Ek, Eb.
  destruct (decimal_facts c Hc) as (Sc & _).
  destruct (decimal_facts x Hx) as (Sx & _).
  replace (str "cancel" ++ lower w ++ c :: s ++ [x])
    with ("c" :: (str "ancel" ++ lower w ++ c :: s) ++ [x])
    by (cbn [str list_ascii_of_string map app];
        repeat (rewrite <- app_assoc; cbn [app]); reflexivity).
  rewrite strip_inner by auto.
  replace ("c" :: (str "ancel" ++ lower w ++ c :: s) ++ [x])
    with (str "cancel" ++ lower w ++ c :: s ++ [x])
    by (cbn [str list_ascii_of_string map app];
        repeat (rewrite <- app_assoc; cbn [app]); reflexivity).
  rewrite sub_cancel_prefix; auto.
  - rewrite lower_spaces. exact Fw.
  - destruct w; [congruence | discriminate].
Qed.

Lemma shaped_body (d rest_ t : list char) :
  date_shape d -> time_shape t ->
  exists c s x,
    d ++ rest_ ++ t = c :: s ++ [x]
    /\ is_decimal c = true /\ is_decimal x = true.
Proof.
  intros Sd St.
  destruct (date_shape_head d (rest_ ++ t) Sd) as (c & r & Ec & Hc).
  destruct (time_shape_last t St) as (r' & x & Et & Hx).
  destruct (date_shape_head d [] Sd) as (c' & d' & Ed & Hc').
  rewrite app_nil_r in Ed. subst d t.
  exists c', (d' ++ rest_ ++ r'), x.
  repeat (rewrite <- app_assoc; cbn [app]). auto.
Qed.

(** *** Other text around the date and the time *)

Lemma lower_char_decimal (c : char) :
  is_decimal (lower_char c) = is_decimal c.
Proof. each_char c; reflexivity. Qed.

Lemma space_no_digit (c : char) : is_space c = true -> is_decimal c = false.
Proof. each_char c; vm_compute; congruence. Qed.

Lemma no_digit_app (a b : list char) :
  no_digit (a ++ b) <-> no_digit a /\ no_digit b.
Proof. unfold no_digit. rewrite forallb_app, andb_true_iff. tauto. Qed.

Lemma no_digit_lower (t : list char) : no_digit t -> no_digit (lower t).
Proof.
  unfold no_digit, lower. induction t as [|c t IH]; simpl; auto.
  rewrite !andb_true_iff, lower_char_decimal. tauto.
Qed.

Lemma no_digit_rev (t : list char) : no_digit t -> no_digit (rev t).
Proof.
  unfold no_digit. rewrite !forallb_forall.
  intros H c I. apply H. apply in_rev. exact I.
Qed.

Lemma no_digit_drop_while (p : char -> bool) (t : list char) :
  no_digit t -> no_digit (drop_while p t).
Proof.
  unfold no_digit. induction t as [|c t IH]; simpl; auto.
  intros H. destruct (p c); [|exact H].
  apply andb_true_iff in H. tauto.
Qed.

Lemma no_digit_spaces (w : list char) :
  forallb is_space w = true -> no_digit w.
Proof.
  unfold no_digit. induction w as [|c w IH]; simpl; auto.
  rewrite !andb_true_iff. intros (Hc & H).
  rewrite (space_no_digit c Hc). auto.
Qed.

Lemma drop_while_before (p : char -> bool) (a : list char) (c : char)
    (r : list char) :
  p c = false -> drop_while p (a ++ c :: r) = drop_while p a ++ c :: r.
Proof.
  intros N. induction a as [|x a IH]; cbn [app drop_while].
  - rewrite N. reflexivity.
  - destruct (p x); auto.
Qed.

(** Trimming takes white space from the two ends only. *)
Lemma strip_by_around (p : char -> bool) (a b : list char) (c : char)
    (mid : list char) (z : char) :
  p c = false -> p z = false ->
  strip_by p (a ++ (c :: mid ++ [z]) ++ b)
  = drop_while p a ++ (c :: mid ++ [z]) ++ rev (drop_while p (rev b)).
Proof.
  intros Pc Pz. unfold strip_by. cbn [app].
  rewrite drop_while_before by exact Pc.
  replace (drop_while p a ++ c :: (mid ++ [z]) ++ b)
    with ((drop_while p a ++ c :: mid) ++ z :: b)
    by (repeat (rewrite <- app_assoc; cbn [app]); reflexivity).
  rewrite rev_app_distr. cbn [rev]. rewrite <- app_assoc. cbn [app].
  rewrite drop_while_before by exact Pz.
  rewrite rev_app_distr. cbn [rev]. rewrite rev_involutive.
  repeat (rewrite <- app_assoc; cbn [app]). reflexivity.
Qed.

(** A text split before its first digit in two ways. *)
Lemma split_before_digit (removed result a : list char) (c : char)
    (r : list char) :
  removed ++ result = a ++ c :: r -> no_digit removed ->
  is_decimal c = true ->
  exists a', a = removed ++ a' /\ result = a' ++ c :: r.
Proof.
  revert a. induction removed as [|x removed IH]; intros a E N Hc.
  - exists a. auto.
  - unfold no_digit in N. simpl in N. apply andb_true_iff in N.
    destruct N as (Nx & N). destruct a as [|y a]; cbn [app] in E.
    + injection E as -> _. rewrite Hc in Nx. discriminate.
    + injection E as -> E. destruct (IH a E N Hc) as (a' & -> & ->).
      exists a'. auto.
Qed.

(** [re.sub] with the pattern [^cancel\s+] removes a start of the text
    that holds no digit, and nothing else. *)
Lemma sub_cancel_split (s : list char) :
  exists removed,
    s = removed ++ sub cancel_prefix [] s /\ no_digit removed.
Proof.
  unfold sub. destruct s as [|c s].
  { exists []. split; reflexivity. }
  cbn [length sub_from]. unfold cancel_prefix. cbn [seq].
  destruct (match_at _ 0 None (c :: s)) as [[m0 mt mg mp ma]|] eqn:M.
  - apply match_at_sound in M.
    destruct M as (st' & M & _ & Ea & Ep & _ & E).
    cbn [m_text m_groups m_after m_start m_prev] in *.
    cbn [matches lit str list_ascii_of_string map chr] in M.
    destruct M as (t0 & st0 & t1 & (-> & -> & _)
                   & (t2 & st2 & t3 & Ml & Ms & ->) & ->).
    destruct Ml as (u1 & s1 & v1 & M1 & (u2 & s2 & v2 & M2
                    & (u3 & s3 & v3 & M3 & (u4 & s4 & v4 & M4
                    & (u5 & s5 & v5 & M5 & M6 & ->) & ->) & ->) & ->) & ->).
    chr_inv M1. chr_inv M2. chr_inv M3. chr_inv M4. chr_inv M5. chr_inv M6.
    unfold spaces in Ms. cbn [matches] in Ms. rep_inv Ms.
    cbn [app] in *.
    destruct t3 as [|x t3]; [simpl in L; lia|].
    assert (P : exists z, mp = Some z).
    { rewrite Ep. cbn [prev]. rewrite last_of_cons.
      unfold last_of. destruct (rev t3); eauto. }
    destruct P as (z & ->). cbn [app].
    rewrite sub_from_after_start.
    exists ("c" :: "a" :: "n" :: "c" :: "e" :: "l" :: x :: t3).
    split; [exact E|].
    apply (no_digit_app (str "cancel") (x :: t3)). split.
    + reflexivity.
    + apply no_digit_spaces. assumption.
  - exists []. split; [|reflexivity].
    cbn [app]. rewrite sub_from_after_start. reflexivity.
Qed.

(** What the parser searches: the text in lower case, with the white
    space at its ends and a leading "cancel" removed.  The part from
    the first digit of [body] to its last is kept as it is, and what
    stands before and after it brings no digit of its own. *)
Lemma cancel_normal_form (pre body post : list char) (c : char)
    (mid : list char) (z : char) :
  lower body = c :: mid ++ [z] ->
  is_decimal c = true -> is_decimal z = true ->
  exists P Q,
    sub cancel_prefix [] (strip (lower (pre ++ body ++ post)))
    = P ++ lower body ++ Q
    /\ (no_digit pre -> no_digit P) /\ (no_digit post -> no_digit Q).
Proof.
  intros Eb Hc Hz.
  destruct (decimal_facts c Hc) as (Sc & _).
  destruct (decimal_facts z Hz) as (Sz & _).
  rewrite !lower_app, Eb. unfold strip.
  rewrite strip_by_around by assumption.
  set (P0 := drop_while is_space (lower pre)).
  set (Q0 := rev (drop_while is_space (rev (lower post)))).
  destruct (sub_cancel_split (P0 ++ (c :: mid ++ [z]) ++ Q0))
    as (removed & E & N).
  cbn [app] in E.
  destruct (split_before_digit _ _ P0 c ((mid ++ [z]) ++ Q0) (eq_sym E) N Hc)
    as (P & EP & ER).
  exists P, Q0. split; [|split].
  - cbn [app]. exact ER.
  - intros Npre.
    assert (N0 : no_digit P0)
      by (apply no_digit_drop_while, no_digit_lower; exact Npre).
    rewrite EP in N0. apply no_digit_app in N0. tauto.
  - intros Npost. unfold Q0.
    apply no_digit_rev, no_digit_drop_while, no_digit_rev, no_digit_lower.
    exact Npost.
Qed.

(** *** The search for a pattern that starts with a date *)

(** Where no digit stands, no date starts. *)
Lemma search_from_skip (r : regex) (P s : list char) :
  (forall off pv x u,
      is_decimal x = false -> match_at r off pv (x :: u) = None) ->
  no_digit P -> s <> [] ->
  forall off pv,
    search_from r off pv (P ++ s)
    = search_from r (off + length P) (last_of P pv) s.
Proof.
  intros H N Ns. induction P as [|x P IH]; intros off pv.
  - cbn [app length]. rewrite Nat.add_0_r. reflexivity.
  - unfold no_digit in N. simpl in N. apply andb_true_iff in N.
    destruct N as (Nx & N). apply negb_true_iff in Nx.
    cbn [app search_from length]. rewrite (H off pv x _ Nx).
    rewrite IH by exact N. rewrite last_of_cons.
    f_equal. lia.
Qed.

(** A match somewhere in the text makes the search succeed. *)
Lemma search_from_complete (r : regex) (P s : list char) :
  (forall off pv, exists m, match_at r off pv s = Some m) ->
  forall off pv, exists m, search_from r off pv (P ++ s) = Some m.
Proof.
  intros H. induction P as [|x P IH]; intros off pv.
  - destruct (H off pv) as (m & M). exists m.
    cbn [app]. destruct s; cbn [search_from]; rewrite M; reflexivity.
  - cbn [app search_from].
    destruct (match_at r off pv (x :: P ++ s)) as [m|]; [eauto|].
    apply IH.
Qed.

Lemma search_from_hit (r : regex) (off : nat) (pv : option char)
    (s : list char) (m : match_obj) :
  match_at r off pv s = Some m -> search_from r off pv s = Some m.
Proof.
  intros H. destruct s; cbn [search_from]; rewrite H; reflexivity.
Qed.

Lemma cancel_date_time_needs_digit (off : nat) (pv : option char)
    (x : char) (u : list char) :
  is_decimal x = false -> match_at cancel_date_time off pv (x :: u) = None.
Proof.
  intros H. unfold match_at, cancel_date_time. cbn [seq run].
  apply date_token_needs_digit. exact H.
Qed.

Lemma cancel_date_at_time_needs_digit (off : nat) (pv : option char)
    (x : char) (u : list char) :
  is_decimal x = false ->
  match_at cancel_date_at_time off pv (x :: u) = None.
Proof.
  intros H. unfold match_at, cancel_date_at_time. cbn [seq run].
  apply date_token_needs_digit. exact H.
Qed.

(** A pattern of the parser that is found gives a date and a time. *)
Lemma first_match_found (s : list char) :
  (exists m, search cancel_date_time s = Some m)
  \/ (exists m, search cancel_date_at_time s = Some m) ->
  exists date time,
    first_match cancel_patterns s = Ret (Some date, Some time)
    /\ date_shape date /\ hh_mm_shape time.
Proof.
  intros H. cbn [first_match cancel_patterns].
  destruct (search cancel_date_time s) as [m|] eqn:E1.
  - destruct (cancel_patterns_capture cancel_date_time s m) as (Sd & St);
      [left; reflexivity | exact E1 |].
    destruct (ensure_hh_mm_time _ St) as (t' & -> & Sh & _).
    exists (group 1 m), t'. auto.
  - destruct H as [(m & H) | (m & H)]; [discriminate|].
    rewrite H.
    destruct (cancel_patterns_capture cancel_date_at_time s m) as (Sd & St);
      [right; left; reflexivity | exact H |].
    destruct (ensure_hh_mm_time _ St) as (t' & -> & Sh & _).
    exists (group 1 m), t'. auto.
Qed.

(** *** Digits around white space *)

Lemma has_gap_no_digit (Q : list char) :
  no_digit Q -> forall st, has_gap st Q = false.
Proof.
  unfold no_digit. induction Q as [|c Q IH]; intros N st; [reflexivity|].
  simpl in N. apply andb_true_iff in N. destruct N as (Nc & N).
  apply negb_true_iff in Nc. cbn [has_gap]. rewrite Nc.
  destruct (is_space c); apply IH; exact N.
Qed.

Lemma has_gap_after_no_digit (P s : list char) :
  no_digit P -> has_gap 0 (P ++ s) = has_gap 0 s.
Proof.
  unfold no_digit. induction P as [|c P IH]; intros N; [reflexivity|].
  simpl in N. apply andb_true_iff in N. destruct N as (Nc & N).
  apply negb_true_iff in Nc. cbn [app has_gap]. rewrite Nc.
  destruct (is_space c); apply IH; exact N.
Qed.

Lemma has_gap_time_then (t s : list char) :
  time_shape t -> has_gap 0 (t ++ s) = has_gap 1 s.
Proof.
  intros (hh & mm & -> & Fh & Lh & Fm & Lm).
  repeat (rewrite <- app_assoc; cbn [app]).
  rewrite has_gap_digits by (auto; intros ->; simpl in Lh; lia).
  change (has_gap 1 (":" :: mm ++ s)) with (has_gap 0 (mm ++ s)).
  rewrite has_gap_digits by (auto; intros ->; discriminate).
  reflexivity.
Qed.

(** The two forms of the body of a cancel message, in lower case. *)
Lemma lower_body_plain (d w t : list char) :
  date_shape d -> time_shape t ->
  lower (d ++ w ++ t) = d ++ lower w ++ t.
Proof.
  intros Sd St. rewrite !lower_app, (lower_date d), (lower_time t) by auto.
  reflexivity.
Qed.

Lemma lower_body_at (d w2 at_ w3 t : list char) :
  date_shape d -> lower at_ = str "at" -> time_shape t ->
  lower (d ++ w2 ++ at_ ++ w3 ++ t)
  = d ++ lower w2 ++ str "at" ++ lower w3 ++ t.
Proof.
  intros Sd Ea St.
  rewrite !lower_app, Ea, (lower_date d), (lower_time t) by auto.
  reflexivity.
Qed.

Lemma lower_nonempty (w : list char) : w <> [] -> lower w <> [].
Proof. destruct w; [congruence | discriminate]. Qed.

(** "<date> <time>" inside any text: a date and a time are extracted,
    and they are this date and this time when no digit comes before. *)
Lemma parse_cancel_date_time (pre d w hh mm post : list char) :
  date_shape d -> forallb is_space w = true -> w <> [] ->
  all_decimal hh -> (1 <= length hh <= 2)%nat ->
  all_decimal mm -> length mm = 2%nat ->
  (exists date time,
      parse_cancel_message (pre ++ (d ++ w ++ hh ++ ":" :: mm) ++ post)
      = Ret (Some date, Some time)
      /\ date_shape date /\ hh_mm_shape time)
  /\ (no_digit pre ->
      parse_cancel_message (pre ++ (d ++ w ++ hh ++ ":" :: mm) ++ post)
      = Ret (Some d, Some (two_digits hh ++ ":" :: mm))).
Proof.
  intros Sd Fw Nw Fh Lh Fm Lm.
  pose proof (time_shape_parts hh mm Fh Lh Fm Lm) as St.
  set (t := hh ++ ":" :: mm) in *.
  assert (Fw' : forallb is_space (lower w) = true)
    by (rewrite lower_spaces; exact Fw).
  pose proof (lower_nonempty w Nw) as Nw'.
  destruct (shaped_body d (lower w) t Sd St) as (c & s & z & Eb & Hc & Hz).
  rewrite <- (lower_body_plain d w t Sd St) in Eb.
  destruct (cancel_normal_form pre (d ++ w ++ t) post c s z Eb Hc Hz)
    as (P & Q & EN & NP & _).
  unfold parse_cancel_message. rewrite EN.
  rewrite (lower_body_plain d w t Sd St).
  replace ((d ++ lower w ++ t) ++ Q) with (d ++ lower w ++ t ++ Q)
    by (repeat rewrite <- app_assoc; reflexivity).
  split.
  - apply first_match_found. left. unfold search.
    apply search_from_complete. intros off pv.
    destruct (match_cancel_date_time_at off d (lower w) t Q pv)
      as (m & M & _); eauto.
  - intros Npre. cbn [first_match cancel_patterns]. unfold search.
    rewrite search_from_skip;
      [| exact cancel_date_time_needs_digit | exact (NP Npre)
       | destruct (date_shape_head d (lower w ++ t ++ Q) Sd)
           as (x & r & -> & _); discriminate].
    destruct (match_cancel_date_time_at (0 + length P) d (lower w) t Q
                (last_of P None)) as (m & M & G1 & G2); auto.
    rewrite (search_from_hit _ _ _ _ _ M), G1, G2.
    unfold t. rewrite ensure_hh_mm_value by auto. reflexivity.
Qed.

(** "<date> at <time>" inside any text: a date and a time are
    extracted, and they are this date and this time when no digit comes
    before or after. *)
Lemma parse_cancel_date_at_time (pre d w2 at_ w3 hh mm post : list char) :
  date_shape d -> forallb is_space w2 = true -> w2 <> [] ->
  lower at_ = str "at" ->
  forallb is_space w3 = true -> w3 <> [] ->
  all_decimal hh -> (1 <= length hh <= 2)%nat ->
  all_decimal mm -> length mm = 2%nat ->
  (exists date time,
      parse_cancel_message
        (pre ++ (d ++ w2 ++ at_ ++ w3 ++ hh ++ ":" :: mm) ++ post)
      = Ret (Some date, Some time)
      /\ date_shape date /\ hh_mm_shape time)
  /\ (no_digit pre -> no_digit post ->
      parse_cancel_message
        (pre ++ (d ++ w2 ++ at_ ++ w3 ++ hh ++ ":" :: mm) ++ post)
      = Ret (Some d, Some (two_digits hh ++ ":" :: mm))).
Proof.
  intros Sd F2 N2 Ea F3 N3 Fh Lh Fm Lm.
  pose proof (time_shape_parts hh mm Fh Lh Fm Lm) as St.
  set (t := hh ++ ":" :: mm) in *.
  assert (F2' : forallb is_space (lower w2) = true)
    by (rewrite lower_spaces; exact F2).
  assert (F3' : forallb is_space (lower w3) = true)
    by (rewrite lower_spaces; exact F3).
  pose proof (lower_nonempty w2 N2) as N2'.
  pose proof (lower_nonempty w3 N3) as N3'.
  destruct (shaped_body d (lower w2 ++ str "at" ++ lower w3) t Sd St)
    as (c & s & z & Eb & Hc & Hz).
  repeat rewrite <- app_assoc in Eb.
  rewrite <- (lower_body_at d w2 at_ w3 t Sd Ea St) in Eb.
  destruct (cancel_normal_form pre (d ++ w2 ++ at_ ++ w3 ++ t) post c s z
              Eb Hc Hz) as (P & Q & EN & NP & NQ).
  unfold parse_cancel_message. rewrite EN.
  rewrite (lower_body_at d w2 at_ w3 t Sd Ea St).
  replace ((d ++ lower w2 ++ str "at" ++ lower w3 ++ t) ++ Q)
    with (d ++ lower w2 ++ str "at" ++ lower w3 ++ t ++ Q)
    by (repeat rewrite <- app_assoc; reflexivity).
  split.
  - apply first_match_found. right. unfold search.
    apply search_from_complete. intros off pv.
    destruct (match_cancel_date_at_time_at off d (lower w2) (lower w3) t Q pv)
      as (m & M & _); eauto.
  - intros Npre Npost. cbn [first_match cancel_patterns].
    assert (G : search cancel_date_time
                  (P ++ d ++ lower w2 ++ str "at" ++ lower w3 ++ t ++ Q)
                = None).
    { destruct (search cancel_date_time _) as [m|] eqn:E; [|reflexivity].
      apply search_cancel_date_time_gap in E.
      rewrite has_gap_after_no_digit in E by exact (NP Npre).
      rewrite has_gap_date in E by auto.
      rewrite has_gap_spaces in E by auto.
      change (has_gap (if (1 =? 0)%nat then 0%nat else 2%nat)
                      (str "at" ++ lower w3 ++ t ++ Q))
        with (has_gap 0 (lower w3 ++ t ++ Q)) in E.
      rewrite has_gap_spaces in E by auto.
      change (if (0 =? 0)%nat then 0%nat else 2%nat) with 0%nat in E.
      rewrite has_gap_time_then in E by auto.
      rewrite has_gap_no_digit in E by exact (NQ Npost). discriminate. }
    rewrite G. unfold search.
    rewrite search_from_skip;
      [| exact cancel_date_at_time_needs_digit | exact (NP Npre)
       | destruct (date_shape_head d
                     (lower w2 ++ str "at" ++ lower w3 ++ t ++ Q) Sd)
           as (x & r & -> & _); discriminate].
    destruct (match_cancel_date_at_time_at (0 + length P) d (lower w2)
                (lower w3) t Q (last_of P None))
      as (m & M & G1 & G2); auto.
    rewrite (search_from_hit _ _ _ _ _ M), G1, G2.
    unfold t. rewrite ensure_hh_mm_value by auto. reflexivity.
Qed.

(** *** From what is extracted back to the message *)

(** The text a pattern of the parser matches. *)
Lemma cancel_patterns_text (pattern : regex) (s : list char)
    (m : match_obj) :
  In pattern cancel_patterns -> search pattern s = Some m ->
  exists pre w,
    s = pre ++ group 1 m ++ w ++ group 2 m ++ m_after m
    /\ date_time_gap w.
Proof.
  intros Hin H. apply search_sound in H.
  destruct H as (pre & pv & st' & E & _ & M & G).
  destruct m as [m0 mt mg mp ma]. unfold group.
  cbn [m_text m_groups m_after m_start m_prev] in *. subst mg.
  destruct Hin as [<- | [<- | []]];
    unfold cancel_date_time, cancel_date_at_time in M;
    cbn [seq matches lit str list_ascii_of_string map chr] in M.
  - destruct M as (t1 & st1 & t2 & (sa & Md & ->)
                   & (t3 & st2 & t4 & Ms & (sb & Mt & ->) & ->) & ->).
    apply matches_date_token in Md. destruct Md as (Sd & Gd).
    unfold spaces in Ms. cbn [matches] in Ms. rep_inv Ms.
    apply matches_time_token in Mt. destruct Mt as (St & Gt).
    cbn [groups set_group] in *. rewrite Gt. cbn [lookup Nat.eqb].
    exists pre, t3. split.
    + rewrite E. repeat rewrite <- app_assoc. reflexivity.
    + left. split; [assumption|]. intros ->. simpl in L. lia.
  - destruct M as (t1 & st1 & t2 & (sa & Md & ->)
                   & (t3 & st2 & t4 & Ms
                      & (t5 & st3 & t6 & Mat
                         & (t7 & st4 & t8 & Ms'
                            & (sb & Mt & ->) & ->) & ->) & ->) & ->).
    apply matches_date_token in Md. destruct Md as (Sd & Gd).
    unfold spaces in Ms, Ms'. cbn [matches] in Ms, Ms'. rep_inv Ms.
    destruct Mat as (u1 & su & u2 & Ma & Mb & ->).
    chr_inv Ma. chr_inv Mb. rep_inv Ms'.
    apply matches_time_token in Mt. destruct Mt as (St & Gt).
    cbn [groups set_group] in *. rewrite Gt. cbn [lookup Nat.eqb].
    exists pre, (t3 ++ str "at" ++ t7). split.
    + rewrite E. repeat rewrite <- app_assoc. reflexivity.
    + right. exists t3, (str "at"), t7.
      repeat split; try assumption; intros ->; simpl in *; lia.
Qed.

Lemma drop_while_suffix (p : char -> bool) (t : list char) :
  exists a, t = a ++ drop_while p t.
Proof.
  induction t as [|c t (a & IH)]; [exists []; reflexivity|].
  cbn [drop_while]. destruct (p c).
  - exists (c :: a). cbn [app]. rewrite <- IH. reflexivity.
  - exists []. reflexivity.
Qed.

Lemma strip_by_infix (p : char -> bool) (t : list char) :
  exists a b, t = a ++ strip_by p t ++ b.
Proof.
  unfold strip_by.
  destruct (drop_while_suffix p t) as (a & Ea).
  destruct (drop_while_suffix p (rev (drop_while p t))) as (b & Eb).
  exists a, (rev b). rewrite <- rev_app_distr, <- Eb, rev_involutive.
  exact Ea.
Qed.

(** The text the parser searches is a part of the message in lower
    case. *)
Lemma cancel_searched_part (message : list char) :
  exists a b,
    lower message
    = a ++ sub cancel_prefix [] (strip (lower message)) ++ b.
Proof.
  destruct (strip_by_infix is_space (lower message)) as (a & b & E).
  fold (strip (lower message)) in E.
  destruct (sub_cancel_split (strip (lower message))) as (removed & Er & _).
  exists (a ++ removed), b.
  rewrite <- app_assoc, (app_assoc removed), <- Er. exact E.
Qed.

Lemma lower_char_fixed (c : char) :
  is_decimal (lower_char c) = true \/ lower_char c = "-"
  \/ lower_char c = ":" ->
  lower_char c = c.
Proof.
  each_char c; vm_compute; intros [H | [H | H]];
    try reflexivity; discriminate.
Qed.

Lemma lower_fixed (u : list char) :
  Forall (fun x => is_decimal x = true \/ x = "-" \/ x = ":") (lower u) ->
  lower u = u.
Proof.
  unfold lower. induction u as [|c u IH]; intros F; [reflexivity|].
  cbn [map] in *. inversion F as [|? ? Hc Hu]; subst.
  rewrite (lower_char_fixed c Hc), IH by exact Hu. reflexivity.
Qed.

Lemma decimal_fixed (t : list char) :
  all_decimal t ->
  Forall (fun x => is_decimal x = true \/ x = "-" \/ x = ":") t.
Proof.
  unfold all_decimal. rewrite forallb_forall, Forall_forall. auto.
Qed.

Lemma date_fixed (d : list char) :
  date_shape d ->
  Forall (fun x => is_decimal x = true \/ x = "-" \/ x = ":") d.
Proof.
  intros (dd & mm & yy & -> & Fd & _ & Fm & _ & Fy & _).
  apply Forall_app; split; [auto using decimal_fixed|].
  apply Forall_cons; [auto|].
  apply Forall_app; split; [auto using decimal_fixed|].
  apply Forall_cons; [auto | auto using decimal_fixed].
Qed.

Lemma time_fixed (t : list char) :
  time_shape t ->
  Forall (fun x => is_decimal x = true \/ x = "-" \/ x = ":") t.
Proof.
  intros (hh & mm & -> & Fh & _ & Fm & _).
  apply Forall_app; split; [auto using decimal_fixed|].
  apply Forall_cons; [auto | auto using decimal_fixed].
Qed.

Lemma lower_char_idem (c : char) :
  lower_char (lower_char c) = lower_char c.
Proof. each_char c; reflexivity. Qed.

Lemma lower_idem (u : list char) : lower (lower u) = lower u.
Proof.
  unfold lower. rewrite map_map. apply map_ext. exact lower_char_idem.
Qed.

Lemma lower_split (u a b : list char) :
  lower u = a ++ b ->
  exists a' b', u = a' ++ b' /\ lower a' = a /\ lower b' = b.
Proof. unfold lower. apply map_eq_app. Qed.

Lemma blank_lower (w : list char) : blank (lower w) -> blank w.
Proof.
  intros (F & N). rewrite lower_spaces in F. split; [exact F|].
  intros ->. apply N. reflexivity.
Qed.

Lemma date_time_gap_lower (w : list char) :
  date_time_gap (lower w) -> date_time_gap w.
Proof.
  intros [B | (w1 & at_ & w2 & E & B1 & Ea & B2)].
  - left. apply blank_lower. exact B.
  - right.
    destruct (lower_split _ _ _ E) as (w1' & r & -> & E1 & Er).
    destruct (lower_split _ _ _ Er) as (at' & w2' & -> & E2 & E3).
    subst w1 at_ w2. exists w1', at', w2'.
    rewrite lower_idem in Ea.
    repeat split; auto using blank_lower; apply blank_lower; assumption.
Qed.

(** What the parser extracts stands in the message: the date as it is
    extracted, then white space with or without "at", then the time,
    its hour on one or two digits. *)
Lemma parse_cancel_origin (message date time : list char) :
  parse_cancel_message message = Ret (Some date, Some time) ->
  exists pre w hh mm post,
    message = pre ++ date ++ w ++ (hh ++ ":" :: mm) ++ post
    /\ date_shape date /\ date_time_gap w
    /\ all_decimal hh /\ (1 <= length hh <= 2)%nat
    /\ all_decimal mm /\ length mm = 2%nat
    /\ time = two_digits hh ++ ":" :: mm.
Proof.
  unfold parse_cancel_message. intros H.
  destruct (cancel_searched_part message) as (a & b & EL).
  set (N := sub cancel_prefix [] (strip (lower message))) in *.
  assert (F : exists p m,
             In p cancel_patterns /\ search p N = Some m
             /\ date = group 1 m /\ ensure_hh_mm (group 2 m) = Ret time).
  { cbn [first_match cancel_patterns] in H.
    destruct (search cancel_date_time N) as [m|] eqn:E1.
    - exists cancel_date_time, m.
      destruct (ensure_hh_mm (group 2 m)); cbn [bind] in H;
        [|discriminate].
      injection H as <- <-. repeat split; auto. left; reflexivity.
    - destruct (search cancel_date_at_time N) as [m|] eqn:E2;
        [|discriminate].
      exists cancel_date_at_time, m.
      destruct (ensure_hh_mm (group 2 m)); cbn [bind] in H;
        [|discriminate].
      injection H as <- <-. repeat split; auto. right; left; reflexivity. }
  destruct F as (p & m & Hin & Es & -> & Ee).
  destruct (cancel_patterns_capture p N m Hin Es) as (Sd & St).
  destruct (cancel_patterns_text p N m Hin Es) as (pre & w & EN & Gw).
  pose proof (time_fixed _ St) as Ft.
  destruct St as (hh & mm & Et & Fh & Lh & Fm & Lm).
  rewrite Et in Ee, EN, Ft. rewrite ensure_hh_mm_value in Ee by assumption.
  injection Ee as <-.
  rewrite EN in EL.
  replace (a ++ (pre ++ group 1 m ++ w ++ (hh ++ ":" :: mm) ++ m_after m)
           ++ b)
    with ((a ++ pre) ++ group 1 m ++ w ++ (hh ++ ":" :: mm)
          ++ (m_after m ++ b)) in EL
    by (repeat rewrite <- app_assoc; reflexivity).
  destruct (lower_split _ _ _ EL) as (X & R1 & -> & _ & E1).
  destruct (lower_split _ _ _ E1) as (D & R2 & -> & ED & E2).
  destruct (lower_split _ _ _ E2) as (W & R3 & -> & EW & E3).
  destruct (lower_split _ _ _ E3) as (T & Y & -> & ET & _).
  assert (D = group 1 m) as ->.
  { rewrite <- ED. symmetry. apply lower_fixed. rewrite ED.
    apply date_fixed. exact Sd. }
  assert (T = hh ++ ":" :: mm) as ->.
  { rewrite <- ET. symmetry. apply lower_fixed. rewrite ET. exact Ft. }
  exists X, W, hh, mm, Y. repeat split; auto; try lia.
  apply date_time_gap_lower. rewrite EW. exact Gw.
Qed.

(** C6 (amended).  A cancel message that contains a date DD-MM-YYYY,
    then white space, with or without the word "at" and more white
    space, then a time H(H):MM with two minute digits, gives a date and
    a time, whatever else the message holds.  They are this date and
    this time, the hour on two digits, when no digit stands before the
    date and, for the form with "at", none after the time; with other
    digits around, another such pair of the message may be the one that
    is found.  What the parser gives always stands in the message in
    one of the two forms.  "Cancel 25-08-2025 at 9:05" gives
    "25-08-2025" and "09:05"; the minute is never padded, so "Cancel
    25-08-2025 at 9:5" gives no date and no time.  Whatever the
    message, the parser returns both fields or none. *)
Theorem cancel_parser_extracts :
  (forall pre d w hh mm post,
      date_shape d -> date_time_gap w ->
      all_decimal hh -> (1 <= length hh <= 2)%nat ->
      all_decimal mm -> length mm = 2%nat ->
      exists date time,
        parse_cancel_message (pre ++ d ++ w ++ (hh ++ ":" :: mm) ++ post)
        = Ret (Some date, Some time)
        /\ date_shape date /\ hh_mm_shape time)
  /\ (forall pre d w hh mm post,
         date_shape d -> blank w ->
         all_decimal hh -> (1 <= length hh <= 2)%nat ->
         all_decimal mm -> length mm = 2%nat ->
         no_digit pre ->
         parse_cancel_message (pre ++ d ++ w ++ (hh ++ ":" :: mm) ++ post)
         = Ret (Some d, Some (two_digits hh ++ ":" :: mm)))
  /\ (forall pre d w hh mm post,
         date_shape d -> date_time_gap w ->
         all_decimal hh -> (1 <= length hh <= 2)%nat ->
         all_decimal mm -> length mm = 2%nat ->
         no_digit pre -> no_digit post ->
         parse_cancel_message (pre ++ d ++ w ++ (hh ++ ":" :: mm) ++ post)
         = Ret (Some d, Some (two_digits hh ++ ":" :: mm)))
  /\ (forall message date time,
         parse_cancel_message message = Ret (Some date, Some time) ->
         exists pre w hh mm post,
           message = pre ++ date ++ w ++ (hh ++ ":" :: mm) ++ post
           /\ date_shape date /\ date_time_gap w
           /\ all_decimal hh /\ (1 <= length hh <= 2)%nat
           /\ all_decimal mm /\ length mm = 2%nat
           /\ time = two_digits hh ++ ":" :: mm)
  /\ parse_cancel_message (str "Cancel 25-08-2025 at 9:05")
     = Ret (Some (str "25-08-2025"), Some (str "09:05"))
  /\ parse_cancel_message (str "Cancel 25-08-2025 at 9:5")
     = Ret (None, None)
  /\ parse_cancel_message
       (str "cancel 25-08-2025 at 10:00 or 26-08-2025 11:00")
     = Ret (Some (str "26-08-2025"), Some (str "11:00"))
  /\ (forall message,
         exists r,
           parse_cancel_message message = Ret r
           /\ (r = (None, None)
               \/ exists date time,
                    r = (Some date, Some time)
                    /\ date_shape date /\ hh_mm_shape time)).
Proof.
  assert (B : forall pre d w1 at_ w2 t post : list char,
             pre ++ d ++ (w1 ++ at_ ++ w2) ++ t ++ post
             = pre ++ (d ++ w1 ++ at_ ++ w2 ++ t) ++ post)
    by (intros; repeat rewrite <- app_assoc; reflexivity).
  assert (C : forall pre d w t post : list char,
             pre ++ d ++ w ++ t ++ post = pre ++ (d ++ w ++ t) ++ post)
    by (intros; repeat rewrite <- app_assoc; reflexivity).
  split; [|split; [|split; [|split; [|split; [|split; [|split]]]]]].
  5, 6, 7: vm_compute; reflexivity.
  - intros pre d w hh mm post Sd
           [(Fw & Nw) | (w1 & at_ & w2 & -> & (F1 & N1) & Ea & (F2 & N2))]
           Fh Lh Fm Lm.
    + rewrite C. apply parse_cancel_date_time; assumption.
    + rewrite B. apply parse_cancel_date_at_time; assumption.
  - intros pre d w hh mm post Sd (Fw & Nw) Fh Lh Fm Lm Npre.
    rewrite C. apply parse_cancel_date_time; assumption.
  - intros pre d w hh mm post Sd
           [(Fw & Nw) | (w1 & at_ & w2 & -> & (F1 & N1) & Ea & (F2 & N2))]
           Fh Lh Fm Lm Npre Npost.
    + rewrite C. apply parse_cancel_date_time; assumption.
    + rewrite B. apply parse_cancel_date_at_time; assumption.
  - exact parse_cancel_origin.
  - apply parser_shapes_cancel.
Qed.

(** "cancel my appointment on 25-08-2025 10:00 please" and "Cancel
    appointment 25-08-2025 at 9:05 thanks". *)
Lemma cancel_parser_extracts_witness :
  parse_cancel_message
    (str "cancel my appointment on " ++ str "25-08-2025" ++ str " "
     ++ (str "10" ++ ":" :: str "00") ++ str " please")
  = Ret (Some (str "25-08-2025"), Some (str "10:00"))
  /\ parse_cancel_message
       (str "Cancel appointment " ++ str "25-08-2025"
        ++ (["009"] ++ str "AT" ++ str "  ")
        ++ (str "9" ++ ":" :: str "05") ++ str " thanks")
     = Ret (Some (str "25-08-2025"), Some (str "09:05")).
Proof.
  assert (Sd : date_shape (str "25-08-2025")).
  { exists (str "25"), (str "08"), (str "2025"). repeat split. }
  split.
  - apply (proj1 (proj2 cancel_parser_extracts)
             (str "cancel my appointment on ") (str "25-08-2025") (str " ")
             (str "10") (str "00") (str " please"));
      try reflexivity; try exact Sd.
    + split; [reflexivity | discriminate].
    + simpl. lia.
  - apply (proj1 (proj2 (proj2 cancel_parser_extracts))
             (str "Cancel appointment ") (str "25-08-2025")
             (["009"] ++ str "AT" ++ str "  ")
             (str "9") (str "05") (str " thanks"));
      try reflexivity; try exact Sd.
    + right. exists ["009"], (str "AT"), (str "  ").
      repeat split; discriminate.
    + simpl. lia.
Defined.

(** C6 as stated fails on its own example: with one minute digit
    nothing is extracted. *)
Lemma cancel_one_minute_digit :
  parse_cancel_message (str "Cancel 25-08-2025 at 9:5")
  <> Ret (Some (str "25-08-2025"), Some (str "09:05")).
Proof. vm_compute. discriminate. Qed.

(** A booked appointment is cancelled and its slot is free again. *)
Lemma cancel_frees_slot_witness :
  let t0 := mk_datetime 2025 8 20 10 0 0 0 in
  let clk := mk_clock t0 t0 t0 in
  let phone := str "whatsapp:+15550100" in
  let db := replay [Book clk (str "Book Jane Roe 20-08-2025 12:00") phone]
                   [] in
  exists l1 a l2,
    db = l1 ++ a :: l2
    /\ phone_number a = phone /\ date a = str "20-08-2025"
    /\ time a = str "12:00" /\ status a = confirmed
    /\ handle_cancel_appointment db (str "Cancel 20-08-2025 12:00") phone
       = Ret (AppointmentCancelled (set_status cancelled a),
              l1 ++ set_status cancelled a :: l2)
    /\ is_slot_available (l1 ++ set_status cancelled a :: l2)
                         (str "20-08-2025") (str "12:00") None = true.
Proof.
  intros t0 clk phone db.
  apply (proj1 (cancel_frees_slot
                  [Book clk (str "Book Jane Roe 20-08-2025 12:00") phone]
                  (str "Cancel 20-08-2025 12:00") phone
                  (str "20-08-2025") (str "12:00") eq_refl)).
  exists (mk_appointment 1 (str "Jane Roe") phone (str "20-08-2025")
                         (str "12:00") confirmed t0).
  split; [left; reflexivity | repeat split].
Defined.

(** ** What the validator accepts *)

Lemma range_facts (c : char) :
  (range "0" "9" c = ascii_digit c)
  /\ (range "0" "1" c = true -> ascii_digit c = true)
  /\ (range "0" "3" c = true -> ascii_digit c = true)
  /\ (range "0" "5" c = true -> ascii_digit c = true).
Proof.
  split; [reflexivity|].
  each_char c; vm_compute; repeat split; auto.
Qed.

Lemma split_line_end (sep : char) (t nl : list char) :
  is_decimal sep = false -> char_eqb "010" sep = false ->
  all_decimal t -> line_end nl ->
  split sep (t ++ nl) = [t ++ nl].
Proof.
  intros Hs Hn F [-> | ->].
  - rewrite app_nil_r. apply split_decimal; auto.
  - unfold all_decimal in F. induction t as [|c t IH]; cbn [split app].
    + rewrite Hn. reflexivity.
    + simpl in F. apply andb_true_iff in F. destruct F as [Hc F].
      destruct (char_eqb c sep) eqn:E.
      * apply char_eqb_eq in E. congruence.
      * rewrite IH by auto. reflexivity.
Qed.

Lemma int_line_end (t nl : list char) :
  all_decimal t -> t <> [] -> line_end nl ->
  int (t ++ nl) = Ret (decimal_value t).
Proof.
  intros F N [-> | ->].
  - rewrite app_nil_r. apply int_decimal; auto.
  - rewrite <- (int_decimal t F N). unfold int, literal_value.
    replace (strip_by is_int_space (t ++ ["010"]))
      with (strip_by is_int_space t); [reflexivity|].
    unfold strip_by.
    assert (D : forall u, all_decimal t ->
                drop_while is_int_space (t ++ u) = t ++ u).
    { intros u _. destruct t as [|c t]; [congruence|].
      unfold all_decimal in F. simpl in F.
      apply andb_true_iff in F. destruct F as [Hc _].
      destruct (decimal_facts c Hc) as (_ & E & _).
      simpl. rewrite E. reflexivity. }
    rewrite (D ["010"] F).
    rewrite <- (app_nil_r t) at 1. rewrite (D [] F), app_nil_r.
    rewrite rev_app_distr. reflexivity.
Qed.

(** A match of the date pattern: the text is DD-MM-YYYY, possibly with a
    line feed after it. *)
Lemma date_format_match (s : list char) (m : match_obj) :
  match_ date_format_pattern s = Some m ->
  exists a b c d e f g h nl,
    s = date_text a b c d e f g h ++ nl /\ line_end nl
    /\ all_decimal [a; b; c; d; e; f; g; h]
    /\ group 1 m = [a; b] /\ group 2 m = [c; d]
    /\ group 3 m = [e; f; g; h].
Proof.
  intros H. apply match_at_sound in H.
  destruct H as (st' & M & G & Aft & _ & _ & E).
  destruct m as [m0 mt mg mp ma]. unfold group.
  cbn [m_text m_groups m_after m_start m_prev] in *. subst mg.
  unfold date_format_pattern, digits in M. cbn [seq matches] in M.
  destruct M as (t0 & s0 & r0 & (-> & -> & _)
                 & (g1 & s1 & r1 & (sa & M1 & ->)
                    & (t2 & s2 & r2 & M2
                       & (g2 & s3 & r3 & (sb & M3 & ->)
                          & (t4 & s4 & r4 & M4
                             & (g3 & s5 & r5 & (sc & M5 & ->)
                                & (-> & -> & Hend) & ->) & ->) & ->) & ->)
                    & ->) & ->).
  rep_inv M1. chr_inv M2. rep_inv M3. chr_inv M4. rep_inv M5.
  cbn [set_group prev rest groups] in *.
  destruct g1 as [|a [|b [|? ?]]]; simpl in L, U; try lia.
  destruct g2 as [|c [|d [|? ?]]]; simpl in L0, U0; try lia.
  destruct g3 as [|e [|f [|g [|h [|? ?]]]]]; simpl in L1, U1; try lia.
  exists a, b, c, d, e, f, g, h, ma.
  subst s. cbn [app] in *.
  repeat split; auto.
  - subst ma. exact Hend.
  - unfold all_decimal. simpl in *.
    rewrite !andb_true_r in *. rewrite !andb_true_iff in *.
    tauto.
Qed.

Lemma date_format_match_conv (a b c d e f g h : char) (nl : list char) :
  all_decimal [a; b; c; d; e; f; g; h] -> line_end nl ->
  exists m,
    match_ date_format_pattern (date_text a b c d e f g h ++ nl) = Some m
    /\ group 1 m = [a; b] /\ group 2 m = [c; d]
    /\ group 3 m = [e; f; g; h].
Proof.
  intros F E. unfold all_decimal in F. simpl in F.
  rewrite !andb_true_r in F. rewrite !andb_true_iff in F.
  destruct F as (Ha & Hb & Hc & Hd & He & Hf & Hg & Hh).
  assert (A2 : forall x y, is_decimal x = true -> is_decimal y = true ->
                           all_decimal [x; y]).
  { intros x y Hx Hy. unfold all_decimal. simpl. rewrite Hx, Hy. reflexivity. }
  assert (A4 : all_decimal [e; f; g; h]).
  { unfold all_decimal. simpl. rewrite He, Hf, Hg, Hh. reflexivity. }
  unfold match_, match_at, date_format_pattern. cbn [seq run prev].
  change (date_text a b c d e f g h ++ nl)
    with ([a; b] ++ "-" :: [c; d] ++ "-" :: [e; f; g; h] ++ nl).
  rewrite run_digits by auto. unfold set_group at 1. cbn [prev rest groups].
  rewrite run_chr.
  rewrite run_digits by auto. unfold set_group at 1. cbn [prev rest groups].
  rewrite run_chr.
  rewrite run_digits by auto. unfold set_group. cbn [prev rest groups].
  destruct E as [-> | ->]; cbn [char_eqb Bool.eqb];
    (eexists; split; [reflexivity | unfold group; simpl; auto]).
Qed.

(** A match of the time pattern: the text is H:MM or HH:MM, possibly
    with a line feed after it. *)
Lemma time_format_match (s : list char) (m : match_obj) :
  match_ time_format_pattern s = Some m ->
  exists hh mi nl,
    s = hh ++ ":" :: mi ++ nl /\ line_end nl
    /\ ascii_digits hh /\ (1 <= length hh <= 2)%nat
    /\ ascii_digits mi /\ length mi = 2%nat
    /\ group 1 m = hh /\ group 2 m = mi.
Proof.
  intros H. apply match_at_sound in H.
  destruct H as (st' & M & G & Aft & _ & _ & E).
  destruct m as [m0 mt mg mp ma]. unfold group.
  cbn [m_text m_groups m_after m_start m_prev] in *. subst mg.
  unfold time_format_pattern, opt in M. cbn [seq matches] in M.
  destruct M as (t0 & s0 & r0 & (-> & -> & _)
                 & (g1 & s1 & r1 & (sa & M1 & ->)
                    & (t2 & s2 & r2 & M2
                       & (g2 & s3 & r3 & (sb & M3 & ->)
                          & (-> & -> & Hend) & ->) & ->) & ->) & ->).
  assert (H1 : ascii_digits g1 /\ (1 <= length g1 <= 2)%nat
               /\ groups sa = []).
  { destruct M1 as [(u1 & su & u2 & Mo & (x & Px & -> & -> & _) & ->)
                   | (u1 & su & u2 & (y & Py & -> & -> & _)
                      & (x & Px & -> & -> & _) & ->)].
    - rep_inv Mo. cbn [groups].
      change (range "0" "9" x) with (ascii_digit x) in Px.
      split; [|split; [rewrite length_app; simpl; lia | reflexivity]].
      unfold ascii_digits. rewrite forallb_app. simpl. rewrite Px.
      rewrite andb_true_r.
      rewrite forallb_forall in *. intros z Iz.
      apply (proj1 (proj2 (range_facts z))). auto.
    - apply char_eqb_eq in Py. subst y. cbn [groups].
      split; [|split; [simpl; lia | reflexivity]].
      unfold ascii_digits. simpl.
      rewrite (proj1 (proj2 (proj2 (range_facts x))) Px). reflexivity. }
  destruct H1 as (F1 & L1 & G1).
  chr_inv M2.
  destruct M3 as (u1 & su & u2 & (x & Px & -> & -> & _)
                  & (y & Py & -> & -> & _) & ->).
  change (range "0" "9" y) with (ascii_digit y) in Py.
  cbn [set_group prev rest groups] in *.
  exists g1, [x; y], ma. subst s. rewrite G1.
  repeat (rewrite <- app_assoc; cbn [app]).
  repeat split; auto; try lia.
  - subst ma. exact Hend.
  - unfold ascii_digits. simpl.
    rewrite (proj2 (proj2 (proj2 (range_facts x))) Px), Py. reflexivity.
Qed.

Lemma decimal_value_one (a : char) : decimal_value [a] = digit_value a.
Proof. unfold decimal_value. cbn [fold_left]. lia. Qed.

Lemma all_decimal_two (a b : char) :
  all_decimal [a; b] -> is_decimal a = true /\ is_decimal b = true.
Proof.
  unfold all_decimal. simpl. rewrite andb_true_r, andb_true_iff. tauto.
Qed.

Lemma ascii_digits_two (a b : char) :
  ascii_digits [a; b] -> ascii_digit a = true /\ ascii_digit b = true.
Proof.
  unfold ascii_digits. simpl. rewrite andb_true_r, andb_true_iff. tauto.
Qed.

(** The time texts the validator accepts are few: each is checked by
    running the validator. *)
Lemma time_format_accepts (hh mi nl : list char) :
  ascii_digits hh -> (1 <= length hh <= 2)%nat ->
  ascii_digits mi -> length mi = 2%nat -> line_end nl ->
  (9 <= decimal_value hh <= 16)%Z ->
  decimal_value mi = 0%Z \/ decimal_value mi = 30%Z ->
  is_valid_time_format (hh ++ ":" :: mi ++ nl) = Ret true.
Proof.
  intros Fh Lh Fm Lm E Rh Rm.
  assert (Em : mi = str "00" \/ mi = str "30").
  { destruct mi as [|c [|d [|? ?]]]; simpl in Lm; try lia.
    destruct (ascii_digits_two c d Fm) as (Hc & Hd).
    destruct (decimal_value_bounds2 c d Hc Hd) as (_ & P).
    destruct Rm as [R | R]; rewrite R in P; [left | right];
      symmetry; exact P. }
  assert (Eh : In hh (map str ["9"; "09"; "10"; "11"; "12"; "13"; "14";
                               "15"; "16"]%string)).
  { destruct hh as [|a [|b [|? ?]]]; simpl in Lh; try lia.
    - unfold ascii_digits in Fh. simpl in Fh. rewrite andb_true_r in Fh.
      destruct (decimal_digit a Fh) as (Ra & Ea).
      rewrite decimal_value_one in Rh.
      assert (V : digit_value a = 9%Z) by lia.
      rewrite V in Ea. subst a. left. reflexivity.
    - destruct (ascii_digits_two a b Fh) as (Ha & Hb).
      destruct (decimal_value_bounds2 a b Ha Hb) as (_ & P).
      set (v := decimal_value [a; b]) in *.
      assert (V : In v [9; 10; 11; 12; 13; 14; 15; 16]%Z)
        by (simpl; lia).
      rewrite <- P. simpl in V.
      repeat (destruct V as [<- | V]; [simpl; tauto|]). destruct V. }
  simpl in Eh.
  destruct E as [-> | ->]; destruct Em as [-> | ->];
    repeat (destruct Eh as [<- | Eh]; [vm_compute; reflexivity|]);
    destruct Eh.
Qed.

Lemma time_format_iff (s : list char) :
  (exists ok, is_valid_time_format s = Ret ok)
  /\ (is_valid_time_format s = Ret true
      <-> exists hh mi nl,
            s = hh ++ ":" :: mi ++ nl /\ line_end nl
            /\ ascii_digits hh /\ (1 <= length hh <= 2)%nat
            /\ ascii_digits mi /\ length mi = 2%nat
            /\ (9 <= decimal_value hh <= 16)%Z
            /\ (decimal_value mi = 0%Z \/ decimal_value mi = 30%Z)).
Proof.
  assert (Fwd : forall m, match_ time_format_pattern s = Some m ->
                exists hh mi nl,
                  s = hh ++ ":" :: mi ++ nl /\ line_end nl
                  /\ ascii_digits hh /\ (1 <= length hh <= 2)%nat
                  /\ ascii_digits mi /\ length mi = 2%nat
                  /\ is_valid_time_format s
                     = Ret (negb ((decimal_value hh <? 9)%Z
                                  || (17 <=? decimal_value hh)%Z)
                            && ((decimal_value mi =? 0)%Z
                                || (decimal_value mi =? 30)%Z))).
  { intros m Hm. unfold is_valid_time_format. rewrite Hm.
    apply time_format_match in Hm.
    destruct Hm as (hh & mi & nl & E & En & Fh & Lh & Fm & Lm & G1 & G2).
    exists hh, mi, nl. repeat split; auto; try lia.
    rewrite G1, G2. unfold unpack2_int.
    rewrite !int_decimal; auto using ascii_digits_decimal.
    - cbn [bind].
      destruct ((decimal_value hh <? 9)%Z || (17 <=? decimal_value hh)%Z);
        [reflexivity|].
      destruct ((decimal_value mi =? 0)%Z || (decimal_value mi =? 30)%Z);
        reflexivity.
    - intros ->. discriminate.
    - intros ->. simpl in Lh. lia. }
  split.
  - destruct (match_ time_format_pattern s) as [m|] eqn:Hm.
    + destruct (Fwd m eq_refl) as (hh & mi & nl & _ & _ & _ & _ & _ & _ & R).
      eauto.
    + unfold is_valid_time_format. rewrite Hm. eauto.
  - split.
    + intros H. destruct (match_ time_format_pattern s) as [m|] eqn:Hm.
      * destruct (Fwd m eq_refl)
          as (hh & mi & nl & E & En & Fh & Lh & Fm & Lm & R).
        rewrite R in H. injection H as B.
        apply andb_true_iff in B. destruct B as (B1 & B2).
        apply negb_true_iff, orb_false_iff in B1. destruct B1 as (B1 & B3).
        apply Z.ltb_ge in B1. apply Z.leb_gt in B3.
        apply orb_true_iff in B2. rewrite !Z.eqb_eq in B2.
        exists hh, mi, nl. repeat split; auto; lia.
      * unfold is_valid_time_format in H. rewrite Hm in H. discriminate.
    + intros (hh & mi & nl & -> & En & Fh & Lh & Fm & Lm & Rh & Rm).
      apply time_format_accepts; auto.
Qed.

Lemma all_decimal_eight (a b c d e f g h : char) :
  all_decimal [a; b; c; d; e; f; g; h] ->
  is_decimal a = true /\ is_decimal b = true /\ is_decimal c = true
  /\ is_decimal d = true /\ is_decimal e = true /\ is_decimal f = true
  /\ is_decimal g = true /\ is_decimal h = true.
Proof.
  unfold all_decimal. simpl. rewrite andb_true_r, !andb_true_iff. tauto.
Qed.

Lemma date_format_value (today : datetime) (a b c d e f g h : char)
    (nl : list char) :
  all_decimal [a; b; c; d; e; f; g; h] -> line_end nl ->
  is_valid_date_format today (date_text a b c d e f g h ++ nl)
  = Ret (valid_date (decimal_value [e; f; g; h]) (decimal_value [c; d])
                    (decimal_value [a; b])
         && negb (date_ltb (mk_datetime (decimal_value [e; f; g; h])
                                        (decimal_value [c; d])
                                        (decimal_value [a; b]) 0 0 0 0)
                           today)).
Proof.
  intros F E.
  destruct (date_format_match_conv a b c d e f g h nl F E)
    as (m & M & G1 & G2 & G3).
  destruct (all_decimal_eight _ _ _ _ _ _ _ _ F)
    as (Ha & Hb & Hc & Hd & He & Hf & Hg & Hh).
  unfold is_valid_date_format. rewrite M, G1, G2, G3.
  unfold unpack3_int.
  rewrite !int_decimal;
    try discriminate;
    try (unfold all_decimal; simpl;
         rewrite ?Ha, ?Hb, ?Hc, ?Hd, ?He, ?Hf, ?Hg, ?Hh; reflexivity).
  cbn [bind]. unfold Calendar.new.
  change (valid_time 0 0) with true. rewrite andb_true_r.
  destruct (valid_date _ _ _); [|reflexivity].
  cbn [andb]. destruct (date_ltb _ _); reflexivity.
Qed.

Lemma date_format_iff (today : datetime) (s : list char) :
  (exists ok, is_valid_date_format today s = Ret ok)
  /\ (is_valid_date_format today s = Ret true
      <-> exists a b c d e f g h nl,
            s = date_text a b c d e f g h ++ nl /\ line_end nl
            /\ all_decimal [a; b; c; d; e; f; g; h]
            /\ valid_date (decimal_value [e; f; g; h])
                          (decimal_value [c; d]) (decimal_value [a; b])
               = true
            /\ date_ltb (mk_datetime (decimal_value [e; f; g; h])
                                     (decimal_value [c; d])
                                     (decimal_value [a; b]) 0 0 0 0)
                        today = false).
Proof.
  destruct (match_ date_format_pattern s) as [m|] eqn:Hm.
  - apply date_format_match in Hm.
    destruct Hm as (a & b & c & d & e & f & g & h & nl & -> & En & F & _).
    rewrite (date_format_value today a b c d e f g h nl F En).
    split; [eauto|]. split.
    + intros H. injection H as B.
      apply andb_true_iff in B. destruct B as (B1 & B2).
      apply negb_true_iff in B2.
      exists a, b, c, d, e, f, g, h, nl. auto.
    + intros (a' & b' & c' & d' & e' & f' & g' & h' & nl' & E & _ & _
              & V & T).
      unfold date_text in E. simpl in E.
      injection E as -> -> -> -> -> -> -> -> _.
      rewrite V, T. reflexivity.
  - unfold is_valid_date_format. rewrite Hm. split; [eauto|]. split.
    + discriminate.
    + intros (a & b & c & d & e & f & g & h & nl & -> & En & F & _).
      destruct (date_format_match_conv a b c d e f g h nl F En)
        as (m & M & _).
      congruence.
Qed.

Lemma plus_minutes_raises (t : datetime) (n : Z) (ex : exn) :
  plus_minutes t n = Raise ex -> ex = OverflowError.
Proof.
  unfold plus_minutes, plus_day.
  destruct (_ <? 1440)%Z; [discriminate|].
  destruct (day t <? _)%Z; [discriminate|].
  destruct (month t <? 12)%Z; [discriminate|].
  destruct (year t <? MAXYEAR)%Z; [discriminate|].
  simpl. congruence.
Qed.

(** The validator on texts of the accepted forms. *)
Lemma date_time_value (today now : datetime) (a b c d e f g h : char)
    (nl hh mi nl' : list char) :
  let year := decimal_value [e; f; g; h] in
  let month := decimal_value [c; d] in
  let day := decimal_value [a; b] in
  all_decimal [a; b; c; d; e; f; g; h] -> line_end nl ->
  valid_date year month day = true ->
  date_ltb (mk_datetime year month day 0 0 0 0) today = false ->
  ascii_digits hh -> (1 <= length hh <= 2)%nat ->
  ascii_digits mi -> length mi = 2%nat -> line_end nl' ->
  (9 <= decimal_value hh <= 16)%Z ->
  decimal_value mi = 0%Z \/ decimal_value mi = 30%Z ->
  is_valid_date_time today now (date_text a b c d e f g h ++ nl)
                     (hh ++ ":" :: mi ++ nl')
  = limit <- plus_minutes now 60 ;;
    Ret (ltb limit (mk_datetime year month day (decimal_value hh)
                                (decimal_value mi) 0 0)).
Proof.
  intros year month day F En V T Fh Lh Fm Lm En' Rh Rm.
  destruct (all_decimal_eight _ _ _ _ _ _ _ _ F)
    as (Ha & Hb & Hc & Hd & He & Hf & Hg & Hh).
  pose proof (ascii_digits_decimal hh Fh) as Dh.
  pose proof (ascii_digits_decimal mi Fm) as Dm.
  unfold is_valid_date_time.
  rewrite (date_format_value today a b c d e f g h nl F En).
  fold year month day. rewrite V, T. cbn [andb negb bind].
  rewrite time_format_accepts by auto. cbn [andb negb orb bind].
  assert (A2 : forall x y, is_decimal x = true -> is_decimal y = true ->
                           all_decimal [x; y]).
  { intros x y Hx Hy. unfold all_decimal. simpl. rewrite Hx, Hy. reflexivity. }
  assert (A4 : all_decimal [e; f; g; h]).
  { unfold all_decimal. simpl. rewrite He, Hf, Hg, Hh. reflexivity. }
  change (date_text a b c d e f g h ++ nl)
    with ([a; b] ++ "-" :: [c; d] ++ "-" :: [e; f; g; h] ++ nl).
  rewrite (split_decimal_app "-" [a; b]) by auto.
  rewrite (split_decimal_app "-" [c; d]) by auto.
  rewrite (split_line_end "-" [e; f; g; h] nl) by auto.
  unfold unpack3_int.
  rewrite !int_decimal by (auto; discriminate).
  rewrite int_line_end by (auto; discriminate).
  cbn [bind].
  rewrite (split_decimal_app ":" hh) by auto.
  rewrite (split_line_end ":" mi nl') by auto.
  unfold unpack2_int.
  rewrite int_decimal by (auto; intros ->; simpl in Lh; lia).
  rewrite int_line_end by (auto; intros ->; discriminate).
  cbn [bind]. fold year month day.
  unfold Calendar.new. rewrite V.
  assert (Vt : valid_time (decimal_value hh) (decimal_value mi) = true).
  { unfold valid_time. rewrite !andb_true_iff, !Z.leb_le. lia. }
  rewrite Vt. cbn [andb bind].
  destruct (plus_minutes now 60) as [limit|ex] eqn:P; cbn [bind].
  - unfold leb. destruct (ltb limit _); reflexivity.
  - rewrite (plus_minutes_raises _ _ _ P). reflexivity.
Qed.

(** The validator accepts a date and a time exactly when the date reads
    DD-MM-YYYY and the time H(H):MM, each possibly followed by one line
    feed, the date is a calendar date not before today, the hour is
    between 9 and 16, the minute is 0 or 30, and the instant is later
    than one hour from now. *)
Lemma validator_accepts_iff (today now : datetime)
    (date_str time_str : list char) :
  is_valid_date_time today now date_str time_str = Ret true
  <-> exists a b c d e f g h nl hh mi nl' limit,
        date_str = date_text a b c d e f g h ++ nl /\ line_end nl
        /\ all_decimal [a; b; c; d; e; f; g; h]
        /\ valid_date (decimal_value [e; f; g; h]) (decimal_value [c; d])
                      (decimal_value [a; b]) = true
        /\ date_ltb (mk_datetime (decimal_value [e; f; g; h])
                                 (decimal_value [c; d])
                                 (decimal_value [a; b]) 0 0 0 0)
                    today = false
        /\ time_str = hh ++ ":" :: mi ++ nl' /\ line_end nl'
        /\ ascii_digits hh /\ (1 <= length hh <= 2)%nat
        /\ ascii_digits mi /\ length mi = 2%nat
        /\ (9 <= decimal_value hh <= 16)%Z
        /\ (decimal_value mi = 0%Z \/ decimal_value mi = 30%Z)
        /\ plus_minutes now 60 = Ret limit
        /\ ltb limit (mk_datetime (decimal_value [e; f; g; h])
                                  (decimal_value [c; d])
                                  (decimal_value [a; b])
                                  (decimal_value hh) (decimal_value mi) 0 0)
           = true.
Proof.
  split.
  - intros H.
    destruct (date_format_iff today date_str) as ((okd & Ed) & Id).
    destruct (time_format_iff time_str) as ((okt & Et) & It).
    assert (Dt : okd = true /\ okt = true).
    { unfold is_valid_date_time in H. rewrite Ed in H. cbn [bind] in H.
      destruct okd; [|discriminate H].
      rewrite Et in H. cbn [bind] in H.
      destruct okt; [auto | discriminate H]. }
    destruct Dt as (-> & ->).
    apply (proj1 Id) in Ed. apply (proj1 It) in Et.
    destruct Ed as (a & b & c & d & e & f & g & h & nl & -> & En & F & V & T).
    destruct Et as (hh & mi & nl' & -> & En' & Fh & Lh & Fm & Lm & Rh & Rm).
    rewrite date_time_value in H by auto.
    destruct (plus_minutes now 60) as [limit|ex]; [|discriminate H].
    cbn [bind] in H. injection H as L.
    exists a, b, c, d, e, f, g, h, nl, hh, mi, nl', limit.
    repeat split; auto; lia.
  - intros (a & b & c & d & e & f & g & h & nl & hh & mi & nl' & limit
            & -> & En & F & V & T & -> & En' & Fh & Lh & Fm & Lm & Rh & Rm
            & P & L).
    rewrite date_time_value by auto.
    rewrite P. cbn [bind]. rewrite L. reflexivity.
Qed.

(** Whatever the texts, the validator answers; it raises only when the
    clock is within an hour of the last representable instant, and then
    only for texts of the accepted forms. *)
Lemma validator_answers (today now : datetime)
    (date_str time_str : list char) :
  (exists ok, is_valid_date_time today now date_str time_str = Ret ok)
  \/ (is_valid_date_time today now date_str time_str = Raise OverflowError
      /\ plus_minutes now 60 = Raise OverflowError
      /\ is_valid_date_format today date_str = Ret true
      /\ is_valid_time_format time_str = Ret true).
Proof.
  destruct (date_format_iff today date_str) as ((okd & Ed) & Id).
  destruct (time_format_iff time_str) as ((okt & Et) & It).
  destruct okd.
  - destruct okt.
    + pose proof Ed as Ed'. pose proof Et as Et'.
      apply (proj1 Id) in Ed. apply (proj1 It) in Et.
      destruct Ed as (a & b & c & d & e & f & g & h & nl & -> & En & F & V
                      & T).
      destruct Et as (hh & mi & nl' & -> & En' & Fh & Lh & Fm & Lm & Rh
                      & Rm).
      rewrite date_time_value by auto.
      destruct (plus_minutes now 60) as [limit|ex] eqn:P; cbn [bind].
      * left. eauto.
      * right. rewrite (plus_minutes_raises _ _ _ P) in *. auto.
    + left. unfold is_valid_date_time. rewrite Ed. cbn [bind].
      rewrite Et. cbn [bind negb orb]. eauto.
  - left. unfold is_valid_date_time. rewrite Ed. cbn [bind negb orb]. eauto.
Qed.

(** ** The order of the listing *)

Lemma text_ltb_asym (a : list char) :
  forall b, text_ltb a b = true -> text_ltb b a = false.
Proof.
  induction a as [|x a IH]; intros [|y b]; simpl; auto; try discriminate.
  rewrite orb_true_iff, andb_true_iff, Nat.ltb_lt, char_eqb_eq.
  intros [L | (-> & L)].
  - apply orb_false_iff. split.
    + apply Nat.ltb_ge. lia.
    + destruct (char_eqb y x) eqn:E; auto.
      apply char_eqb_eq in E. subst. lia.
  - rewrite Nat.ltb_irrefl, char_eqb_refl. simpl. auto.
Qed.

Lemma code_latin (a : ascii) : (nat_of_ascii a < 256)%nat.
Proof. destruct a as [[] [] [] [] [] [] [] []]; vm_compute; lia. Qed.

Lemma value_bound (v : digit) : (value v < 10)%nat.
Proof. destruct v; simpl; lia. Qed.

Lemma value_inj (v w : digit) : value v = value w -> v = w.
Proof. destruct v, w; simpl; congruence. Qed.

Lemma code_inj (x y : char) : code x = code y -> x = y.
Proof.
  destruct x as [a | s v], y as [b | s' v']; unfold code; intros E.
  - rewrite <- (ascii_nat_embedding a), <- (ascii_nat_embedding b), E.
    reflexivity.
  - pose proof (code_latin a). lia.
  - pose proof (code_latin b). lia.
  - pose proof (value_bound v). pose proof (value_bound v').
    assert (s = s') by lia.
    assert (value v = value v') by lia.
    f_equal; [assumption | apply value_inj; assumption].
Qed.

Lemma text_ltb_total (a : list char) :
  forall b, text_ltb a b = false -> text_ltb b a = true \/ a = b.
Proof.
  induction a as [|x a IH]; intros [|y b]; simpl; auto; try discriminate.
  rewrite orb_false_iff, Nat.ltb_ge. intros (L & E).
  destruct (char_eqb x y) eqn:Exy.
  - apply char_eqb_eq in Exy. subst y. simpl in E.
    rewrite Nat.ltb_irrefl, char_eqb_refl. simpl.
    destruct (IH b E) as [H | ->]; auto.
  - left. apply orb_true_iff. left. apply Nat.ltb_lt.
    assert (code x <> code y).
    { intros C. apply code_inj in C. subst.
      rewrite char_eqb_refl in Exy. discriminate. }
    lia.
Qed.

Lemma order_leb_total (a b : Appointment) :
  order_leb a b = false -> order_leb b a = true.
Proof.
  unfold order_leb. rewrite orb_false_iff, andb_false_iff, negb_false_iff.
  intros (L & E).
  destruct (text_ltb_total _ _ L) as [H | H]; [rewrite H; reflexivity|].
  destruct E as [E | E].
  - rewrite H, text_eqb_refl in E. discriminate.
  - rewrite H, text_eqb_refl, (text_ltb_asym _ _ E). simpl.
    apply orb_true_r.
Qed.

Lemma insert_sorted_sorted (a : Appointment) (rows : table) :
  Sorted (fun x y => order_leb x y = true) rows ->
  Sorted (fun x y => order_leb x y = true) (insert_sorted a rows).
Proof.
  induction rows as [|b rows IH]; intros S; simpl.
  - repeat constructor.
  - destruct (order_leb a b) eqn:E.
    + constructor; auto.
    + inversion S as [|? ? S' Hd]; subst. constructor; auto.
      destruct rows as [|c rows]; simpl.
      * constructor. apply order_leb_total. exact E.
      * destruct (order_leb a c); constructor.
        -- apply order_leb_total. exact E.
        -- inversion Hd; auto.
Qed.

(** What the listing does hold: the confirmed appointments of the
    contact, each row before the next in the order of the text of the
    date and then of the time. *)
Lemma listing_sorted_by_text (db : table) (phone : list char) :
  Sorted (fun x y => order_leb x y = true) (get_user_appointments db phone).
Proof.
  unfold get_user_appointments, order_by_date_time.
  induction (filter _ db) as [|a rows IH]; simpl.
  - constructor.
  - apply insert_sorted_sorted. exact IH.
Qed.

(** * Further properties of the code *)

(** ** The validator and its two format checks *)

(** X1.  [is_valid_date_time] returns [True] exactly for a date text
    DD-MM-YYYY and a time text H(H):MM, each possibly followed by one
    line feed, such that the date is a calendar date not before the
    clock's date, the hour is one of 9..16, the minute is 0 or 30, and
    the appointment is strictly later than the clock plus one hour.
    The digits of the date are decimal digits of any script, read by
    their value; the digits of the time are the digits 0..9. *)
Theorem validator_acceptance (today now : datetime)
    (date_str time_str : list char) :
  is_valid_date_time today now date_str time_str = Ret true
  <-> exists a b c d e f g h nl hh mi nl' limit,
        date_str = date_text a b c d e f g h ++ nl /\ line_end nl
        /\ all_decimal [a; b; c; d; e; f; g; h]
        /\ valid_date (decimal_value [e; f; g; h]) (decimal_value [c; d])
                      (decimal_value [a; b]) = true
        /\ date_ltb (mk_datetime (decimal_value [e; f; g; h])
                                 (decimal_value [c; d])
                                 (decimal_value [a; b]) 0 0 0 0)
                    today = false
        /\ time_str = hh ++ ":" :: mi ++ nl' /\ line_end nl'
        /\ ascii_digits hh /\ (1 <= length hh <= 2)%nat
        /\ ascii_digits mi /\ length mi = 2%nat
        /\ (9 <= decimal_value hh <= 16)%Z
        /\ (decimal_value mi = 0%Z \/ decimal_value mi = 30%Z)
        /\ plus_minutes now 60 = Ret limit
        /\ ltb limit (mk_datetime (decimal_value [e; f; g; h])
                                  (decimal_value [c; d])
                                  (decimal_value [a; b])
                                  (decimal_value hh) (decimal_value mi) 0 0)
           = true.
Proof. apply validator_accepts_iff. Qed.

(** X2.  [is_valid_date_time] answers [True] or [False] for every pair of
    texts whenever the clock plus one hour is a representable instant.
    It raises only [OverflowError], only when the clock is in the last
    hour of the year 9999, and only after both format checks passed:
    malformed text is always answered with [False]. *)
Theorem validator_never_fails_on_text (today now : datetime)
    (date_str time_str : list char) :
  ((exists limit, plus_minutes now 60 = Ret limit) ->
   exists ok, is_valid_date_time today now date_str time_str = Ret ok)
  /\ (forall e,
         is_valid_date_time today now date_str time_str = Raise e ->
         e = OverflowError
         /\ plus_minutes now 60 = Raise OverflowError
         /\ is_valid_date_format today date_str = Ret true
         /\ is_valid_time_format time_str = Ret true)
  /\ (is_valid_date_format today date_str = Ret false
      \/ is_valid_time_format time_str = Ret false ->
      is_valid_date_time today now date_str time_str = Ret false).
Proof.
  destruct (validator_answers today now date_str time_str)
    as [(ok & E) | (E & P & Fd & Ft)].
  - split; [eauto|]. split; [rewrite E; discriminate|].
    intros [F | F].
    + unfold is_valid_date_time. rewrite F. reflexivity.
    + unfold is_valid_date_time.
      destruct (date_format_iff today date_str) as ((okd & Ed) & _).
      rewrite Ed. cbn [bind].
      destruct okd; [|reflexivity].
      rewrite F. reflexivity.
  - split; [|split].
    + intros (limit & L). congruence.
    + intros e E'. rewrite E in E'. inversion E'; subst. auto.
    + intros [F | F]; congruence.
Qed.

(** X3.  [is_valid_date_format] never raises, and returns [True] exactly
    for a text DD-MM-YYYY, possibly followed by one line feed, that
    names a calendar date (year 1..9999, month 1..12, day within the
    month, leap years counted) not before the date of the clock.  The
    digits are decimal digits of any script, read by their value: the
    pattern is written with [\d]. *)
Theorem date_format_acceptance (today : datetime) (s : list char) :
  (exists ok, is_valid_date_format today s = Ret ok)
  /\ (is_valid_date_format today s = Ret true
      <-> exists a b c d e f g h nl,
            s = date_text a b c d e f g h ++ nl /\ line_end nl
            /\ all_decimal [a; b; c; d; e; f; g; h]
            /\ valid_date (decimal_value [e; f; g; h])
                          (decimal_value [c; d]) (decimal_value [a; b])
               = true
            /\ date_ltb (mk_datetime (decimal_value [e; f; g; h])
                                     (decimal_value [c; d])
                                     (decimal_value [a; b]) 0 0 0 0)
                        today = false).
Proof. apply date_format_iff. Qed.

(** X4.  [is_valid_time_format] never raises, and returns [True] exactly
    for a text H:MM or HH:MM in the digits 0..9, possibly followed by
    one line feed, whose hour is one of 9..16 and whose minute is 0 or
    30: 16:30 is the last time accepted, 17:00 and 8:30 are refused. *)
Theorem time_format_acceptance (s : list char) :
  (exists ok, is_valid_time_format s = Ret ok)
  /\ (is_valid_time_format s = Ret true
      <-> exists hh mi nl,
            s = hh ++ ":" :: mi ++ nl /\ line_end nl
            /\ ascii_digits hh /\ (1 <= length hh <= 2)%nat
            /\ ascii_digits mi /\ length mi = 2%nat
            /\ (9 <= decimal_value hh <= 16)%Z
            /\ (decimal_value mi = 0%Z \/ decimal_value mi = 30%Z)).
Proof. apply time_format_iff. Qed.

(** ** The listing of a contact *)

(** X5.  The listing of a contact holds exactly the confirmed rows of
    that contact, each as often as the table has it; it is ordered by
    the text of the date and, for equal dates, by the text of the time;
    and the reply "no appointments" is given exactly when the contact
    has no confirmed row. *)
Theorem listing_content_and_order (db : table) (phone : list char) :
  Permutation (get_user_appointments db phone)
    (filter (fun a => text_eqb (phone_number a) phone
                      && status_eqb (status a) confirmed) db)
  /\ (forall a,
         In a (get_user_appointments db phone)
         <-> In a db /\ phone_number a = phone /\ status a = confirmed)
  /\ Sorted (fun x y => order_leb x y = true)
            (get_user_appointments db phone)
  /\ (handle_view_appointments db phone = NoAppointments
      <-> forall a, In a db -> phone_number a = phone ->
                    status a <> confirmed)
  /\ (handle_view_appointments db phone <> NoAppointments ->
      handle_view_appointments db phone
      = AppointmentList (get_user_appointments db phone)).
Proof.
  destruct (listing_rows db phone) as (P & I).
  split; [exact P|]. split; [exact I|].
  split; [apply listing_sorted_by_text|].
  unfold handle_view_appointments.
  destruct (get_user_appointments db phone) as [|x l] eqn:E.
  - split; [|congruence]. split; auto.
    intros _ a Ia Pa Sa. apply (proj2 (I a)). auto.
  - split; [|reflexivity]. split; [discriminate|].
    intros H. exfalso.
    destruct (proj1 (I x) (or_introl eq_refl)) as (Ix & Px & Sx).
    apply (H x Ix Px Sx).
Qed.

(** ** The forward search, whatever the date *)

Lemma scan_hours_some (db : table) (d : list char) (hours : list Z) :
  forall d' t',
    scan_hours db d hours = Some (d', t') ->
    d' = d
    /\ exists before h after,
         hours = before ++ h :: after /\ t' = check_time h
         /\ is_slot_available db d (check_time h) None = true
         /\ forall h', In h' before ->
                       is_slot_available db d (check_time h') None = false.
Proof.
  induction hours as [|h hours IH]; intros d' t' H; simpl in H.
  - discriminate.
  - destruct (is_slot_available db d (check_time h) None) eqn:A.
    + inversion H; subst. split; auto.
      exists [], h, hours. repeat split; auto. intros h' [].
    + destruct (IH _ _ H) as (-> & before & h0 & after & -> & -> & F & B).
      split; auto. exists (h :: before), h0, after.
      repeat split; auto. intros h' [<- | I]; auto.
Qed.

Lemma scan_hours_none (db : table) (d : list char) (hours : list Z) :
  scan_hours db d hours = None <->
  forall h, In h hours -> is_slot_available db d (check_time h) None = false.
Proof.
  induction hours as [|h hours IH]; simpl.
  - split; auto. intros _ h [].
  - destruct (is_slot_available db d (check_time h) None) eqn:A.
    + split; [discriminate|]. intros H.
      rewrite (H h (or_introl eq_refl)) in A. discriminate.
    + rewrite IH. split.
      * intros H h' [<- | I]; auto.
      * intros H h' I. apply H. auto.
Qed.

Lemma scan_days_sound (db : table) (n : nat) :
  forall d,
    match scan_days db d n with
    | (Some d', Some t') =>
        exists h, In h business_hours /\ t' = check_time h
                  /\ is_slot_available db d' t' None = true
    | (None, None) => True
    | _ => False
    end.
Proof.
  induction n as [|n IH]; intros d; cbn [scan_days]; auto.
  destruct (scan_hours db d business_hours) as [[d' t']|] eqn:E.
  - apply scan_hours_some in E.
    destruct E as (-> & before & h & after & Eh & -> & F & _).
    exists h. repeat split; auto. rewrite Eh. apply in_elt.
  - apply IH.
Qed.

Lemma scan_days_nonempty (db : table) (n : nat) :
  forall d, d <> [] ->
            forall d', fst (scan_days db d n) = Some d' -> d' <> [].
Proof.
  induction n as [|n IH]; intros d Nd d'; cbn [scan_days].
  - discriminate.
  - destruct (scan_hours db d business_hours) as [[d0 t0]|] eqn:E.
    + apply scan_hours_some in E. destruct E as (-> & _).
      simpl. intros H; inversion H; subst. exact Nd.
    + apply IH. unfold DateUtils.get_next_time_slot.
      destruct (DateUtils.next_time_slot d (str "00:00")) as [[nd nt]|e] eqn:N;
        [|exact Nd].
      unfold DateUtils.next_time_slot in N.
      repeat match type of N with
             | bind ?m _ = _ => destruct m; cbn [bind] in N;
                                  [|discriminate N]
             | (let '(_, _) := ?p in _) = _ => destruct p
             end.
      inversion N. simpl. discriminate.
Qed.

Lemma find_next_facts (db : table)
    (preferred_date preferred_time : list char) :
  match find_next_available_slot db preferred_date preferred_time with
  | (Some d', Some t') =>
      exists h, In h business_hours /\ t' = check_time h
                /\ is_slot_available db d' t' None = true
  | (None, None) =>
      forall h, In h business_hours ->
                is_slot_available db preferred_date (check_time h) None
                = false
  | _ => False
  end
  /\ (forall h,
         In h business_hours ->
         is_slot_available db preferred_date (check_time h) None = true ->
         exists before h0 after,
           business_hours = before ++ h0 :: after
           /\ find_next_available_slot db preferred_date preferred_time
              = (Some preferred_date, Some (check_time h0))
           /\ is_slot_available db preferred_date (check_time h0) None
              = true
           /\ forall h', In h' before ->
                         is_slot_available db preferred_date
                                           (check_time h') None = false).
Proof.
  unfold find_next_available_slot. split.
  - pose proof (scan_days_sound db 7 preferred_date) as S.
    destruct (scan_days db preferred_date 7) as [[d'|] [t'|]] eqn:E; auto.
    cbn [scan_days] in E.
    destruct (scan_hours db preferred_date business_hours)
      as [[d' t']|] eqn:H; [discriminate|].
    apply scan_hours_none. exact H.
  - intros h Ih Fh. cbn [scan_days].
    destruct (scan_hours db preferred_date business_hours)
      as [[d' t']|] eqn:H.
    + apply scan_hours_some in H.
      destruct H as (-> & before & h0 & after & Eh & -> & F & B).
      exists before, h0, after. auto.
    + rewrite scan_hours_none in H. rewrite (H h Ih) in Fh. discriminate.
Qed.

(** X6.  Whatever the texts passed to it, [find_next_available_slot]
    returns both a date and a time or neither.  A slot it returns is
    free in the table and its time is a full hour from 09:00 to 16:00.
    When some full hour of the preferred date is free, it returns the
    preferred date with the earliest free full hour; when it returns
    nothing, all eight full hours of the preferred date are taken. *)
Theorem forward_search_result (db : table)
    (preferred_date preferred_time : list char) :
  match find_next_available_slot db preferred_date preferred_time with
  | (Some d', Some t') =>
      exists h, In h business_hours /\ t' = check_time h
                /\ is_slot_available db d' t' None = true
  | (None, None) =>
      forall h, In h business_hours ->
                is_slot_available db preferred_date (check_time h) None
                = false
  | _ => False
  end
  /\ (forall h,
         In h business_hours ->
         is_slot_available db preferred_date (check_time h) None = true ->
         exists before h0 after,
           business_hours = before ++ h0 :: after
           /\ find_next_available_slot db preferred_date preferred_time
              = (Some preferred_date, Some (check_time h0))
           /\ is_slot_available db preferred_date (check_time h0) None
              = true
           /\ forall h', In h' before ->
                         is_slot_available db preferred_date
                                           (check_time h') None = false).
Proof. apply find_next_facts. Qed.

(** ** Booking *)

Lemma truthy_some (o : option (list char)) :
  truthy o = true -> exists c t, o = Some (c :: t).
Proof. destruct o as [[|c t]|]; simpl; try discriminate; eauto. Qed.

(** The ways a booking request ends. *)
Lemma booking_cases (clk : clock) (db : table) (message phone : list char)
    (r : response) (db' : table) :
  handle_appointment_booking clk db message phone = Ret (r, db') ->
  (db' = db /\ r = BookingHelp)
  \/ exists n d t,
       extract_booking_details message = Ret (Some n, Some d, Some t)
       /\ n <> [] /\ date_shape d /\ hh_mm_shape t
       /\ ((db' = db /\ r = InvalidDateTime n
            /\ is_valid_date_time (today clk) (now clk) d t = Ret false)
           \/ (is_valid_date_time (today clk) (now clk) d t = Ret true
               /\ ((is_slot_available db d t None = true
                    /\ r = BookingConfirmed
                             (mk_appointment (next_id db) n phone d t
                                             confirmed (utcnow clk))
                    /\ db' = db ++ [mk_appointment (next_id db) n phone d t
                                                   confirmed (utcnow clk)])
                   \/ (is_slot_available db d t None = false /\ db' = db
                       /\ ((exists nd nt,
                              find_next_available_slot db d t
                              = (Some nd, Some nt)
                              /\ r = SlotTaken n d t nd nt)
                           \/ (find_next_available_slot db d t
                               = (None, None)
                               /\ r = NoSlotInNext7Days n d t)))))).
Proof.
  unfold handle_appointment_booking.
  destruct (parser_shapes_booking message) as (x & E & S). rewrite E.
  cbn [bind].
  destruct S as [-> | (n & d & t & -> & Sd & St)].
  { simpl. intros H. inversion H. auto. }
  destruct (truthy (Some n)) eqn:Tn;
    [|simpl; intros H; inversion H; auto].
  rewrite (date_shape_truthy d Sd), (hh_mm_shape_truthy t St).
  cbn [negb orb text_of].
  right. exists n, d, t. split; [reflexivity|].
  split; [destruct n; [discriminate Tn | discriminate]|].
  split; [exact Sd|]. split; [exact St|].
  destruct (is_valid_date_time _ _ d t) as [v|e] eqn:V; simpl in *;
    [|discriminate].
  destruct v; simpl in *; [|inversion H; auto].
  right. split; [reflexivity|].
  destruct (is_slot_available db d t None) eqn:A; simpl in *.
  - inversion H; subst. left. auto.
  - right. split; [reflexivity|].
    pose proof (find_next_facts db d t) as (F & _).
    assert (Nd : d <> []).
    { destruct Sd as (dd & mm & yy & -> & _). destruct dd; discriminate. }
    pose proof (scan_days_nonempty db 7 d Nd) as Ne.
    unfold find_next_available_slot in *.
    destruct (scan_days db d 7) as [[nd|] [nt|]];
      try contradiction; simpl in H.
    + destruct F as (h & _ & -> & _).
      destruct nd as [|c1 nd]; [exfalso; exact (Ne [] eq_refl eq_refl)|].
      simpl in H. inversion H; subst. split; [reflexivity|].
      left. eauto.
    + inversion H; subst. auto.
Qed.

Lemma slot_taken_after_append (db : table) (a : Appointment) :
  status a = confirmed ->
  is_slot_available (db ++ [a]) (date a) (time a) None = false.
Proof.
  intros S.
  destruct (is_slot_available (db ++ [a]) (date a) (time a) None) eqn:A;
    [|reflexivity].
  apply is_slot_available_spec in A. rewrite filter_app in A.
  apply app_eq_nil in A. destruct A as (_ & A). simpl in A.
  assert (O : occupies (date a) (time a) a = true)
    by (apply occupies_iff; auto).
  rewrite O in A. discriminate.
Qed.

(** X7.  The two replies to a request for a taken slot.  With either of
    them nothing is stored; the request named a name, a date and a time,
    passed the validator, and its slot is held by a confirmed
    appointment.  The slot offered instead is free and on a full hour
    from 09:00 to 16:00; "no slot in the next 7 days" is said only when
    the search found none, and then the eight full hours of the
    requested date are all taken. *)
Theorem conflict_replies (clk : clock) (db : table)
    (message phone : list char) :
  (forall n d t nd nt db',
      handle_appointment_booking clk db message phone
      = Ret (SlotTaken n d t nd nt, db') ->
      db' = db
      /\ extract_booking_details message = Ret (Some n, Some d, Some t)
      /\ is_valid_date_time (today clk) (now clk) d t = Ret true
      /\ is_slot_available db d t None = false
      /\ find_next_available_slot db d t = (Some nd, Some nt)
      /\ is_slot_available db nd nt None = true
      /\ exists h, In h business_hours /\ nt = check_time h)
  /\ (forall n d t db',
         handle_appointment_booking clk db message phone
         = Ret (NoSlotInNext7Days n d t, db') ->
         db' = db
         /\ extract_booking_details message = Ret (Some n, Some d, Some t)
         /\ is_valid_date_time (today clk) (now clk) d t = Ret true
         /\ is_slot_available db d t None = false
         /\ find_next_available_slot db d t = (None, None)
         /\ forall h, In h business_hours ->
                      is_slot_available db d (check_time h) None = false).
Proof.
  split.
  - intros n d t nd nt db' H.
    destruct (booking_cases _ _ _ _ _ _ H)
      as [(_ & R) | (n0 & d0 & t0 & E & _ & _ & _ & C)]; [discriminate|].
    destruct C as [(_ & R & _) | (V & C)]; [discriminate|].
    destruct C as [(_ & R & _) | (A & -> & C)]; [discriminate|].
    destruct C as [(nd0 & nt0 & F & R) | (_ & R)]; [|discriminate].
    injection R as <- <- <- <- <-. repeat (split; [assumption || reflexivity|]).
    pose proof (find_next_facts db d t) as (P & _).
    rewrite F in P. destruct P as (h & Ih & -> & Fh). eauto.
  - intros n d t db' H.
    destruct (booking_cases _ _ _ _ _ _ H)
      as [(_ & R) | (n0 & d0 & t0 & E & _ & _ & _ & C)]; [discriminate|].
    destruct C as [(_ & R & _) | (V & C)]; [discriminate|].
    destruct C as [(_ & R & _) | (A & -> & C)]; [discriminate|].
    destruct C as [(nd0 & nt0 & F & R) | (F & R)]; [discriminate|].
    injection R as <- <- <-. repeat (split; [assumption || reflexivity|]).
    pose proof (find_next_facts db d t) as (P & _).
    rewrite F in P. exact P.
Qed.

(** A second request for a slot just booked is answered with the first
    free full hour of that day. *)
Lemma conflict_replies_witness :
  let t0 := mk_datetime 2025 8 20 10 0 0 0 in
  let clk := mk_clock t0 t0 t0 in
  let phone := str "whatsapp:+15550100" in
  let db := replay [Book clk (str "Book Jane Roe 21-08-2025 12:00") phone]
                   [] in
  is_slot_available db (str "21-08-2025") (str "12:00") None = false
  /\ is_slot_available db (str "21-08-2025") (str "09:00") None = true.
Proof.
  intros t0 clk phone db.
  destruct (proj1 (conflict_replies clk db
                     (str "Book John Doe 21-08-2025 12:00") phone)
                  (str "John Doe") (str "21-08-2025") (str "12:00")
                  (str "21-08-2025") (str "09:00") db eq_refl)
    as (_ & _ & _ & A & _ & F & _).
  split; [exact A | exact F].
Defined.

(** X8.  A confirmed booking.  The table grows by exactly the row named
    in the reply, put at the end with a key no earlier row has; the row
    is confirmed, belongs to the sender, and carries the name, date and
    time read from the message, which passed the validator.  The slot
    was free before and is taken afterwards, the row shows in the
    sender's listing, and any later request that names the same date
    and time leaves the table as it is. *)
Theorem booking_confirmed (clk : clock) (db : table)
    (message phone : list char) (a : Appointment) (db' : table) :
  handle_appointment_booking clk db message phone
  = Ret (BookingConfirmed a, db') ->
  db' = db ++ [a]
  /\ ~ In (id a) (map id db)
  /\ phone_number a = phone /\ status a = confirmed
  /\ created_at a = utcnow clk
  /\ extract_booking_details message
     = Ret (Some (name a), Some (date a), Some (time a))
  /\ name a <> []
  /\ is_valid_date_time (today clk) (now clk) (date a) (time a) = Ret true
  /\ is_slot_available db (date a) (time a) None = true
  /\ is_slot_available db' (date a) (time a) None = false
  /\ In a (get_user_appointments db' phone)
  /\ forall clk2 message2 phone2 n2 r2 db2,
       extract_booking_details message2
       = Ret (Some n2, Some (date a), Some (time a)) ->
       handle_appointment_booking clk2 db' message2 phone2
       = Ret (r2, db2) ->
       db2 = db' /\ forall b, r2 <> BookingConfirmed b.
Proof.
  intros H.
  destruct (booking_cases _ _ _ _ _ _ H)
    as [(_ & R) | (n & d & t & E & Nn & _ & _ & C)]; [discriminate|].
  destruct C as [(_ & R & _) | (V & C)]; [discriminate|].
  destruct C as [(A & R & ->) | (_ & _ & [(? & ? & _ & R) | (_ & R)])];
    [|discriminate..].
  inversion R; subst a. cbn [id name phone_number date time status created_at].
  split; [reflexivity|].
  split.
  { intros I. apply in_map_iff in I. destruct I as (b & Eb & Ib).
    apply id_below_next in Ib. lia. }
  do 7 (split; [assumption || reflexivity|]).
  set (a := mk_appointment (next_id db) n phone d t confirmed (utcnow clk)).
  assert (T : is_slot_available (db ++ [a]) d t None = false)
    by (apply (slot_taken_after_append db a); reflexivity).
  split; [exact T|].
  split.
  { apply (proj2 (listing_rows (db ++ [a]) phone)).
    split; [apply in_or_app; right; left; reflexivity|].
    split; reflexivity. }
  intros clk2 m2 p2 n2 r2 db2 E2 H2.
  destruct (booking_cases _ _ _ _ _ _ H2)
    as [(-> & ->) | (n3 & d3 & t3 & E3 & _ & _ & _ & C)];
    [split; [reflexivity | discriminate]|].
  rewrite E2 in E3. inversion E3; subst n3 d3 t3.
  destruct C as [(-> & -> & _) | (_ & C)];
    [split; [reflexivity | discriminate]|].
  destruct C as [(A2 & _) | (_ & -> & [(? & ? & _ & ->) | (_ & ->)])].
  - rewrite T in A2. discriminate.
  - split; [reflexivity | discriminate].
  - split; [reflexivity | discriminate].
Qed.

Lemma booking_confirmed_witness :
  let t0 := mk_datetime 2025 8 20 10 0 0 0 in
  let clk := mk_clock t0 t0 t0 in
  let phone := str "whatsapp:+15550100" in
  let a := mk_appointment 1 (str "Jane Roe") phone (str "21-08-2025")
                          (str "12:00") confirmed t0 in
  is_slot_available [] (date a) (time a) None = true
  /\ is_slot_available [a] (date a) (time a) None = false
  /\ In a (get_user_appointments [a] phone).
Proof.
  intros t0 clk phone a.
  destruct (booking_confirmed clk []
              (str "Book Jane Roe 21-08-2025 12:00") phone a [a] eq_refl)
    as (_ & _ & _ & _ & _ & _ & _ & _ & F & T & L & _).
  auto.
Defined.

(** A request that names a name, a date and a time, passes the validator
    and asks for a free slot is booked. *)
Lemma booking_accepts (clk : clock) (db : table)
    (message phone n d t : list char) :
  extract_booking_details message = Ret (Some n, Some d, Some t) ->
  n <> [] ->
  is_valid_date_time (today clk) (now clk) d t = Ret true ->
  is_slot_available db d t None = true ->
  handle_appointment_booking clk db message phone
  = Ret (BookingConfirmed
           (mk_appointment (next_id db) n phone d t confirmed (utcnow clk)),
         db ++ [mk_appointment (next_id db) n phone d t confirmed
                               (utcnow clk)]).
Proof.
  intros E Nn V A.
  destruct (parser_shapes_booking message) as (x & E' & S).
  rewrite E in E'. inversion E'; subst x.
  destruct S as [S | (n' & d' & t' & S & Sd & St)]; inversion S; subst.
  unfold handle_appointment_booking. rewrite E. cbn [bind].
  rewrite (date_shape_truthy _ Sd), (hh_mm_shape_truthy _ St).
  destruct n' as [|c n']; [contradiction Nn; reflexivity|].
  cbn [truthy negb orb text_of]. rewrite V. cbn [bind negb].
  rewrite A. reflexivity.
Qed.

(** ** Cancelling *)

(** The three ways a cancellation ends; it never raises. *)
Lemma cancel_cases (db : table) (message phone : list char) :
  (parse_cancel_message message = Ret (None, None)
   /\ handle_cancel_appointment db message phone = Ret (CancelHelp, db))
  \/ exists d t,
       parse_cancel_message message = Ret (Some d, Some t)
       /\ (((forall a, In a db -> phone_number a = phone -> date a = d ->
                       time a = t -> status a <> confirmed)
            /\ handle_cancel_appointment db message phone
               = Ret (NoConfirmedAppointment d t, db))
           \/ exists a,
                In a db /\ phone_number a = phone /\ date a = d
                /\ time a = t /\ status a = confirmed
                /\ handle_cancel_appointment db message phone
                   = Ret (AppointmentCancelled (set_status cancelled a),
                          mark_cancelled db a)).
Proof.
  destruct (parser_shapes_cancel message) as (x & P & S).
  destruct S as [-> | (d & t & -> & Sd & St)].
  { left. split; [exact P|].
    unfold handle_cancel_appointment. rewrite P. reflexivity. }
  right. exists d, t. split; [exact P|].
  unfold handle_cancel_appointment. rewrite P. cbn [bind].
  rewrite (date_shape_truthy _ Sd), (hh_mm_shape_truthy _ St).
  cbn [negb orb text_of].
  match goal with
  | |- context [first (filter ?f db)] => set (wanted := f)
  end.
  assert (W : forall a, wanted a = true
                        <-> phone_number a = phone /\ date a = d
                            /\ time a = t /\ status a = confirmed).
  { intros a. unfold wanted.
    rewrite !andb_true_iff, !text_eqb_eq, status_eqb_eq. tauto. }
  unfold first.
  destruct (hd_error (filter wanted db)) as [a|] eqn:E.
  - right. apply hd_error_filter_some in E. destruct E as (Ia & Wa).
    apply W in Wa. exists a. tauto.
  - left. split; [|reflexivity].
    intros a Ia Pa Da Ta Sa.
    pose proof (proj1 (hd_error_filter_none wanted db) E a Ia) as F.
    assert (T : wanted a = true) by (apply W; auto).
    congruence.
Qed.

Lemma replay_reachable (reqs : list request) :
  keyed (replay reqs []) /\ slot_exclusive (replay reqs []).
Proof.
  split.
  - apply replay_keyed. constructor.
  - apply replay_exclusive. intros d t. simpl. lia.
Qed.

Lemma keyed_NoDup (db : table) : keyed db -> NoDup db.
Proof. apply NoDup_map_inv. Qed.

(** X9.  After a successful cancellation, in a table reached by any
    sequence of requests.  The reply names a row that was in the
    sender's listing; the listing afterwards is the one before without
    that row; the same cancel message sent again finds no confirmed
    appointment and changes nothing; and a booking request for the
    cancelled date and time that passes the validator is confirmed,
    whoever sends it. *)
Theorem after_cancellation (reqs : list request)
    (message phone : list char) (a' : Appointment) (db' : table) :
  let db := replay reqs [] in
  handle_cancel_appointment db message phone
  = Ret (AppointmentCancelled a', db') ->
  exists a,
    a' = set_status cancelled a
    /\ In a (get_user_appointments db phone)
    /\ (forall b, In b (get_user_appointments db' phone)
                  <-> In b (get_user_appointments db phone) /\ b <> a)
    /\ handle_cancel_appointment db' message phone
       = Ret (NoConfirmedAppointment (date a) (time a), db')
    /\ forall clk message2 phone2 n,
         extract_booking_details message2
         = Ret (Some n, Some (date a), Some (time a)) ->
         n <> [] ->
         is_valid_date_time (today clk) (now clk) (date a) (time a)
         = Ret true ->
         exists b,
           handle_appointment_booking clk db' message2 phone2
           = Ret (BookingConfirmed b, db' ++ [b])
           /\ name b = n /\ phone_number b = phone2
           /\ date b = date a /\ time b = time a.
Proof.
  intros db H.
  destruct (replay_reachable reqs) as (K & Inv). fold db in K, Inv.
  destruct (cancel_cases db message phone)
    as [(_ & R) | (d & t & P & [(_ & R) | (a & Ia & Pa & Da & Ta & Sa & R)])];
    rewrite R in H; try discriminate H.
  injection H as <- <-.
  exists a. split; [reflexivity|].
  split; [apply (proj2 (listing_rows db phone)); auto|].
  destruct (mark_cancelled_split db a K Ia) as (l1 & l2 & E1 & E2).
  rewrite E2.
  assert (F : is_slot_available (l1 ++ set_status cancelled a :: l2)
                                (date a) (time a) None = true).
  { apply cancelled_slot_free; [rewrite <- E1; exact Inv | exact Sa]. }
  assert (Na : ~ In a (l1 ++ l2)).
  { apply NoDup_remove_2. rewrite <- E1. apply keyed_NoDup. exact K. }
  split; [|split].
  - intros b.
    rewrite (proj2 (listing_rows (l1 ++ set_status cancelled a :: l2) phone) b),
            (proj2 (listing_rows db phone) b), E1.
    rewrite !in_app_iff. cbn [In]. rewrite in_app_iff in Na.
    split.
    + intros ([I | [<- | I]] & Pb & Sb).
      * split; [tauto|]. intros ->. tauto.
      * discriminate Sb.
      * split; [tauto|]. intros ->. tauto.
    + intros (([I | [<- | I]] & Pb & Sb) & Nb); tauto.
  - destruct (cancel_cases (l1 ++ set_status cancelled a :: l2) message phone)
      as [(P2 & _) | (d2 & t2 & P2 & C)]; [congruence|].
    rewrite P in P2. injection P2 as <- <-.
    destruct C as [(_ & R2) | (b & Ib & Pb & Db & Tb & Sb & _)].
    + rewrite R2, Da, Ta. reflexivity.
    + exfalso. apply is_slot_available_spec in F.
      assert (O : In b (filter (occupies (date a) (time a))
                               (l1 ++ set_status cancelled a :: l2))).
      { apply filter_In. split; [exact Ib|].
        apply occupies_iff. rewrite Da, Ta. auto. }
      rewrite F in O. destruct O.
  - intros clk m2 p2 n E2' Nn V.
    eexists. split; [apply booking_accepts; eassumption|].
    cbn [name phone_number date time]. auto.
Qed.

Lemma after_cancellation_witness :
  let t0 := mk_datetime 2025 8 20 10 0 0 0 in
  let clk := mk_clock t0 t0 t0 in
  let phone := str "whatsapp:+15550100" in
  let a := mk_appointment 1 (str "Jane Roe") phone (str "21-08-2025")
                          (str "12:00") confirmed t0 in
  handle_cancel_appointment [set_status cancelled a]
    (str "cancel 21-08-2025 12:00") phone
  = Ret (NoConfirmedAppointment (str "21-08-2025") (str "12:00"),
         [set_status cancelled a]).
Proof.
  intros t0 clk phone a.
  destruct (after_cancellation
              [Book clk (str "Book Jane Roe 21-08-2025 12:00") phone]
              (str "cancel 21-08-2025 12:00") phone
              (set_status cancelled a) [set_status cancelled a] eq_refl)
    as (b & Eb & _ & _ & C & _).
  assert (Db : date b = str "21-08-2025")
    by (change (date b) with (date (set_status cancelled b));
        rewrite <- Eb; reflexivity).
  assert (Tb : time b = str "12:00")
    by (change (time b) with (time (set_status cancelled b));
        rewrite <- Eb; reflexivity).
  rewrite Db, Tb in C. exact C.
Defined.

Lemma listing_frame_append (db : table) (a : Appointment)
    (q : list char) :
  phone_number a <> q ->
  get_user_appointments (db ++ [a]) q = get_user_appointments db q.
Proof.
  intros N. unfold get_user_appointments. rewrite filter_app. simpl.
  destruct (text_eqb (phone_number a) q) eqn:E.
  - apply text_eqb_eq in E. contradiction.
  - simpl. rewrite app_nil_r. reflexivity.
Qed.

Lemma listing_frame_cancel (db : table) (a : Appointment)
    (q : list char) :
  keyed db -> In a db -> phone_number a <> q ->
  get_user_appointments (mark_cancelled db a) q
  = get_user_appointments db q.
Proof.
  intros K I N.
  destruct (mark_cancelled_split db a K I) as (l1 & l2 & E1 & E2).
  rewrite E2, E1. unfold get_user_appointments.
  rewrite !filter_app. cbn [filter set_status phone_number].
  destruct (text_eqb (phone_number a) q) eqn:E.
  - apply text_eqb_eq in E. contradiction.
  - reflexivity.
Qed.

(** X10.  A request of one contact does not show in the listing of
    another: in a table reached by any sequence of requests, whatever a
    contact books, cancels or lists, the listing of every other contact
    is the same before and after, also when the message names a slot
    the other contact holds. *)
Theorem other_contacts_unaffected (reqs : list request) (req : request)
    (q : list char) :
  let db := replay reqs [] in
  contact_of req <> q ->
  get_user_appointments (snd (process db req)) q
  = get_user_appointments db q.
Proof.
  intros db N.
  destruct (replay_reachable reqs) as (K & _). fold db in K.
  destruct req as [clk m p | m p | p]; cbn [contact_of] in N;
    cbn [process]; [| |reflexivity].
  - destruct (handle_appointment_booking clk db m p) as [[r db']|e] eqn:E;
      [|reflexivity].
    cbn [settle snd]. apply booking_effect in E.
    destruct E as [-> | (a & -> & _ & _ & _ & Pa & _)]; [reflexivity|].
    apply listing_frame_append. congruence.
  - destruct (cancel_cases db m p)
      as [(_ & R) | (d & t & _ & [(_ & R) | (a & Ia & Pa & _ & _ & _ & R)])];
      rewrite R; cbn [settle snd]; try reflexivity.
    apply listing_frame_cancel; auto. congruence.
Qed.

Lemma other_contacts_unaffected_witness :
  let t0 := mk_datetime 2025 8 20 10 0 0 0 in
  let clk := mk_clock t0 t0 t0 in
  let p := str "whatsapp:+15550100" in
  let q := str "whatsapp:+15550111" in
  let reqs := [Book clk (str "Book Jane Roe 21-08-2025 12:00") q] in
  get_user_appointments
    (snd (process (replay reqs []) (Cancel (str "cancel 21-08-2025 12:00") p)))
    q
  = get_user_appointments (replay reqs []) q.
Proof.
  intros t0 clk p q reqs.
  apply (other_contacts_unaffected reqs
           (Cancel (str "cancel 21-08-2025 12:00") p) q).
  vm_compute. discriminate.
Defined.

(** ** The dispatcher and the webhook *)

Lemma drop_while_idem (p : char -> bool) (s : list char) :
  drop_while p (drop_while p s) = drop_while p s.
Proof.
  induction s as [|c s IH]; simpl; auto.
  destruct (p c) eqn:E; auto. simpl. rewrite E. reflexivity.
Qed.

Lemma drop_while_snoc (p : char -> bool) (s : list char) (c : char) :
  p c = false -> drop_while p (s ++ [c]) = drop_while p s ++ [c].
Proof.
  intros N. induction s as [|x s IH]; simpl.
  - rewrite N. reflexivity.
  - destruct (p x); auto.
Qed.

Lemma drop_while_head (p : char -> bool) (s : list char) :
  drop_while p s = [] \/ exists c t, drop_while p s = c :: t /\ p c = false.
Proof.
  induction s as [|x s IH]; simpl; auto.
  destruct (p x) eqn:E; auto. right. eauto.
Qed.

(** Trimming twice is trimming once. *)
Lemma strip_by_idem (p : char -> bool) (s : list char) :
  strip_by p (strip_by p s) = strip_by p s.
Proof.
  unfold strip_by.
  destruct (drop_while_head p s) as [-> | (c & t & -> & N)];
    [reflexivity|].
  cbn [rev]. rewrite (drop_while_snoc p (rev t) c N).
  rewrite rev_app_distr. cbn [rev app drop_while]. rewrite N.
  cbn [rev]. rewrite rev_involutive.
  rewrite (drop_while_snoc p _ c N), drop_while_idem.
  rewrite rev_app_distr. reflexivity.
Qed.

(** What is left of a trimmed text has no white space at either end. *)
Lemma strip_by_ends (p : char -> bool) (s : list char) :
  strip_by p s = []
  \/ exists c mid, strip_by p s = c :: mid /\ p c = false
                   /\ p (last (c :: mid) c) = false.
Proof.
  unfold strip_by.
  destruct (drop_while_head p s) as [-> | (c & t & -> & N)]; [auto|].
  right. exists c, (rev (drop_while p (rev t))).
  split.
  { cbn [rev]. rewrite (drop_while_snoc p (rev t) c N).
    rewrite rev_app_distr. reflexivity. }
  split; [exact N|].
  destruct (drop_while_head p (rev t)) as [-> | (x & u & -> & Nx)];
    [exact N|].
  cbn [rev]. change (c :: rev u ++ [x]) with ((c :: rev u) ++ [x]).
  rewrite last_last. exact Nx.
Qed.

Lemma is_in_spec (x : list char) (l : list string) :
  is_in x l = true <-> In x (map str l).
Proof.
  unfold is_in. rewrite existsb_exists, in_map_iff. split.
  - intros (w & I & E). apply text_eqb_eq in E. eauto.
  - intros (w & E & I). exists w. split; auto. apply text_eqb_eq. auto.
Qed.

(** X11.  How [handle_whatsapp_message] routes a message, read after
    trimming and without regard to case.  A message that starts with
    "cancel" goes to the cancel handler whatever else it says, also
    when it contains "book" or "appointment"; "help", "menu" and
    "commands" give the help menu and the four listing phrases give the
    sender's listing, both only when they are the whole message, and
    both without touching the table.  The table changes only with a
    reply "booking confirmed", and then the message did not start with
    "cancel", or with a reply "appointment cancelled", and then it
    did. *)
Theorem dispatch_routing (clk : clock) (db : table)
    (message phone : list char) :
  let m := strip message in
  (starts_with (str "cancel") (lower m) = true ->
   handle_whatsapp_message clk db message phone
   = handle_cancel_appointment db m phone)
  /\ (In (lower m) (map str ["help"; "menu"; "commands"]%string) ->
      handle_whatsapp_message clk db message phone = Ret (HelpMenu, db))
  /\ (In (lower m)
         (map str ["my appointments"; "appointments"; "my bookings";
                   "view appointments"]%string) ->
      handle_whatsapp_message clk db message phone
      = Ret (handle_view_appointments db phone, db))
  /\ (forall r db',
         handle_whatsapp_message clk db message phone = Ret (r, db') ->
         db' <> db ->
         (starts_with (str "cancel") (lower m) = false
          /\ exists a, r = BookingConfirmed a /\ db' = db ++ [a]
                       /\ phone_number a = phone)
         \/ (starts_with (str "cancel") (lower m) = true
             /\ exists a, r = AppointmentCancelled (set_status cancelled a)
                          /\ db' = mark_cancelled db a
                          /\ phone_number a = phone)).
Proof.
  intros m. unfold handle_whatsapp_message. fold m.
  split; [|split; [|split]].
  - intros S.
    match goal with
    | |- (if ?b then _ else _) = _ => assert (I : b = false)
    end.
    { destruct (lower m) as [|c l]; [reflexivity|].
      cbn [str list_ascii_of_string map starts_with] in S.
      apply andb_true_iff in S. destruct S as (Sc & _).
      apply char_eqb_eq in Sc. subst c. reflexivity. }
    rewrite I, S. reflexivity.
  - intros I. cbn [map In] in I.
    destruct I as [<- | [<- | [<- | []]]]; reflexivity.
  - intros I. apply is_in_spec in I. rewrite I. reflexivity.
  - intros r db' H N.
    destruct (is_in (lower m) _); [inversion H; congruence|].
    destruct (starts_with (str "cancel") (lower m)).
    { right. split; [reflexivity|].
      destruct (cancel_cases db m phone)
        as [(_ & R) | (d & t & _ & [(_ & R) | (a & _ & Pa & _ & _ & _ & R)])];
        rewrite R in H; inversion H; subst; try congruence.
      eauto. }
    left. split; [reflexivity|].
    destruct (contains _ _ || existsb _ _).
    + apply booking_effect in H.
      destruct H as [-> | (a & -> & -> & _ & _ & Pa & _)]; [congruence|].
      eauto.
    + destruct (is_in (lower m) _); inversion H; congruence.
Qed.

(** "Cancel my booking" is a cancellation, not a booking. *)
Lemma dispatch_routing_witness :
  let t0 := mk_datetime 2025 8 20 10 0 0 0 in
  let clk := mk_clock t0 t0 t0 in
  let phone := str "whatsapp:+15550100" in
  handle_whatsapp_message clk [] (str " Cancel my booking ") phone
  = handle_cancel_appointment [] (str "Cancel my booking") phone.
Proof.
  intros t0 clk phone.
  apply (proj1 (dispatch_routing clk [] (str " Cancel my booking ") phone)).
  reflexivity.
Defined.

(** X12.  The webhook.  It trims the message before the dispatcher trims
    it again, and the second trimming changes nothing.  No message text
    makes a handler raise: the apology is sent only when the clock plus
    one hour is past the last representable instant, and then for a
    booking request that passed both format checks; in every other case
    the reply is a handler's.  With the apology nothing is stored. *)
Theorem webhook_replies (clk : clock) (db : table)
    (incoming_msg from_number : list char) :
  webhook clk db incoming_msg from_number
  = settle db (handle_whatsapp_message clk db incoming_msg from_number)
  /\ ((exists limit, plus_minutes (now clk) 60 = Ret limit) ->
      exists r db',
        webhook clk db incoming_msg from_number = (Reply r, db'))
  /\ (fst (webhook clk db incoming_msg from_number) = Trouble ->
      snd (webhook clk db incoming_msg from_number) = db
      /\ plus_minutes (now clk) 60 = Raise OverflowError
      /\ exists n d t,
           extract_booking_details (strip incoming_msg)
           = Ret (Some n, Some d, Some t)
           /\ is_valid_date_format (today clk) d = Ret true
           /\ is_valid_time_format t = Ret true).
Proof.
  assert (E : webhook clk db incoming_msg from_number
              = settle db (handle_whatsapp_message clk db incoming_msg
                                                   from_number)).
  { unfold webhook, handle_whatsapp_message, strip.
    rewrite strip_by_idem. reflexivity. }
  split; [exact E|]. rewrite E.
  unfold handle_whatsapp_message.
  set (m := strip incoming_msg).
  assert (C : exists r db',
             handle_cancel_appointment db m from_number = Ret (r, db')).
  { destruct (cancel_cases db m from_number)
      as [(_ & R) | (d & t & _ & [(_ & R) | (a & _ & _ & _ & _ & _ & R)])];
      rewrite R; eauto. }
  assert (B : (exists r db',
                 handle_appointment_booking clk db m from_number
                 = Ret (r, db'))
              \/ (exists e,
                    handle_appointment_booking clk db m from_number
                    = Raise e)
                 /\ plus_minutes (now clk) 60 = Raise OverflowError
                 /\ exists n d t,
                      extract_booking_details m
                      = Ret (Some n, Some d, Some t)
                      /\ is_valid_date_format (today clk) d = Ret true
                      /\ is_valid_time_format t = Ret true).
  { unfold handle_appointment_booking.
    destruct (parser_shapes_booking m) as (x & Ex & S). rewrite Ex.
    cbn [bind].
    destruct S as [-> | (n & d & t & -> & Sd & St)]; [left; simpl; eauto|].
    destruct (negb (truthy (Some n)) || _ || _); [left; eauto|].
    cbn [text_of].
    destruct (validator_answers (today clk) (now clk) d t)
      as [(ok & V) | (V & P & Fd & Ft)]; rewrite V; cbn [bind].
    - left. destruct ok; cbn [negb]; [|eauto].
      destruct (is_slot_available db d t None); cbn [negb]; [eauto|].
      destruct (find_next_available_slot db d t) as [nd nt].
      destruct (truthy nd && truthy nt); eauto.
    - right. split; [eauto|]. split; [exact P|]. eauto 10. }
  destruct (is_in (lower m) _).
  { split; [intros _; simpl; eauto | simpl; discriminate]. }
  destruct (starts_with _ _).
  { destruct C as (r & db' & ->).
    split; [intros _; simpl; eauto | simpl; discriminate]. }
  destruct (contains _ _ || existsb _ _).
  - destruct B as [(r & db' & ->) | ((e & ->) & P & X)].
    + split; [intros _; simpl; eauto | simpl; discriminate].
    + split; [intros (limit & L); congruence | simpl; auto].
  - destruct (is_in (lower m) _);
      (split; [intros _; simpl; eauto | simpl; discriminate]).
Qed.

(** ** The slot check with an appointment left out *)

Lemma is_slot_available_excluding (db : table) (d t : list char) (i : Z) :
  is_slot_available db d t (Some i) = true
  <-> forall a, In a db -> occupies d t a = true -> i <> 0%Z /\ id a = i.
Proof.
  unfold is_slot_available, first. fold (occupies d t).
  destruct (i =? 0)%Z eqn:Z0.
  - apply Z.eqb_eq in Z0. subst i.
    destruct (hd_error (filter (occupies d t) db)) as [a|] eqn:E.
    + split; [discriminate|]. intros H. exfalso.
      apply hd_error_filter_some in E. destruct E as (I & O).
      destruct (H a I O) as (N & _). apply N. reflexivity.
    + split; [|reflexivity]. intros _ a I O.
      rewrite (proj1 (hd_error_filter_none _ _) E a I) in O. discriminate.
  - apply Z.eqb_neq in Z0.
    destruct (hd_error (filter (fun a => negb (id a =? i)%Z)
                               (filter (occupies d t) db))) as [a|] eqn:E.
    + split; [discriminate|]. intros H. exfalso.
      apply hd_error_filter_some in E. destruct E as (I & O).
      apply filter_In in I. destruct I as (I & Oa).
      destruct (H a I Oa) as (_ & Ea).
      apply Z.eqb_eq in Ea. rewrite Ea in O. discriminate.
    + split; [|reflexivity]. intros _ a I O. split; [exact Z0|].
      assert (I' : In a (filter (occupies d t) db))
        by (apply filter_In; auto).
      pose proof (proj1 (hd_error_filter_none _ _) E a I') as F.
      apply negb_false_iff in F. apply Z.eqb_eq in F. exact F.
Qed.

Lemma next_id_positive (db : table) : (0 < next_id db)%Z.
Proof.
  unfold next_id. induction db as [|a db IH]; simpl; lia.
Qed.

Lemma process_positive (db : table) (req : request) :
  (forall a, In a db -> (0 < id a)%Z) ->
  forall a, In a (snd (process db req)) -> (0 < id a)%Z.
Proof.
  intros H a. destruct req as [clk m p | m p | p]; simpl; auto.
  - destruct (handle_appointment_booking clk db m p) as [[r db']|e] eqn:E;
      simpl; auto.
    apply booking_effect in E.
    destruct E as [-> | (b & -> & _ & Ib & _)]; auto.
    intros I. apply in_app_or in I. destruct I as [I | [<- | []]]; auto.
    rewrite Ib. apply next_id_positive.
  - destruct (handle_cancel_appointment db m p) as [[r db']|e] eqn:E;
      simpl; auto.
    apply cancel_effect in E.
    destruct E as [-> | (b & _ & _ & -> & _)]; auto.
    unfold mark_cancelled. intros I. apply in_map_iff in I.
    destruct I as (x & <- & Ix).
    destruct (id x =? id b)%Z; simpl; auto.
Qed.

Lemma replay_positive (reqs : list request) :
  forall db, (forall a, In a db -> (0 < id a)%Z) ->
             forall a, In a (replay reqs db) -> (0 < id a)%Z.
Proof.
  induction reqs as [|req reqs IH]; intros db H; simpl; auto.
  apply IH. apply process_positive. exact H.
Qed.

Lemma filter_single {A : Type} (f : A -> bool) (l : list A) (a b : A) :
  (length (filter f l) <= 1)%nat ->
  In a l -> f a = true -> In b l -> f b = true -> a = b.
Proof.
  intros L Ia Fa Ib Fb.
  assert (Ja : In a (filter f l)) by (apply filter_In; auto).
  assert (Jb : In b (filter f l)) by (apply filter_In; auto).
  destruct (filter f l) as [|x [|y r]]; simpl in *;
    [destruct Ja | | lia].
  destruct Ja as [<- | []], Jb as [<- | []]. reflexivity.
Qed.

(** X13.  The slot check with [exclude_id], in a table reached by any
    sequence of requests.  With a key given, the slot counts as free
    exactly when no confirmed appointment other than the one with that
    key holds it; the key 0 leaves nothing out, like no key.  Hence
    for every confirmed appointment the check of its own slot says
    "taken", and says "free" once the appointment itself is left out:
    nobody else holds its slot. *)
Theorem slot_check_excluding (reqs : list request) (d t : list char) :
  let db := replay reqs [] in
  (forall i,
      is_slot_available db d t (Some i) = true
      <-> forall a, In a db -> date a = d -> time a = t ->
                    status a = confirmed -> id a = i)
  /\ is_slot_available db d t (Some 0%Z) = is_slot_available db d t None
  /\ (forall a,
         In a db -> date a = d -> time a = t -> status a = confirmed ->
         is_slot_available db d t None = false
         /\ is_slot_available db d t (Some (id a)) = true
         /\ forall i, i <> id a ->
                      is_slot_available db d t (Some i) = false).
Proof.
  intros db.
  destruct (replay_reachable reqs) as (_ & Inv). fold db in Inv.
  assert (Pos : forall a, In a db -> (0 < id a)%Z)
    by (apply replay_positive; intros a []).
  assert (X : forall i,
             is_slot_available db d t (Some i) = true
             <-> forall a, In a db -> date a = d -> time a = t ->
                           status a = confirmed -> id a = i).
  { intros i. rewrite is_slot_available_excluding. split.
    - intros H a I Da Ta Sa.
      destruct (H a I) as (_ & E); [apply occupies_iff; auto | exact E].
    - intros H a I O. apply occupies_iff in O. destruct O as (Da & Ta & Sa).
      pose proof (H a I Da Ta Sa) as E. specialize (Pos a I). lia. }
  split; [exact X|]. split; [reflexivity|].
  intros a I Da Ta Sa.
  assert (O : occupies d t a = true) by (apply occupies_iff; auto).
  split; [|split].
  - destruct (is_slot_available db d t None) eqn:A; [|reflexivity].
    apply is_slot_available_spec in A.
    assert (J : In a (filter (occupies d t) db)) by (apply filter_In; auto).
    rewrite A in J. destruct J.
  - apply X. intros b Ib Db Tb Sb.
    assert (Ob : occupies d t b = true) by (apply occupies_iff; auto).
    rewrite (filter_single _ _ a b (Inv d t) I O Ib Ob). reflexivity.
  - intros i N.
    destruct (is_slot_available db d t (Some i)) eqn:A; [|reflexivity].
    exfalso. apply N. symmetry. apply (proj1 (X i) A a); auto.
Qed.

(** ** The texts shown to the contact *)

Lemma date_display_value (a b c d e f g h : char) (nl : list char) :
  all_decimal [a; b; c; d; e; f; g; h] -> line_end nl ->
  format_date_for_display (date_text a b c d e f g h ++ nl)
  = if valid_date (decimal_value [e; f; g; h]) (decimal_value [c; d])
                  (decimal_value [a; b])
    then pad2 (decimal_value [a; b])
         ++ " " :: month_name (decimal_value [c; d])
         ++ " " :: pad4 (decimal_value [e; f; g; h])
    else date_text a b c d e f g h ++ nl.
Proof.
  intros F E.
  destruct (all_decimal_eight _ _ _ _ _ _ _ _ F)
    as (Ha & Hb & Hc & Hd & He & Hf & Hg & Hh).
  assert (Fab : all_decimal [a; b])
    by (unfold all_decimal; simpl; rewrite Ha, Hb; reflexivity).
  assert (Fcd : all_decimal [c; d])
    by (unfold all_decimal; simpl; rewrite Hc, Hd; reflexivity).
  assert (Fy : all_decimal [e; f; g; h])
    by (unfold all_decimal; simpl; rewrite He, Hf, Hg, Hh; reflexivity).
  unfold format_date_for_display.
  change (date_text a b c d e f g h ++ nl)
    with ([a; b] ++ "-" :: [c; d] ++ "-" :: ([e; f; g; h] ++ nl)).
  rewrite !split_decimal_app by (reflexivity || assumption).
  rewrite split_line_end by (reflexivity || assumption).
  cbn [unpack3 bind].
  rewrite int_line_end by (assumption || discriminate).
  rewrite !int_decimal by (assumption || discriminate).
  cbn [bind]. unfold Calendar.new.
  change (valid_time 0 0) with true. rewrite andb_true_r.
  destruct (valid_date _ _ _); [|reflexivity].
  cbn [bind]. unfold strftime_long. cbn [day month year].
  reflexivity.
Qed.

Lemma ascii_digits_eight (a b c d e f g h : char) :
  ascii_digits [a; b; c; d; e; f; g; h] ->
  ascii_digit a = true /\ ascii_digit b = true /\ ascii_digit c = true
  /\ ascii_digit d = true /\ ascii_digit e = true /\ ascii_digit f = true
  /\ ascii_digit g = true /\ ascii_digit h = true.
Proof.
  unfold ascii_digits. simpl. rewrite andb_true_r, !andb_true_iff. tauto.
Qed.

(** Written with the digits 0..9, day and year are shown as typed. *)
Lemma date_display_ascii (a b c d e f g h : char) :
  ascii_digits [a; b; c; d; e; f; g; h] ->
  pad2 (decimal_value [a; b]) ++ " " :: month_name (decimal_value [c; d])
  ++ " " :: pad4 (decimal_value [e; f; g; h])
  = [a; b] ++ " " :: month_name (decimal_value [c; d])
    ++ " " :: [e; f; g; h].
Proof.
  intros F.
  destruct (ascii_digits_eight _ _ _ _ _ _ _ _ F)
    as (Ha & Hb & Hc & Hd & He & Hf & Hg & Hh).
  rewrite (proj2 (decimal_value_bounds2 a b Ha Hb)).
  rewrite (proj2 (decimal_value_bounds4 e f g h He Hf Hg Hh)).
  reflexivity.
Qed.

(** X14.  [format_date_for_display].  A text DD-MM-YYYY, with or
    without a line feed after it, that names a calendar date is shown
    as the day, the English name of the month and the year, the digits
    of day and year as they were typed; a text DD-MM-YYYY that names no
    calendar date, and any text that does not fall into three pieces at
    the hyphens, is shown as it is.  Every date the format check of the
    validator accepts is shown in the long form.  (The year is taken to
    have four digits in the output, which holds from the year 1000
    on.)  A date typed with the digits of another script is shown with
    the digits 0..9. *)
Theorem date_display :
  (forall a b c d e f g h nl,
      ascii_digits [a; b; c; d; e; f; g; h] -> line_end nl ->
      let s := date_text a b c d e f g h ++ nl in
      let y := decimal_value [e; f; g; h] in
      let m := decimal_value [c; d] in
      let dd := decimal_value [a; b] in
      (valid_date y m dd = true -> (1000 <= y)%Z ->
       format_date_for_display s
       = [a; b] ++ " " :: month_name m ++ " " :: [e; f; g; h])
      /\ (valid_date y m dd = false -> format_date_for_display s = s))
  /\ (forall s, length (split "-" s) <> 3%nat ->
                format_date_for_display s = s)
  /\ (forall today s,
         is_valid_date_format today s = Ret true ->
         (1000 <= year today)%Z ->
         exists a b c d e f g h nl,
           s = date_text a b c d e f g h ++ nl
           /\ (1 <= decimal_value [c; d] <= 12)%Z
           /\ format_date_for_display s
              = pad2 (decimal_value [a; b])
                ++ " " :: month_name (decimal_value [c; d])
                ++ " " :: pad4 (decimal_value [e; f; g; h])
           /\ (ascii_digits [a; b; c; d; e; f; g; h] ->
               format_date_for_display s
               = [a; b] ++ " " :: month_name (decimal_value [c; d])
                 ++ " " :: [e; f; g; h]))
  /\ (forall a b c d e f g h nl,
         all_decimal [a; b; c; d; e; f; g; h] -> line_end nl ->
         let s := date_text a b c d e f g h ++ nl in
         let y := decimal_value [e; f; g; h] in
         let m := decimal_value [c; d] in
         let dd := decimal_value [a; b] in
         (valid_date y m dd = true -> (1000 <= y)%Z ->
          format_date_for_display s
          = pad2 dd ++ " " :: month_name m ++ " " :: pad4 y)
         /\ (valid_date y m dd = false -> format_date_for_display s = s)).
Proof.
  split; [|split; [|split]].
  - intros a b c d e f g h nl F E s y m dd. unfold s, y, m, dd.
    rewrite (date_display_value a b c d e f g h nl
               (ascii_digits_decimal _ F) E).
    rewrite (date_display_ascii a b c d e f g h F).
    split; intros ->; reflexivity.
  - intros s L. unfold format_date_for_display.
    destruct (split "-" s) as [|p1 [|p2 [|p3 [|p4 ps]]]]; try reflexivity.
    contradiction L; reflexivity.
  - intros today s H Y.
    apply (proj1 (proj2 (date_format_iff today s))) in H.
    destruct H as (a & b & c & d & e & f & g & h & nl & -> & En & F & V & T).
    exists a, b, c, d, e, f, g, h, nl. split; [reflexivity|].
    rewrite (date_display_value a b c d e f g h nl F En), V.
    split; [|split; [reflexivity|]].
    + unfold valid_date in V. rewrite !andb_true_iff in V. lia.
    + intros A. apply date_display_ascii. exact A.
  - intros a b c d e f g h nl F E s y m dd. unfold s, y, m, dd.
    rewrite (date_display_value a b c d e f g h nl F E).
    split; intros ->; reflexivity.
Qed.

Lemma date_display_witness :
  format_date_for_display (str "15-08-2025") = str "15 August 2025"
  /\ format_date_for_display (str "31-02-2025") = str "31-02-2025"
  /\ format_date_for_display (str "2025-08") = str "2025-08".
Proof.
  split; [|split].
  - apply (proj1 date_display "1" "5" "0" "8" "2" "0" "2" "5" []
             eq_refl (or_introl eq_refl));
      [reflexivity | vm_compute; discriminate].
  - apply (proj1 date_display "3" "1" "0" "2" "2" "0" "2" "5" []
             eq_refl (or_introl eq_refl)). reflexivity.
  - apply (proj1 (proj2 date_display)). vm_compute. discriminate.
Defined.

Lemma time_display_value (hh mi nl : list char) :
  all_decimal hh -> (1 <= length hh <= 2)%nat ->
  all_decimal mi -> length mi = 2%nat -> line_end nl ->
  format_time_for_display (hh ++ ":" :: mi ++ nl)
  = if valid_time (decimal_value hh) (decimal_value mi)
    then pad2 (hour12 (decimal_value hh))
         ++ ":" :: pad2 (decimal_value mi)
         ++ " " :: (if (decimal_value hh <? 12)%Z then str "AM"
                    else str "PM")
    else hh ++ ":" :: mi ++ nl.
Proof.
  intros Fh Lh Fm Lm E.
  assert (Nh : hh <> []) by (destruct hh; simpl in Lh; [lia | discriminate]).
  assert (Nm : mi <> []) by (destruct mi; simpl in Lm; [lia | discriminate]).
  unfold format_time_for_display.
  rewrite split_decimal_app by (reflexivity || assumption).
  rewrite split_line_end by (reflexivity || assumption).
  unfold unpack2_int.
  rewrite int_decimal, int_line_end by assumption.
  cbn [bind]. unfold strptime_hour_minute.
  destruct (valid_time _ _); [|reflexivity].
  cbn [bind]. unfold strftime_12h. cbn [hour minute].
  reflexivity.
Qed.

(** Written with the digits 0..9, the minute is shown as typed. *)
Lemma minute_as_typed (mi : list char) :
  ascii_digits mi -> length mi = 2%nat -> pad2 (decimal_value mi) = mi.
Proof.
  intros Fm Lm.
  destruct mi as [|c [|d [|? ?]]]; simpl in Lm; try lia.
  destruct (ascii_digits_two c d Fm) as (Hc & Hd).
  apply (proj2 (decimal_value_bounds2 c d Hc Hd)).
Qed.

Lemma decimal_value_nonneg (t : list char) :
  all_decimal t -> (0 <= decimal_value t)%Z.
Proof.
  intros F. unfold decimal_value.
  assert (G : forall acc, (0 <= acc)%Z ->
              (0 <= fold_left (fun acc c => 10 * acc + digit_value c) t
                              acc)%Z).
  { unfold all_decimal in F. induction t as [|c t IH]; intros acc A;
      cbn [fold_left]; auto.
    cbn [forallb] in F. apply andb_true_iff in F. destruct F as (Hc & F).
    apply IH; auto.
    destruct (decimal_facts c Hc) as (_ & _ & _ & _ & _ & _ & _ & _ & _ & R).
    lia. }
  apply G. lia.
Qed.

Lemma valid_time_bounds (hh mi : list char) :
  all_decimal hh -> all_decimal mi ->
  ((decimal_value hh <= 23)%Z -> (decimal_value mi <= 59)%Z ->
   valid_time (decimal_value hh) (decimal_value mi) = true)
  /\ ((23 < decimal_value hh)%Z \/ (59 < decimal_value mi)%Z ->
      valid_time (decimal_value hh) (decimal_value mi) = false).
Proof.
  intros Fh Fm.
  pose proof (decimal_value_nonneg hh Fh) as Ph.
  pose proof (decimal_value_nonneg mi Fm) as Pm.
  unfold valid_time. split.
  - intros Bh Bm. rewrite !andb_true_iff, !Z.leb_le. lia.
  - intros B. apply not_true_is_false.
    rewrite !andb_true_iff, !Z.leb_le. lia.
Qed.

(** X15.  [format_time_for_display].  A text H:MM or HH:MM, with or
    without a line feed after it, whose hour is at most 23 and whose
    minute is at most 59 is shown on the twelve-hour clock: the hour
    with two digits (12 for 0 and for 12), the minute as typed, and AM
    before noon, PM from noon on.  Other such texts, and any text that
    does not fall into two pieces at the colon, are shown as they are.
    Every time the format check of the validator accepts is shown with
    one of the hours 09, 10, 11 AM and 12, 01, 02, 03, 04 PM.  A time
    typed with the digits of another script is shown with the digits
    0..9. *)
Theorem time_display :
  (forall hh mi nl,
      ascii_digits hh -> (1 <= length hh <= 2)%nat ->
      ascii_digits mi -> length mi = 2%nat -> line_end nl ->
      let s := hh ++ ":" :: mi ++ nl in
      let h := decimal_value hh in
      let m := decimal_value mi in
      ((h <= 23)%Z -> (m <= 59)%Z ->
       format_time_for_display s
       = pad2 (hour12 h) ++ ":" :: mi
         ++ " " :: (if (h <? 12)%Z then str "AM" else str "PM"))
      /\ ((23 < h)%Z \/ (59 < m)%Z -> format_time_for_display s = s))
  /\ (forall s, length (split ":" s) <> 2%nat ->
                format_time_for_display s = s)
  /\ (forall s,
         is_valid_time_format s = Ret true ->
         exists hh mi nl,
           s = hh ++ ":" :: mi ++ nl
           /\ (mi = str "00" \/ mi = str "30")
           /\ In (pad2 (hour12 (decimal_value hh)),
                  (decimal_value hh <? 12)%Z)
                 [(str "09", true); (str "10", true); (str "11", true);
                  (str "12", false); (str "01", false); (str "02", false);
                  (str "03", false); (str "04", false)]
           /\ format_time_for_display s
              = pad2 (hour12 (decimal_value hh)) ++ ":" :: mi
                ++ " " :: (if (decimal_value hh <? 12)%Z then str "AM"
                           else str "PM"))
  /\ (forall hh mi nl,
         all_decimal hh -> (1 <= length hh <= 2)%nat ->
         all_decimal mi -> length mi = 2%nat -> line_end nl ->
         let s := hh ++ ":" :: mi ++ nl in
         let h := decimal_value hh in
         let m := decimal_value mi in
         ((h <= 23)%Z -> (m <= 59)%Z ->
          format_time_for_display s
          = pad2 (hour12 h) ++ ":" :: pad2 m
            ++ " " :: (if (h <? 12)%Z then str "AM" else str "PM"))
         /\ ((23 < h)%Z \/ (59 < m)%Z -> format_time_for_display s = s)).
Proof.
  split; [|split; [|split]].
  - intros hh mi nl Fh Lh Fm Lm E s h m. unfold s, h, m.
    pose proof (ascii_digits_decimal hh Fh) as Dh.
    pose proof (ascii_digits_decimal mi Fm) as Dm.
    rewrite (time_display_value hh mi nl Dh Lh Dm Lm E).
    rewrite (minute_as_typed mi Fm Lm).
    destruct (valid_time_bounds hh mi Dh Dm) as (T & F).
    split.
    + intros Bh Bm. rewrite (T Bh Bm). reflexivity.
    + intros B. rewrite (F B). reflexivity.
  - intros s L. unfold format_time_for_display.
    destruct (split ":" s) as [|p1 [|p2 [|p3 ps]]]; try reflexivity.
    contradiction L; reflexivity.
  - intros s H.
    apply (proj1 (proj2 (time_format_iff s))) in H.
    destruct H as (hh & mi & nl & -> & En & Fh & Lh & Fm & Lm & Rh & Rm).
    pose proof (ascii_digits_decimal hh Fh) as Dh.
    pose proof (ascii_digits_decimal mi Fm) as Dm.
    exists hh, mi, nl. split; [reflexivity|].
    split.
    { rewrite <- (minute_as_typed mi Fm Lm).
      destruct Rm as [-> | ->]; [left | right]; reflexivity. }
    split.
    { set (v := decimal_value hh) in *.
      assert (V : In v [9; 10; 11; 12; 13; 14; 15; 16]%Z)
        by (simpl; lia).
      simpl in V.
      repeat (destruct V as [<- | V]; [vm_compute; tauto|]). destruct V. }
    rewrite (time_display_value hh mi nl Dh Lh Dm Lm En).
    rewrite (minute_as_typed mi Fm Lm).
    destruct (valid_time_bounds hh mi Dh Dm) as (T & _).
    rewrite T by lia. reflexivity.
  - intros hh mi nl Fh Lh Fm Lm E s h m. unfold s, h, m.
    rewrite (time_display_value hh mi nl Fh Lh Fm Lm E).
    destruct (valid_time_bounds hh mi Fh Fm) as (T & F).
    split.
    + intros Bh Bm. rewrite (T Bh Bm). reflexivity.
    + intros B. rewrite (F B). reflexivity.
Qed.

Lemma time_display_witness :
  format_time_for_display (str "14:30") = str "02:30 PM"
  /\ format_time_for_display (str "0:05") = str "12:05 AM"
  /\ format_time_for_display (str "24:00") = str "24:00"
  /\ format_time_for_display (str "1430") = str "1430".
Proof.
  split; [|split; [|split]].
  - apply (proj1 time_display (str "14") (str "30") []); try reflexivity;
      try (vm_compute; discriminate); try (left; reflexivity);
      simpl; try lia.
  - apply (proj1 time_display (str "0") (str "05") []); try reflexivity;
      try (vm_compute; discriminate); try (left; reflexivity);
      simpl; try lia.
  - apply (proj1 time_display (str "24") (str "00") []); try reflexivity;
      try (left; reflexivity); simpl; try lia.
  - apply (proj1 (proj2 time_display)). vm_compute. discriminate.
Defined.

(** ** The documented booking message *)

(** [.+?] takes the shortest text after which the rest of the pattern
    matches. *)
Lemma rep_lazy {A : Type} (p : char -> bool) (s : list char)
    (k : list char -> option char -> list char -> option A) (x : A) :
  forall t lo taken pv,
    forallb p t = true -> (lo <= length t)%nat ->
    (forall t1 t2,
        t = t1 ++ t2 -> t2 <> [] -> (lo <= length t1)%nat ->
        k (rev taken ++ t1) (last_of t1 pv) (t2 ++ s) = None) ->
    k (rev taken ++ t) (last_of t pv) s = Some x ->
    rep false p lo None taken pv (t ++ s) k = Some x.
Proof.
  induction t as [|c t IH]; intros lo taken pv F L H K.
  - simpl in L. assert (lo = 0)%nat by lia. subst lo.
    rewrite app_nil_r in K. change (last_of [] pv) with pv in K.
    destruct s as [|c s]; cbn [app rep]; rewrite K; reflexivity.
  - simpl in F. apply andb_true_iff in F. destruct F as [Pc F].
    cbn [app rep]. rewrite Pc. cbn [room andb less option_map].
    assert (R : rep false p (pred lo) None (c :: taken) (Some c) (t ++ s) k
                = Some x).
    { apply IH; auto.
      - simpl in L. lia.
      - intros t1 t2 E N2 L1. cbn [rev]. rewrite <- app_assoc. cbn [app].
        rewrite <- last_of_cons with (pv := pv).
        apply (H (c :: t1) t2); [rewrite E; reflexivity | exact N2|].
        simpl. lia.
      - cbn [rev]. rewrite <- app_assoc. cbn [app].
        rewrite <- last_of_cons with (pv := pv). exact K. }
    rewrite R. destruct lo as [|lo]; [|reflexivity].
    pose proof (H [] (c :: t) eq_refl) as H0.
    rewrite app_nil_r in H0. change (last_of [] pv) with pv in H0.
    cbn [app] in H0. rewrite H0; [reflexivity | discriminate | simpl; lia].
Qed.

(** [\s+] followed by something that needs a digit fails where the white
    space is followed by another character. *)
Lemma rep_spaces_fail {A : Type} (c : char) (r : list char)
    (k : list char -> option char -> list char -> option A) :
  is_space c = false -> is_decimal c = false ->
  (forall t pv u,
      match u with [] => True | x :: _ => is_decimal x = false end ->
      k t pv u = None) ->
  forall w lo taken pv,
    forallb is_space w = true ->
    rep true is_space lo None taken pv (w ++ c :: r) k = None.
Proof.
  intros Sc Dc K. induction w as [|x w IH]; intros lo taken pv F.
  - cbn [app rep]. rewrite Sc. cbn [andb].
    destruct lo; [|reflexivity]. apply K. exact Dc.
  - simpl in F. apply andb_true_iff in F. destruct F as [Sx F].
    cbn [app rep]. rewrite Sx. cbn [room andb less option_map].
    rewrite IH by exact F.
    destruct lo; [|reflexivity]. apply K.
    revert Sx. clear. each_char x; vm_compute; congruence.
Qed.

Lemma last_app_nonempty {A : Type} (t1 t2 : list A) (d : A) :
  t2 <> [] -> last (t1 ++ t2) d = last t2 d.
Proof.
  intros N. induction t1 as [|x t1 IH]; [reflexivity|].
  cbn [app]. destruct (t1 ++ t2) eqn:E.
  - apply app_eq_nil in E. tauto.
  - exact IH.
Qed.

(** A text without digits that does not end in white space: after any
    white space at its start comes a character that is neither white
    space nor a digit. *)
Lemma name_gap (t post : list char) (d : char) :
  t <> [] ->
  forallb (fun x => dot x && negb (is_decimal x)) t = true ->
  is_space (last t d) = false ->
  exists w c r,
    t ++ post = w ++ c :: r /\ forallb is_space w = true
    /\ is_space c = false /\ is_decimal c = false.
Proof.
  induction t as [|x t IH]; intros N F L; [congruence|].
  simpl in F. apply andb_true_iff in F. destruct F as (Fx & F).
  apply andb_true_iff in Fx. destruct Fx as (_ & Dx).
  apply negb_true_iff in Dx.
  destruct (is_space x) eqn:Sx.
  - destruct t as [|y t]; [simpl in L; congruence|].
    destruct IH as (w & c & r & E & Fw & Sc & Dc);
      [discriminate | exact F | exact L|].
    exists (x :: w), c, r.
    change ((x :: y :: t) ++ post) with (x :: (y :: t) ++ post).
    rewrite E. cbn [forallb app]. rewrite Sx, Fw. auto.
  - exists [], x, (t ++ post). auto.
Qed.

Lemma strip_by_pad (p : char -> bool) (l r : list char) (c : char)
    (mid : list char) :
  forallb p l = true -> forallb p r = true ->
  p c = false -> p (last (c :: mid) c) = false ->
  strip_by p (l ++ (c :: mid) ++ r) = c :: mid.
Proof.
  intros Fl Fr Pc Pl. unfold strip_by.
  assert (D : forall l u, forallb p l = true ->
              forall x, p x = false ->
                        drop_while p (l ++ x :: u) = x :: u).
  { clear. induction l as [|y l IH]; intros u F x Px; cbn [app drop_while].
    - rewrite Px. reflexivity.
    - simpl in F. apply andb_true_iff in F. destruct F as (Py & F).
      rewrite Py. apply IH; auto. }
  cbn [app]. rewrite (D l (mid ++ r) Fl c Pc).
  change (c :: mid ++ r) with ((c :: mid) ++ r).
  rewrite rev_app_distr.
  destruct (exists_last (l := c :: mid)) as (body & z & E);
    [discriminate|].
  rewrite E in *. rewrite last_last in Pl.
  rewrite rev_app_distr. cbn [rev app].
  rewrite (D (rev r) (rev body)); auto.
  - cbn [rev]. rewrite rev_involutive. reflexivity.
  - rewrite forallb_forall in *. intros y Iy. apply Fr.
    apply in_rev. exact Iy.
Qed.

Lemma run_chr_i {A : Type} (c x : char) (s : list char)
    (pv : option char) (g : list (nat * list char))
    (k : list char -> state -> option A) :
  lower_char x = lower_char c ->
  run (chr_i c) (mk_state pv (x :: s) g) k = k [x] (mk_state (Some x) s g).
Proof.
  intros E. unfold chr_i. cbn [run rest groups].
  rewrite E, char_eqb_refl. reflexivity.
Qed.

(** The strict pattern on the documented message. *)
Lemma search_pattern1_documented (kw w1 name w2 d w3 t : list char) :
  lower kw = str "book" ->
  forallb is_space w1 = true -> w1 <> [] ->
  forallb is_space w2 = true -> w2 <> [] ->
  forallb is_space w3 = true -> w3 <> [] ->
  name <> [] -> strip name = name ->
  forallb (fun x => dot x && negb (is_decimal x)) name = true ->
  date_shape d -> time_shape t ->
  exists m,
    search pattern1 (kw ++ w1 ++ name ++ w2 ++ d ++ w3 ++ t) = Some m
    /\ group 1 m = name /\ group 2 m = d /\ group 3 m = t.
Proof.
  intros Ek F1 N1 F2 N2 F3 N3 Nn Sn Fn Sd St.
  replace (kw ++ w1 ++ name ++ w2 ++ d ++ w3 ++ t)
    with (kw ++ w1 ++ name ++ w2 ++ d ++ w3 ++ t ++ [])
    by (rewrite app_nil_r; reflexivity).
  destruct kw as [|k1 [|k2 [|k3 [|k4 [|? ?]]]]]; try discriminate Ek.
  injection Ek as E1 E2 E3 E4.
  destruct (strip_by_ends is_space name) as [Z | (c & mid & E & Pc & Pl)];
    fold (strip name) in *; rewrite Sn in *; [congruence|].
  destruct (date_shape_head d (w3 ++ t ++ []) Sd) as (cd & rd & Ed & Hd).
  destruct (time_shape_head t [] St) as (ct & rt & Et & Ht).
  eexists. split.
  - apply search_hit. unfold match_at, pattern1.
    cbn [seq run lit_i str list_ascii_of_string map app].
    rewrite (run_chr_i "b" k1) by exact E1.
    rewrite (run_chr_i "o" k2) by exact E2.
    rewrite (run_chr_i "o" k3) by exact E3.
    rewrite (run_chr_i "k" k4) by exact E4.
    apply run_spaces; [exact F1 | exact N1 | |].
    { rewrite E. exact Pc. }
    unfold lazy_any. cbn [run prev rest groups].
    apply rep_lazy.
    + rewrite forallb_forall in *. intros y Iy.
      specialize (Fn y Iy). apply andb_true_iff in Fn. tauto.
    + rewrite E. simpl. lia.
    + intros t1 t2 E12 N12 L1. unfold spaces. cbn [run prev rest groups].
      destruct (name_gap t2 (w2 ++ d ++ w3 ++ t ++ []) c)
        as (w & x & r & Ex & Fw & Sx & Dx).
      * exact N12.
      * rewrite E12, forallb_app in Fn. apply andb_true_iff in Fn. tauto.
      * rewrite <- (last_app_nonempty t1 t2 c N12), <- E12, E. exact Pl.
      * unfold set_group. cbn [prev rest groups]. rewrite Ex.
        apply rep_spaces_fail; auto.
        intros tt pv' u Hu. apply date_token_needs_digit. exact Hu.
    + cbn [rev app]. unfold set_group at 1. cbn [prev rest groups].
      apply run_spaces; [exact F2 | exact N2 | |].
      { rewrite Ed. destruct (decimal_facts cd Hd) as (S & _). exact S. }
      cbn [run]. rewrite run_date_token by exact Sd.
      apply run_spaces; [exact F3 | exact N3 | |].
      { rewrite Et. destruct (decimal_facts ct Ht) as (S & _). exact S. }
      cbn [run]. rewrite run_time_token by exact St.
      reflexivity.
  - unfold group. cbn [m_groups set_group groups lookup Nat.eqb]. auto.
Qed.

Lemma extract_documented
    (l kw w1 name w2 d w3 hh mm r : list char) :
  forallb is_space l = true -> forallb is_space r = true ->
  lower kw = str "book" ->
  forallb is_space w1 = true -> w1 <> [] ->
  forallb is_space w2 = true -> w2 <> [] ->
  forallb is_space w3 = true -> w3 <> [] ->
  name <> [] -> strip name = name ->
  forallb (fun x => dot x && negb (is_decimal x)) name = true ->
  date_shape d ->
  all_decimal hh -> (1 <= length hh <= 2)%nat ->
  all_decimal mm -> length mm = 2%nat ->
  extract_booking_details
    (l ++ (kw ++ w1 ++ name ++ w2 ++ d ++ w3 ++ hh ++ ":" :: mm) ++ r)
  = Ret (Some name, Some d, Some (two_digits hh ++ ":" :: mm)).
Proof.
  intros Fl Fr Ek F1 N1 F2 N2 F3 N3 Nn Sn Fn Sd Fh Lh Fm Lm.
  pose proof (time_shape_parts hh mm Fh Lh Fm Lm) as St.
  destruct (search_pattern1_documented kw w1 name w2 d w3
              (hh ++ ":" :: mm) Ek F1 N1 F2 N2 F3 N3 Nn Sn Fn Sd St)
    as (m & M & G1 & G2 & G3).
  set (core := kw ++ w1 ++ name ++ w2 ++ d ++ w3 ++ hh ++ ":" :: mm) in *.
  assert (Ec : strip (l ++ core ++ r) = core).
  { destruct (time_shape_last (hh ++ ":" :: mm) St) as (body & z & Ez & Hz).
    destruct kw as [|k1 kw']; [discriminate Ek|].
    injection Ek as E1 _.
    assert (P1 : is_space k1 = false).
    { revert E1. clear. each_char k1; vm_compute; congruence. }
    unfold strip. subst core. cbn [app].
    apply strip_by_pad; auto.
    change (k1 :: kw' ++ w1 ++ name ++ w2 ++ d ++ w3 ++ hh ++ ":" :: mm)
      with ((k1 :: kw') ++ w1 ++ name ++ w2 ++ d ++ w3 ++ hh ++ ":" :: mm).
    rewrite Ez. rewrite !app_assoc. rewrite last_last.
    destruct (decimal_facts z Hz) as (S & _). exact S. }
  unfold extract_booking_details. rewrite Ec, M. cbn zeta.
  rewrite G1, G2, G3, Sn.
  rewrite (ensure_hh_mm_value hh mm Fh Lh Fm Lm). reflexivity.
Qed.

(** X16.  The message the help text documents, "Book [Name]
    [DD-MM-YYYY] [HH:MM]", is read as written.  With the word "book" in
    any case, white space of any kind and length between the parts and
    around the message, a name without digit and line feed, and a time
    H:MM or HH:MM, [extract_booking_details] returns the name, the date
    and the time as they stand in the message, the hour filled to two
    digits; spaces inside the name are kept. *)
Theorem documented_booking_message
    (l kw w1 name w2 d w3 hh mm r : list char) :
  forallb is_space l = true -> forallb is_space r = true ->
  lower kw = str "book" ->
  forallb is_space w1 = true -> w1 <> [] ->
  forallb is_space w2 = true -> w2 <> [] ->
  forallb is_space w3 = true -> w3 <> [] ->
  name <> [] -> strip name = name ->
  forallb (fun x => dot x && negb (is_decimal x)) name = true ->
  date_shape d ->
  all_decimal hh -> (1 <= length hh <= 2)%nat ->
  all_decimal mm -> length mm = 2%nat ->
  extract_booking_details
    (l ++ (kw ++ w1 ++ name ++ w2 ++ d ++ w3 ++ hh ++ ":" :: mm) ++ r)
  = Ret (Some name, Some d, Some (two_digits hh ++ ":" :: mm)).
Proof. apply extract_documented. Qed.

Lemma documented_booking_message_witness :
  extract_booking_details (str "  BOOK  Mary Ann Lee  05-01-2026  9:30 ")
  = Ret (Some (str "Mary Ann Lee"), Some (str "05-01-2026"),
         Some (str "09:30")).
Proof.
  apply (documented_booking_message
           (str "  ") (str "BOOK") (str "  ") (str "Mary Ann Lee")
           (str "  ") (str "05-01-2026") (str "  ") (str "9") (str "30")
           (str " "));
    try reflexivity; try discriminate; try (simpl; lia).
  exists (str "05"), (str "01"), (str "2026"). repeat split.
Defined.

(** ** A booking and its cancellation, through the webhook *)

Lemma parse_cancel_plain (kw w1 d w2 hh mm : list char) :
  lower kw = str "cancel" ->
  forallb is_space w1 = true -> w1 <> [] ->
  date_shape d ->
  forallb is_space w2 = true -> w2 <> [] ->
  all_decimal hh -> (1 <= length hh <= 2)%nat ->
  all_decimal mm -> length mm = 2%nat ->
  parse_cancel_message (kw ++ w1 ++ d ++ w2 ++ hh ++ ":" :: mm)
  = Ret (Some d, Some (two_digits hh ++ ":" :: mm)).
Proof.
  intros Ek F1 N1 Sd F2 N2 Fh Lh Fm Lm.
  pose proof (time_shape_parts hh mm Fh Lh Fm Lm) as St.
  set (t := hh ++ ":" :: mm) in *.
  destruct (shaped_body d (lower w2) t Sd St) as (c & s & x & Eb & Hc & Hx).
  rewrite (parse_cancel_body kw w1 (d ++ w2 ++ t) c s x); auto.
  - rewrite <- Eb. cbn [first_match cancel_patterns].
    assert (N2' : lower w2 <> [])
      by (destruct w2; [congruence | discriminate]).
    destruct (match_cancel_date_time d (lower w2) t [] None)
      as (m & M & G1 & G2); auto.
    { rewrite lower_spaces. exact F2. }
    rewrite app_nil_r in M. rewrite (search_hit _ _ _ M).
    rewrite G1, G2. unfold t. rewrite ensure_hh_mm_value by auto.
    reflexivity.
  - rewrite !lower_app, (lower_date d), (lower_time t) by auto. exact Eb.
Qed.

Lemma strip_text (l r kw body : list char) (z : char) (k0 : char)
    (key : list char) :
  forallb is_space l = true -> forallb is_space r = true ->
  lower kw = k0 :: key -> is_space k0 = false ->
  is_decimal z = true ->
  strip (l ++ (kw ++ body ++ [z]) ++ r) = kw ++ body ++ [z].
Proof.
  intros Fl Fr Ek S0 Hz.
  destruct kw as [|k1 kw']; [discriminate Ek|].
  injection Ek as E1 _.
  assert (P1 : is_space k1 = false).
  { revert E1 S0. clear. intros E S. subst k0.
    revert S. each_char k1; vm_compute; congruence. }
  unfold strip.
  change ((k1 :: kw') ++ body ++ [z]) with (k1 :: kw' ++ body ++ [z]).
  apply strip_by_pad; auto.
  change (k1 :: kw' ++ body ++ [z]) with ((k1 :: kw') ++ body ++ [z]).
  rewrite !app_assoc. rewrite last_last.
  destruct (decimal_facts z Hz) as (S & _). exact S.
Qed.

Lemma mark_cancelled_last (db : table) (a : Appointment) :
  id a = next_id db ->
  mark_cancelled (db ++ [a]) a = db ++ [set_status cancelled a].
Proof.
  intros Ia. unfold mark_cancelled. rewrite map_app. cbn [map].
  rewrite Z.eqb_refl. f_equal.
  apply (mark_cancelled_other db a).
  intros b Ib. apply id_below_next in Ib. lia.
Qed.

Lemma booked_then_cancelled (clk : clock) (db : table)
    (phone name d t message : list char) :
  slot_exclusive db ->
  is_slot_available db d t None = true ->
  parse_cancel_message message = Ret (Some d, Some t) ->
  let a := mk_appointment (next_id db) name phone d t confirmed
                          (utcnow clk) in
  handle_cancel_appointment (db ++ [a]) message phone
  = Ret (AppointmentCancelled (set_status cancelled a),
         db ++ [set_status cancelled a])
  /\ is_slot_available (db ++ [set_status cancelled a]) d t None = true
  /\ get_user_appointments (db ++ [set_status cancelled a]) phone
     = get_user_appointments db phone.
Proof.
  intros Inv Av P a.
  assert (Oa : occupies d t a = true) by (apply occupies_iff; auto).
  assert (Fd : filter (occupies d t) db = [])
    by (apply is_slot_available_spec; exact Av).
  split; [|split].
  - destruct (cancel_cases (db ++ [a]) message phone)
      as [(P' & _) | (d' & t' & P' & C)]; [congruence|].
    rewrite P in P'. injection P' as <- <-.
    destruct C as [(N & _) | (b & Ib & Pb & Db & Tb & Sb & R)].
    + exfalso. apply (N a); auto. apply in_or_app. right. left. reflexivity.
    + assert (b = a).
      { apply in_app_or in Ib. destruct Ib as [Ib | [<- | []]]; auto.
        exfalso.
        assert (J : In b (filter (occupies d t) db)).
        { apply filter_In. split; auto. apply occupies_iff. auto. }
        rewrite Fd in J. destruct J. }
      subst b. rewrite R, mark_cancelled_last by reflexivity. reflexivity.
  - apply is_slot_available_spec. rewrite filter_app, Fd.
    cbn [filter app]. unfold occupies. cbn [set_status status status_eqb].
    rewrite andb_false_r. reflexivity.
  - unfold get_user_appointments. rewrite filter_app.
    cbn [filter set_status status status_eqb]. rewrite andb_false_r.
    rewrite app_nil_r. reflexivity.
Qed.

(** X17.  A booking and its cancellation, end to end.  In a table
    reached by any sequence of requests, the documented booking message
    sent to the webhook for a slot that is free and passes the
    validator stores one confirmed row with the name, date and time of
    the message and answers "booking confirmed".  The documented cancel
    message for that date and time, sent by the same contact, then
    answers "appointment cancelled" for that row and changes nothing but
    its status; afterwards the slot is free and the listing of the
    contact is what it was before the booking. *)
Theorem book_then_cancel (reqs : list request) (clk clk2 : clock)
    (phone l kw w1 name w2 d w3 hh mm r ckw cw1 cw2 : list char) :
  let db := replay reqs [] in
  let t := two_digits hh ++ ":" :: mm in
  let a := mk_appointment (next_id db) name phone d t confirmed
                          (utcnow clk) in
  forallb is_space l = true -> forallb is_space r = true ->
  lower kw = str "book" ->
  forallb is_space w1 = true -> w1 <> [] ->
  forallb is_space w2 = true -> w2 <> [] ->
  forallb is_space w3 = true -> w3 <> [] ->
  name <> [] -> strip name = name ->
  forallb (fun x => dot x && negb (is_decimal x)) name = true ->
  date_shape d ->
  all_decimal hh -> (1 <= length hh <= 2)%nat ->
  all_decimal mm -> length mm = 2%nat ->
  lower ckw = str "cancel" ->
  forallb is_space cw1 = true -> cw1 <> [] ->
  forallb is_space cw2 = true -> cw2 <> [] ->
  is_valid_date_time (today clk) (now clk) d t = Ret true ->
  is_slot_available db d t None = true ->
  webhook clk db
    (l ++ (kw ++ w1 ++ name ++ w2 ++ d ++ w3 ++ hh ++ ":" :: mm) ++ r)
    phone
  = (Reply (BookingConfirmed a), db ++ [a])
  /\ webhook clk2 (db ++ [a]) (ckw ++ cw1 ++ d ++ cw2 ++ hh ++ ":" :: mm)
             phone
     = (Reply (AppointmentCancelled (set_status cancelled a)),
        db ++ [set_status cancelled a])
  /\ is_slot_available (db ++ [set_status cancelled a]) d t None = true
  /\ get_user_appointments (db ++ [set_status cancelled a]) phone
     = get_user_appointments db phone.
Proof.
  intros db t a Fl Fr Ek F1 N1 F2 N2 F3 N3 Nn Sn Fn Sd Fh Lh Fm Lm
         Ec Fc1 Nc1 Fc2 Nc2 V Av. subst a.
  destruct (replay_reachable reqs) as (_ & Inv). fold db in Inv.
  pose proof (time_shape_parts hh mm Fh Lh Fm Lm) as St.
  destruct (time_shape_last (hh ++ ":" :: mm) St) as (body & z & Ez & Hz).
  pose proof (parse_cancel_plain ckw cw1 d cw2 hh mm Ec Fc1 Nc1 Sd Fc2 Nc2
                                 Fh Lh Fm Lm) as P.
  destruct (booked_then_cancelled clk db phone name d t _ Inv Av P)
    as (C1 & C2 & C3).
  split; [|split; [|split]]; [| |exact C2|exact C3].
  - pose proof (extract_documented l kw w1 name w2 d w3 hh mm r
                  Fl Fr Ek F1 N1 F2 N2 F3 N3 Nn Sn Fn Sd Fh Lh Fm Lm) as X.
    unfold webhook, handle_whatsapp_message, strip.
    rewrite strip_by_idem. fold (strip (l ++ (kw ++ w1 ++ name ++ w2 ++ d
                                              ++ w3 ++ hh ++ ":" :: mm) ++ r)).
    set (msg := l ++ (kw ++ w1 ++ name ++ w2 ++ d ++ w3 ++ hh ++ ":" :: mm)
                  ++ r) in *.
    assert (B : handle_appointment_booking clk db (strip msg) phone
                = Ret (BookingConfirmed
                         (mk_appointment (next_id db) name phone d t
                                         confirmed (utcnow clk)),
                       db ++ [mk_appointment (next_id db) name phone d t
                                             confirmed (utcnow clk)])).
    { apply booking_accepts; auto.
      unfold extract_booking_details in *. unfold strip in *.
      rewrite strip_by_idem. exact X. }
    assert (L : exists rest_, lower (strip msg) = str "book" ++ rest_).
    { unfold msg. rewrite Ez.
      replace (l ++ (kw ++ w1 ++ name ++ w2 ++ d ++ w3 ++ body ++ [z]) ++ r)
        with (l ++ (kw ++ (w1 ++ name ++ w2 ++ d ++ w3 ++ body) ++ [z]) ++ r)
        by (repeat rewrite <- app_assoc; reflexivity).
      rewrite (strip_text l r kw _ z "b" (str "ook")); auto.
      rewrite lower_app, Ek. eexists. reflexivity. }
    destruct L as (rest_ & ->). rewrite B. reflexivity.
  - unfold webhook, handle_whatsapp_message, strip.
    rewrite strip_by_idem.
    fold (strip (ckw ++ cw1 ++ d ++ cw2 ++ hh ++ ":" :: mm)).
    assert (S : strip (ckw ++ cw1 ++ d ++ cw2 ++ hh ++ ":" :: mm)
                = ckw ++ cw1 ++ d ++ cw2 ++ hh ++ ":" :: mm).
    { rewrite Ez.
      replace (ckw ++ cw1 ++ d ++ cw2 ++ body ++ [z])
        with (ckw ++ (cw1 ++ d ++ cw2 ++ body) ++ [z])
        by (repeat rewrite <- app_assoc; reflexivity).
      pose proof (strip_text [] [] ckw (cw1 ++ d ++ cw2 ++ body) z "c"
                             (str "ancel")) as H.
      rewrite app_nil_r in H. apply H; auto. }
    rewrite S, lower_app, Ec, C1. reflexivity.
Qed.

Lemma book_then_cancel_witness :
  let t0 := mk_datetime 2025 8 20 10 0 0 0 in
  let clk := mk_clock t0 t0 t0 in
  let phone := str "whatsapp:+15550100" in
  let a := mk_appointment 1 (str "Mary Ann Lee") phone (str "05-01-2026")
                          (str "09:30") confirmed t0 in
  webhook clk [] (str " Book Mary Ann Lee 05-01-2026 9:30 ") phone
  = (Reply (BookingConfirmed a), [a])
  /\ webhook clk [a] (str "CANCEL 05-01-2026 9:30") phone
     = (Reply (AppointmentCancelled (set_status cancelled a)),
        [set_status cancelled a]).
Proof.
  intros t0 clk phone a.
  destruct (book_then_cancel [] clk clk phone
              (str " ") (str "Book") (str " ") (str "Mary Ann Lee")
              (str " ") (str "05-01-2026") (str " ") (str "9") (str "30")
              (str " ") (str "CANCEL") (str " ") (str " "))
    as (B & C & _);
    try reflexivity; try discriminate; try (simpl; lia).
  - exists (str "05"), (str "01"), (str "2026"). repeat split.
  - split; [exact B | exact C].
Defined.

(** X18.  Only the contact that holds an appointment can cancel it.  In
    a table reached by any sequence of requests, a cancel message that
    names the date and time of a confirmed appointment of another
    contact is answered with "no confirmed appointment found", and the
    table stays as it is. *)
Theorem only_owner_cancels (reqs : list request)
    (message phone : list char) (a : Appointment) :
  let db := replay reqs [] in
  In a db -> status a = confirmed -> phone_number a <> phone ->
  parse_cancel_message message = Ret (Some (date a), Some (time a)) ->
  handle_cancel_appointment db message phone
  = Ret (NoConfirmedAppointment (date a) (time a), db).
Proof.
  intros db Ia Sa Na P.
  destruct (replay_reachable reqs) as (_ & Inv). fold db in Inv.
  destruct (cancel_cases db message phone)
    as [(P' & _) | (d & t & P' & C)]; [congruence|].
  rewrite P in P'. injection P' as <- <-.
  destruct C as [(_ & R) | (b & Ib & Pb & Db & Tb & Sb & _)]; [exact R|].
  exfalso. apply Na. rewrite <- Pb. f_equal.
  apply (filter_single (occupies (date a) (time a)) db a b
                       (Inv (date a) (time a)) Ia);
    [apply occupies_iff; auto | exact Ib | apply occupies_iff; auto].
Qed.

Lemma only_owner_cancels_witness :
  let t0 := mk_datetime 2025 8 20 10 0 0 0 in
  let clk := mk_clock t0 t0 t0 in
  let p := str "whatsapp:+15550100" in
  let q := str "whatsapp:+15550111" in
  let a := mk_appointment 1 (str "Jane Roe") q (str "21-08-2025")
                          (str "12:00") confirmed t0 in
  handle_cancel_appointment [a] (str "cancel 21-08-2025 12:00") p
  = Ret (NoConfirmedAppointment (str "21-08-2025") (str "12:00"), [a]).
Proof.
  intros t0 clk p q a.
  apply (only_owner_cancels
           [Book clk (str "Book Jane Roe 21-08-2025 12:00") q]
           (str "cancel 21-08-2025 12:00") p a).
  - left. reflexivity.
  - reflexivity.
  - vm_compute. discriminate.
  - vm_compute. reflexivity.
Defined.
